(** * BDC portfolio monitor: sector classification, holding aggregation,
      watchlist cache and price refresh

    A shallow embedding of the TypeScript sources

    - [lib/sector-classifier.ts]  (SECTORS, SECTOR_KEYWORDS, classifySector)
    - [app/page.tsx]              (getBDCData, the summary averages of Home)
    - [lib/watchlist-store.ts]    (getItem, upsertItem)
    - [app/api/watchlist/analyze/route.ts] (isRecent, POST)
    - [lib/yahoo-bdc.ts], [app/api/cron/refresh-prices/route.ts] (GET)

    Conventions of the embedding.

    - A JavaScript string is a [string] of code units; the case and white
      space tables cover the ASCII range, code units above it are letters
      without case.
    - A JavaScript number that holds money, a ratio or a percentage is a
      rational ([Q]), compared with [Qeq]; rounding of IEEE doubles is not
      part of that model.  The arithmetic of the screener's aggregator is
      embedded a second time on binary64 doubles ([Module Double]), where
      statements about its percentages are settled.  Millisecond clocks are
      integers ([Z]).
    - [null]/[undefined] is [None].
    - A plain object used as a dictionary is a [gmap] keyed by strings.
    - External collaborators (quote provider, AI provider) are functions
      given as section variables; the calls made to them are recorded in a
      trace. *)

From Stdlib Require Import QArith Qround ZArith Ascii String List Permutation Sorted.
From Stdlib Require Floats.
From stdpp Require Import gmap strings list fin_maps sorting.

Local Open Scope Z_scope.

(* ===================================================================== *)
(** * JavaScript string primitives *)
(* ===================================================================== *)

Module JsString.

(** One code unit of [String.prototype.toLowerCase]: A..Z go to a..z. *)
Definition lowerChar (c : ascii) : ascii :=
  let n := N_of_ascii c in
  if ((65 <=? n) && (n <=? 90))%N then ascii_of_N (n + 32) else c.

(** One code unit of [String.prototype.toUpperCase]: a..z go to A..Z. *)
Definition upperChar (c : ascii) : ascii :=
  let n := N_of_ascii c in
  if ((97 <=? n) && (n <=? 122))%N then ascii_of_N (n - 32) else c.

Fixpoint mapChars (f : ascii -> ascii) (s : string) : string :=
  match s with
  | EmptyString => EmptyString
  | String c r => String (f c) (mapChars f r)
  end.

Definition toLowerCase : string -> string := mapChars lowerChar.
Definition toUpperCase : string -> string := mapChars upperChar.

(** White space and line terminators removed by [trim]: TAB, LF, VT, FF,
    CR and SPACE. *)
Definition isWhiteSpace (c : ascii) : bool :=
  let n := N_of_ascii c in
  ((9 <=? n) && (n <=? 13) || (n =? 32))%N.

Fixpoint trimStart (s : string) : string :=
  match s with
  | EmptyString => EmptyString
  | String c r => if isWhiteSpace c then trimStart r else s
  end.

Fixpoint trimEnd (s : string) : string :=
  match s with
  | EmptyString => EmptyString
  | String c r =>
      match trimEnd r with
      | EmptyString => if isWhiteSpace c then EmptyString else String c EmptyString
      | r' => String c r'
      end
  end.

Definition trim (s : string) : string := trimEnd (trimStart s).

(** [s.includes(k)]: [k] occurs in [s] as a contiguous substring. *)
Fixpoint includes (s k : string) : bool :=
  if String.prefix k s then true
  else match s with
       | EmptyString => false
       | String _ r => includes r k
       end.

(** A string all of whose code units are white space. *)
Fixpoint allWhiteSpace (s : string) : bool :=
  match s with
  | EmptyString => true
  | String c r => isWhiteSpace c && allWhiteSpace r
  end.

(** The truthiness of a string value: only the empty string is falsy. *)
Definition truthy (s : string) : bool :=
  match s with EmptyString => false | _ => true end.

(** A search key that begins with a code unit [trim] keeps. *)
Definition startsNonWhite (k : string) : bool :=
  match k with
  | EmptyString => false
  | String c _ => negb (isWhiteSpace c)
  end.

(** A search key that ends with a code unit [trim] keeps. *)
Fixpoint endsNonWhite (k : string) : bool :=
  match k with
  | EmptyString => false
  | String c EmptyString => negb (isWhiteSpace c)
  | String _ r => endsNonWhite r
  end.

End JsString.

(* ===================================================================== *)
(** * Sector taxonomy and classifier  (lib/sector-classifier.ts) *)
(* ===================================================================== *)

Inductive Sector : Type :=
| SoftwareTechnology
| Healthcare
| BusinessServices
| Industrials
| Consumer
| FinancialServices
| MediaTelecom
| Energy
| RealEstate
| Other.

Global Instance Sector_eq_dec : EqDecision Sector.
Proof. solve_decision. Defined.

(** The string each member of the union type [Sector] stands for. *)
Definition sectorName (s : Sector) : string :=
  match s with
  | SoftwareTechnology => "Software & Technology"
  | Healthcare => "Healthcare"
  | BusinessServices => "Business Services"
  | Industrials => "Industrials"
  | Consumer => "Consumer"
  | FinancialServices => "Financial Services"
  | MediaTelecom => "Media & Telecom"
  | Energy => "Energy"
  | RealEstate => "Real Estate"
  | Other => "Other"
  end.

Definition SECTORS : list Sector :=
  [ SoftwareTechnology; Healthcare; BusinessServices; Industrials; Consumer;
    FinancialServices; MediaTelecom; Energy; RealEstate; Other ].

(** [SECTOR_KEYWORDS], as [Object.entries] enumerates it: string keys in
    insertion order. *)
Definition SECTOR_KEYWORDS : list (Sector * list string) :=
  [ (SoftwareTechnology,
      [ "software"; "saas"; "technology"; "tech"; "it services"; "data";
        "cloud"; "cyber"; "digital"; "internet"; "computer"; "electronics";
        "semiconductor"; "application"; "platform"; "analytics" ]);
    (Healthcare,
      [ "health"; "medical"; "pharma"; "biotech"; "hospital"; "clinical";
        "dental"; "physician"; "drug"; "therapeutic"; "diagnostic";
        "life science"; "veterinary"; "healthcare" ]);
    (BusinessServices,
      [ "business services"; "professional services"; "staffing";
        "consulting"; "outsourcing"; "human resources"; "hr services";
        "marketing services"; "advertising"; "commercial services" ]);
    (Industrials,
      [ "industrial"; "manufacturing"; "aerospace"; "defense"; "machinery";
        "construction"; "engineering"; "transportation"; "logistics";
        "distribution"; "building products"; "equipment" ]);
    (Consumer,
      [ "consumer"; "retail"; "restaurant"; "food"; "beverage"; "apparel";
        "leisure"; "entertainment"; "gaming"; "hotel"; "hospitality";
        "e-commerce"; "education"; "personal services" ]);
    (FinancialServices,
      [ "financial"; "insurance"; "banking"; "asset management"; "lending";
        "capital markets"; "investment"; "fintech" ]);
    (MediaTelecom,
      [ "media"; "telecom"; "telecommunications"; "broadcasting";
        "publishing"; "communications"; "wireless"; "cable" ]);
    (Energy,
      [ "energy"; "oil"; "gas"; "petroleum"; "pipeline"; "power";
        "utilities"; "renewable"; "solar"; "wind" ]);
    (RealEstate, [ "real estate"; "property"; "reit"; "housing" ]);
    (Other, []) ].

(** The inner loop: does some keyword of the list occur in [industry]? *)
Fixpoint scanKeywords (industry : string) (keywords : list string) : bool :=
  match keywords with
  | [] => false
  | keyword :: rest =>
      if JsString.includes industry keyword then true
      else scanKeywords industry rest
  end.

(** The outer loop over [Object.entries(SECTOR_KEYWORDS)]; falling off the
    end is the final [return 'Other']. *)
Fixpoint scanSectors (industry : string)
    (entries : list (Sector * list string)) : Sector :=
  match entries with
  | [] => Other
  | (sector, keywords) :: rest =>
      if String.eqb (sectorName sector) "Other" then scanSectors industry rest
      else if scanKeywords industry keywords then sector
      else scanSectors industry rest
  end.

Definition normalize (rawIndustry : string) : string :=
  JsString.trim (JsString.toLowerCase rawIndustry).

Definition classifySector (rawIndustry : option string) : Sector :=
  match rawIndustry with
  | None => Other
  | Some raw =>
      if negb (JsString.truthy raw) then Other
      else scanSectors (normalize raw) SECTOR_KEYWORDS
  end.

(** ** Vocabulary for the classifier's specification *)

(** Keywords registered for a sector. *)
Definition keywordsOf (s : Sector) : list string :=
  match List.find (fun e => bool_decide (fst e = s)) SECTOR_KEYWORDS with
  | Some e => snd e
  | None => []
  end.

(** The normalised text contains some keyword of sector [s]. *)
Definition matchesSector (industry : string) (s : Sector) : bool :=
  existsb (JsString.includes industry) (keywordsOf s).

(** Position of a sector in the declared enumeration. *)
Definition sectorIndex (s : Sector) : nat :=
  match s with
  | SoftwareTechnology => 0
  | Healthcare => 1
  | BusinessServices => 2
  | Industrials => 3
  | Consumer => 4
  | FinancialServices => 5
  | MediaTelecom => 6
  | Energy => 7
  | RealEstate => 8
  | Other => 9
  end%nat.

Definition declaredBefore (a b : Sector) : Prop :=
  (sectorIndex a < sectorIndex b)%nat.

(** The raw text contains, without regard to case, some keyword of [s]. *)
Definition containsKeywordOf (raw : string) (s : Sector) : bool :=
  matchesSector (JsString.toLowerCase raw) s.

(* ===================================================================== *)
(** * Numbers and database rows *)
(* ===================================================================== *)

(** [x || 0] on a nullable number. *)
Definition orZero (x : option Q) : Q :=
  match x with
  | Some q => q
  | None => 0%Q
  end.

(** [a > b] on numbers. *)
Definition Qgtb (a b : Q) : bool := negb (Qle_bool a b).

(** Truthiness of a nullable number: [null] and [0] are falsy. *)
Definition truthyNum (x : option Q) : bool :=
  match x with
  | Some q => negb (Qeq_bool q 0)
  | None => false
  end.

(** [a || b] on numbers. *)
Definition numOr (a b : Q) : Q := if Qeq_bool a 0 then b else a.

(** A column value of the [bdcs] table: DECIMAL, TEXT or TIMESTAMPTZ (as
    milliseconds since the epoch).  SQL NULL is the absence of the key. *)
Inductive Value : Type :=
| VNum (q : Q)
| VText (s : string)
| VTime (t : Z).

(** A row of [bdcs], as the record-access layer hands it over:
    [Record<string, unknown>]. *)
Abbreviation Row := (gmap string Value).

Definition numField (row : Row) (column : string) : option Q :=
  match row !! column with
  | Some (VNum q) => Some q
  | _ => None
  end.

Definition textField (row : Row) (column : string) : option string :=
  match row !! column with
  | Some (VText s) => Some s
  | _ => None
  end.

(** [row.column == null] *)
Definition isNull (row : Row) (column : string) : bool :=
  match row !! column with
  | Some _ => false
  | None => true
  end.

(* ===================================================================== *)
(** * Holding aggregation and entity merge  (app/page.tsx, getBDCData) *)
(* ===================================================================== *)

(** A row of [holdings] (interface [Holding]).  [industry_sector] is [None]
    when the stored value is falsy (NULL or the empty string). *)
Record Holding : Type := mkHolding {
  bdc_cik : string;
  period_date : string;
  company_name : string;
  industry_raw : option string;
  industry_sector : option Sector;
  fair_value : option Q
}.

(** [.order('period_date', { ascending: false })]: rows with the greatest
    period string first. *)
Definition periodDesc (a b : Holding) : Prop :=
  String.le (period_date b) (period_date a).

Global Instance periodDesc_dec : RelDecision periodDesc.
Proof. intros a b. unfold periodDesc. apply _. Defined.

(** The holdings of one entity in the table. *)
Definition holdingsOfEntity (table : list Holding) (cik : string)
  : list Holding :=
  List.filter (fun h => String.eqb (bdc_cik h) cik) table.

(** The holdings query of one entity:
    [from('holdings').select('*').eq('bdc_cik', cik).order('period_date', desc)]. *)
Definition queryHoldings (table : list Holding) (cik : string) : list Holding :=
  merge_sort periodDesc (holdingsOfEntity table cik).

Definition fairValueOrZero (h : Holding) : Q := orZero (fair_value h).

(** [holding.industry_sector || classifySector(holding.industry_raw)] *)
Definition resolveSector (h : Holding) : Sector :=
  match industry_sector h with
  | Some s => s
  | None => classifySector (industry_raw h)
  end.

(** [latestHoldings.reduce((sum, h) => sum + (h.fair_value || 0), 0)] *)
Definition sumFairValue (hs : list Holding) : Q :=
  fold_left (fun sum h => (sum + fairValueOrZero h)%Q) hs 0%Q.

(** One turn of the loop filling [sectorTotals]. *)
Definition addToSector (sectorTotals : gmap string Q) (h : Holding)
  : gmap string Q :=
  let sector := sectorName (resolveSector h) in
  <[ sector := (orZero (sectorTotals !! sector) + fairValueOrZero h)%Q ]>
    sectorTotals.

Definition sectorTotalsOf (latestHoldings : list Holding) : gmap string Q :=
  fold_left addToSector latestHoldings ∅.

(** [for (const sector of SECTORS) sectorExposures[sector] = ... * 100] *)
Definition percentagesOf (sectorTotals : gmap string Q) (totalFairValue : Q)
  : gmap string Q :=
  fold_left
    (fun exposures sector =>
       <[ sectorName sector :=
            (orZero (sectorTotals !! sectorName sector) / totalFairValue * 100)%Q ]>
         exposures)
    SECTORS ∅.

(** [if (sectorExposures[sector] == null) sectorExposures[sector] = 0] *)
Definition fillMissing (sectorExposures : gmap string Q) : gmap string Q :=
  fold_left
    (fun exposures sector =>
       match exposures !! sectorName sector with
       | None => <[ sectorName sector := 0%Q ]> exposures
       | Some _ => exposures
       end)
    SECTORS sectorExposures.

Record Exposure : Type := mkExposure {
  totalFairValue : Q;
  latestPeriod : string;
  sectorExposures : gmap string Q
}.

(** The body of the per-entity loop up to the initialisation of missing
    sectors.  [holdings] is [None] when the query failed or returned no
    data. *)
Definition aggregate (holdings : option (list Holding)) : Exposure :=
  match holdings with
  | Some ((first :: _) as rows) =>
      let latest := period_date first in
      let latestHoldings :=
        List.filter (fun h => String.eqb (period_date h) latest) rows in
      let total := sumFairValue latestHoldings in
      let exposures :=
        if Qgtb total 0
        then percentagesOf (sectorTotalsOf latestHoldings) total
        else ∅ in
      mkExposure total latest (fillMissing exposures)
  | _ => mkExposure 0%Q "" (fillMissing ∅)
  end.

(** The percentage reported for a sector. *)
Definition percentage (e : Exposure) (s : Sector) : option Q :=
  sectorExposures e !! sectorName s.

(** Sum of the reported percentages over the taxonomy. *)
Definition percentageSum (e : Exposure) : Q :=
  fold_right (fun s acc => (orZero (percentage e s) + acc)%Q) 0%Q SECTORS.

(** ** Vocabulary for the aggregator's specification *)

Definition sumQ (l : list Q) : Q := fold_right Qplus 0%Q l.

(** The greater of two period strings in lexicographic order. *)
Definition laterPeriod (a b : string) : string :=
  if String.leb a b then b else a.

(** The maximum period string present among the holdings. *)
Definition maxPeriod (hs : list Holding) : string :=
  fold_right (fun h m => laterPeriod m (period_date h)) "" hs.

(** The holdings stamped with the maximum period. *)
Definition latestOnly (hs : list Holding) : list Holding :=
  List.filter (fun h => String.eqb (period_date h) (maxPeriod hs)) hs.

(** Fair value held in sector [s] among [hs]. *)
Definition sectorValue (hs : list Holding) (s : Sector) : Q :=
  sumQ (List.map fairValueOrZero
          (List.filter (fun h => bool_decide (resolveSector h = s)) hs)).

Definition totalValue (hs : list Holding) : Q :=
  sumQ (List.map fairValueOrZero hs).

(** The share of sector [s] in the fair value of [hs], in percent; 0 when
    the total is not positive. *)
Definition sectorShare (hs : list Holding) (s : Sector) : Q :=
  if Qgtb (totalValue hs) 0
  then (sectorValue hs s / totalValue hs * 100)%Q
  else 0%Q.

(** The sample of the specification: an older Healthcare holding and a
    newer Industrials holding of one entity. *)
Definition sampleHoldings : list Holding :=
  [ mkHolding "0001" "2024-06-30" "Alpha Clinic" None (Some Healthcare) (Some 100%Q);
    mkHolding "0001" "2024-09-30" "Beta Machining" None (Some Industrials) (Some 50%Q) ].

(** Holdings whose fair values cancel out. *)
Definition zeroHoldings : list Holding :=
  [ mkHolding "0002" "2024-09-30" "Gamma Retail" (Some "Retail") None (Some 0%Q);
    mkHolding "0002" "2024-09-30" "Delta Power" (Some "Power") None None ].

(** The composite record pushed to [results] (interface
    [BDCSectorExposure]). *)
Record BDCSectorExposure : Type := mkBDCSectorExposure {
  x_cik : option string;
  x_name : option string;
  x_ticker : option string;
  x_total_fair_value : Q;
  x_period_date : string;
  x_sector_exposures : gmap string Q;
  x_dividend_yield : option Q;
  x_dividend_growth_3yr : option Q;
  x_nav_per_share : option Q;
  x_price : option Q;
  x_price_to_nav : option Q;
  x_non_accrual_pct : option Q;
  x_debt_to_equity : option Q;
  x_net_investment_income_yield : option Q;
  x_market_cap : option Q;
  x_payout_ratio : option Q;
  x_beta : option Q;
  x_fifty_two_week_high : option Q;
  x_fifty_two_week_low : option Q;
  x_analyst_target_price : option Q;
  x_analyst_rating : option string;
  x_institutional_ownership : option Q;
  x_five_yr_avg_dividend_yield : option Q;
  x_ex_dividend_date : option string
}.

(** [totalFairValue === 0 && bdc.price == null && bdc.dividend_yield == null] *)
Definition skipped (bdc : Row) (e : Exposure) : bool :=
  Qeq_bool (totalFairValue e) 0
  && isNull bdc "price" && isNull bdc "dividend_yield".

Definition mergeView (bdc : Row) (e : Exposure) : BDCSectorExposure :=
  {| x_cik := textField bdc "cik";
     x_name := textField bdc "name";
     x_ticker := textField bdc "ticker";
     x_total_fair_value := totalFairValue e;
     x_period_date := latestPeriod e;
     x_sector_exposures := sectorExposures e;
     x_dividend_yield := numField bdc "dividend_yield";
     x_dividend_growth_3yr := numField bdc "dividend_growth_3yr";
     x_nav_per_share := numField bdc "nav_per_share";
     x_price := numField bdc "price";
     x_price_to_nav := numField bdc "price_to_nav";
     x_non_accrual_pct := numField bdc "non_accrual_pct";
     x_debt_to_equity := numField bdc "debt_to_equity";
     x_net_investment_income_yield := numField bdc "net_investment_income_yield";
     x_market_cap := numField bdc "market_cap";
     x_payout_ratio := numField bdc "payout_ratio";
     x_beta := numField bdc "beta";
     x_fifty_two_week_high := numField bdc "fifty_two_week_high";
     x_fifty_two_week_low := numField bdc "fifty_two_week_low";
     x_analyst_target_price := numField bdc "analyst_target_price";
     x_analyst_rating := textField bdc "analyst_rating";
     x_institutional_ownership := numField bdc "institutional_ownership";
     x_five_yr_avg_dividend_yield := numField bdc "five_yr_avg_dividend_yield";
     x_ex_dividend_date := textField bdc "ex_dividend_date" |}.

(** The holdings the store returns for a row of [bdcs]. *)
Definition holdingsOf (table : list Holding) (bdc : Row)
  : option (list Holding) :=
  match textField bdc "cik" with
  | Some cik => Some (queryHoldings table cik)
  | None => None
  end.

(** The [data] component of [getBDCData]: [bdcs] is [None] when the entity
    query failed. *)
Definition getBDCData (bdcs : option (list Row)) (table : list Holding)
  : list BDCSectorExposure :=
  match bdcs with
  | None => []
  | Some rows =>
      fold_left
        (fun results bdc =>
           let e := aggregate (holdingsOf table bdc) in
           if skipped bdc e then results
           else results ++ [mergeView bdc e])
        rows []
  end.

(** The scalar financial metrics of an entity. *)
Definition scalarMetrics : list string :=
  [ "dividend_yield"; "dividend_growth_3yr"; "nav_per_share"; "price";
    "price_to_nav"; "non_accrual_pct"; "total_assets"; "debt_to_equity";
    "net_investment_income_yield" ].

(** Some scalar financial metric of the entity is populated. *)
Definition hasScalarMetric (bdc : Row) : bool :=
  existsb (fun column => negb (isNull bdc column)) scalarMetrics.

(** The entity of row [bdc] appears in the composite result set. *)
Definition included (bdc : Row) (data : list BDCSectorExposure) : Prop :=
  exists x, In x data /\ x_cik x = textField bdc "cik".

(** An entity without holdings whose only populated metric is the net asset
    value per share. *)
Definition navOnlyEntity : Row :=
  {[ "cik" := VText "0009"; "name" := VText "Solo NAV Corp";
     "ticker" := VText "SNAV"; "nav_per_share" := VNum (76 # 5) ]}.

(** An entity without holdings whose only populated metric is the
    non-accrual percentage. *)
Definition nonAccrualOnlyEntity : Row :=
  {[ "cik" := VText "0010"; "name" := VText "Solo Accrual Corp";
     "non_accrual_pct" := VNum (5 # 2) ]}.

(** ** Summary averages of [Home] *)

(** [data.filter(b => b.m).reduce((sum, b) => sum + (b.m || 0), 0)
      / data.filter(b => b.m).length]; [None] is the NaN of [0 / 0]. *)
Definition averageMetric (metric : BDCSectorExposure -> option Q)
    (data : list BDCSectorExposure) : option Q :=
  let selected := List.filter (fun b => truthyNum (metric b)) data in
  let sum := fold_left (fun sum b => (sum + orZero (metric b))%Q) selected 0%Q in
  match length selected with
  | O => None
  | n => Some (sum / inject_Z (Z.of_nat n))%Q
  end.

(** A composite record without holdings, built from a row of [bdcs]. *)
Definition entityOfRow (bdc : Row) : BDCSectorExposure :=
  mergeView bdc (aggregate None).

(** The sample of the specification: yields 10, null and 20. *)
Definition sampleEntities : list BDCSectorExposure :=
  [ entityOfRow {[ "cik" := VText "1"; "dividend_yield" := VNum 10 ]};
    entityOfRow {[ "cik" := VText "2" ]};
    entityOfRow {[ "cik" := VText "3"; "dividend_yield" := VNum 20 ]} ].

Definition avgDividendYield := averageMetric x_dividend_yield.
Definition avgPriceToNav := averageMetric x_price_to_nav.
Definition avgNonAccrual := averageMetric x_non_accrual_pct.

(* ===================================================================== *)
(** * Watchlist cache  (lib/watchlist-store.ts, api/watchlist/analyze) *)
(* ===================================================================== *)

(** Interface [FMPTickerData]: what the quote collaborator returns. *)
Module FMPTickerData.
Record t : Type := mk {
  companyName : string;
  description : string;
  sector : string;
  industry : string;
  mktCap : Q;
  price : Q;
  revenue : Q;
  netIncome : Q;
  eps : Q;
  peRatio : Q;
  pbRatio : Q;
  returnOnEquity : Q;
  evToEBITDA : Q;
  ytdChange : Q;
  oneYearChange : Q
}.
End FMPTickerData.

(** Interface [AIAnalysis]: what the AI-analysis collaborator returns. *)
Module AIAnalysis.
Record t : Type := mk {
  risks : list string;
  strengths : list string;
  evaluation : string;
  revenue : Q;
  netIncome : Q;
  eps : Q;
  peRatio : Q;
  pbRatio : Q;
  evEbitda : Q
}.
End AIAnalysis.

(** Interface [WatchlistItem].  [id] is the opaque token drawn from
    [crypto.randomUUID]; [analyzed_at] and [created_at] hold the instant the
    ISO string denotes, [None] for an empty or unparsable string (for which
    [new Date(s).getTime()] is NaN). *)
Module WatchlistItem.
Record t : Type := mk {
  id : nat;
  ticker : string;
  company_name : option string;
  description : option string;
  sector : option string;
  industry : option string;
  market_cap : option Q;
  price : option Q;
  revenue : option Q;
  net_income : option Q;
  eps : option Q;
  pe_ratio : option Q;
  pb_ratio : option Q;
  ev_ebitda : option Q;
  roe : option Q;
  ytd_change : option Q;
  one_year_change : option Q;
  risks : list string;
  strengths : list string;
  evaluation : option string;
  analyzed_at : option Z;
  created_at : option Z
}.
End WatchlistItem.

(** Effects a request can have on the outside world. *)
Inductive Call : Type :=
| QuoteCall (ticker : string)
| AICall (ticker : string)
| CacheWrite (items : list WatchlistItem.t).

(** The world a request runs in: the content of [data/watchlist.json], the
    clock, the supply of identifiers and the calls made so far (oldest
    first). *)
Record World : Type := mkWorld {
  file : list WatchlistItem.t;
  clock : Z;
  nextId : nat;
  trace : list Call
}.

Definition record (c : Call) (w : World) : World :=
  mkWorld (file w) (clock w) (nextId w) (trace w ++ [c]).

(** ** lib/watchlist-store.ts *)

Definition loadWatchlist (w : World) : list WatchlistItem.t := file w.

Definition saveWatchlist (items : list WatchlistItem.t) (w : World) : World :=
  mkWorld items (clock w) (nextId w) (trace w ++ [CacheWrite items]).

Definition upsertItem (item : WatchlistItem.t) (w : World) : World :=
  let items := loadWatchlist w in
  match list_find
          (fun i => WatchlistItem.ticker i = WatchlistItem.ticker item) items with
  | Some (index, _) => saveWatchlist (<[ index := item ]> items) w
  | None => saveWatchlist (item :: items) w
  end.

Definition deleteItem (ticker : string) (w : World) : World :=
  let items := loadWatchlist w in
  saveWatchlist
    (List.filter
       (fun i => negb (String.eqb (WatchlistItem.ticker i)
                                  (JsString.toUpperCase ticker))) items) w.

Definition getItem (ticker : string) (w : World) : option WatchlistItem.t :=
  List.find
    (fun i => String.eqb (WatchlistItem.ticker i) (JsString.toUpperCase ticker))
    (loadWatchlist w).

(** ** api/watchlist/analyze/route.ts *)

(** [isRecent(dateStr, hours)], with [now] the reading of [Date.now()] and
    [analyzed] the instant [dateStr] parses to. *)
Definition isRecent (now analyzed hours : Z) : bool :=
  let cutoff := now - hours * 60 * 60 * 1000 in
  analyzed >? cutoff.

(** [cached.analyzed_at && isRecent(cached.analyzed_at, 24)] *)
Definition reusable (now : Z) (cached : WatchlistItem.t) : bool :=
  match WatchlistItem.analyzed_at cached with
  | Some analyzed => isRecent now analyzed 24
  | None => false
  end.

(** The analysis substituted when the AI call throws. *)
Definition fallbackAnalysis : AIAnalysis.t :=
  {| AIAnalysis.risks := [ "AI analysis unavailable - check API key credits" ];
     AIAnalysis.strengths := [ "AI analysis unavailable - check API key credits" ];
     AIAnalysis.evaluation :=
       "AI analysis could not be generated. Financial data shown above is from live market data.";
     AIAnalysis.revenue := 0; AIAnalysis.netIncome := 0; AIAnalysis.eps := 0;
     AIAnalysis.peRatio := 0; AIAnalysis.pbRatio := 0; AIAnalysis.evEbitda := 0 |}.

Definition buildItem (id : nat) (now : Z) (ticker : string)
    (fmpData : FMPTickerData.t) (analysis : AIAnalysis.t) : WatchlistItem.t :=
  {| WatchlistItem.id := id;
     WatchlistItem.ticker := ticker;
     WatchlistItem.company_name := Some (FMPTickerData.companyName fmpData);
     WatchlistItem.description := Some (FMPTickerData.description fmpData);
     WatchlistItem.sector := Some (FMPTickerData.sector fmpData);
     WatchlistItem.industry := Some (FMPTickerData.industry fmpData);
     WatchlistItem.market_cap := Some (FMPTickerData.mktCap fmpData);
     WatchlistItem.price := Some (FMPTickerData.price fmpData);
     WatchlistItem.revenue :=
       Some (numOr (AIAnalysis.revenue analysis) (FMPTickerData.revenue fmpData));
     WatchlistItem.net_income :=
       Some (numOr (AIAnalysis.netIncome analysis) (FMPTickerData.netIncome fmpData));
     WatchlistItem.eps :=
       Some (numOr (AIAnalysis.eps analysis) (FMPTickerData.eps fmpData));
     WatchlistItem.pe_ratio :=
       Some (numOr (AIAnalysis.peRatio analysis) (FMPTickerData.peRatio fmpData));
     WatchlistItem.pb_ratio :=
       Some (numOr (AIAnalysis.pbRatio analysis) (FMPTickerData.pbRatio fmpData));
     WatchlistItem.ev_ebitda :=
       Some (numOr (AIAnalysis.evEbitda analysis) (FMPTickerData.evToEBITDA fmpData));
     WatchlistItem.roe := Some (FMPTickerData.returnOnEquity fmpData);
     WatchlistItem.ytd_change := Some (FMPTickerData.ytdChange fmpData);
     WatchlistItem.one_year_change := Some (FMPTickerData.oneYearChange fmpData);
     WatchlistItem.risks := AIAnalysis.risks analysis;
     WatchlistItem.strengths := AIAnalysis.strengths analysis;
     WatchlistItem.evaluation := Some (AIAnalysis.evaluation analysis);
     WatchlistItem.analyzed_at := Some now;
     WatchlistItem.created_at := Some now |}.

(** The body of a JSON response. *)
Inductive Body : Type :=
| ErrorBody (error : string)
| AnalyzeResponse (results : list WatchlistItem.t)
                  (errors : list (string * string)).

Record Response : Type := mkResponse { status : Z; body : Body }.

(** What [request.json()] yields: a rejection, or a body whose [tickers]
    field is an array of strings ([Some]) or anything else ([None]). *)
Inductive Request : Type :=
| Unreadable (message : string)
| Parsed (tickers : option (list string)).

Section Analyze.

(** [fetchTickerData]: [inl m] when it throws [Error(m)]. *)
Variable fetchTickerData : string -> string + FMPTickerData.t.

(** [analyzeWithClaude]: [None] when it throws. *)
Variable analyzeWithClaude : string -> FMPTickerData.t -> option AIAnalysis.t.

(** The inner [try] block past the cache check: quote, analysis with its
    own [try], construction of the item, upsert.  [inr item] is pushed to
    [results], [inl message] to [errors]. *)
Definition refreshTicker (ticker : string) (w : World)
  : (string + WatchlistItem.t) * World :=
  let w1 := record (QuoteCall ticker) w in
  match fetchTickerData ticker with
  | inl message => (inl message, w1)
  | inr fmpData =>
      let w2 := record (AICall ticker) w1 in
      let analysis :=
        match analyzeWithClaude ticker fmpData with
        | Some a => a
        | None => fallbackAnalysis
        end in
      let item := buildItem (nextId w2) (clock w2) ticker fmpData analysis in
      let w3 := mkWorld (file w2) (clock w2) (S (nextId w2)) (trace w2) in
      (inr item, upsertItem item w3)
  end.

(** The inner [try] block of the loop over [cleanTickers]. *)
Definition analyzeTicker (ticker : string) (w : World)
  : (string + WatchlistItem.t) * World :=
  match getItem ticker w with
  | Some cached =>
      if reusable (clock w) cached then (inr cached, w)
      else refreshTicker ticker w
  | None => refreshTicker ticker w
  end.

Definition cleanTickers (tickers : list string) : list string :=
  List.filter
    (fun t => (0 <? String.length t)%nat && (String.length t <=? 10)%nat)
    (List.map (fun t => JsString.toUpperCase (JsString.trim t)) tickers).

(** The loop over [cleanTickers], accumulating [results] and [errors]. *)
Fixpoint analyzeAll (tickers : list string)
    (results : list WatchlistItem.t) (errors : list (string * string))
    (w : World) : Body * World :=
  match tickers with
  | [] => (AnalyzeResponse results errors, w)
  | ticker :: rest =>
      match analyzeTicker ticker w with
      | (inr item, w') => analyzeAll rest (results ++ [item]) errors w'
      | (inl message, w') =>
          analyzeAll rest results (errors ++ [(ticker, message)]) w'
      end
  end.

Definition POST (request : Request) (w : World) : Response * World :=
  match request with
  | Unreadable message => (mkResponse 500 (ErrorBody message), w)
  | Parsed None => (mkResponse 400 (ErrorBody "No tickers provided"), w)
  | Parsed (Some tickers) =>
      if (length tickers =? 0)%nat then
        (mkResponse 400 (ErrorBody "No tickers provided"), w)
      else if (25 <? length tickers)%nat then
        (mkResponse 400 (ErrorBody "Maximum 25 tickers at a time"), w)
      else
        let '(response, w') := analyzeAll (cleanTickers tickers) [] [] w in
        (mkResponse 200 response, w')
  end.

End Analyze.

(** ** Vocabulary and samples for the watchlist's specification *)

(** The cache holds an item for the ticker that passes the freshness test. *)
Definition servedFromCache (ticker : string) (w : World) : bool :=
  match getItem ticker w with
  | Some cached => reusable (clock w) cached
  | None => false
  end.

(** One hour and the freshness window, in milliseconds. *)
Definition hour : Z := 60 * 60 * 1000.
Definition freshnessWindow : Z := 24 * hour.

(** The qualitative placeholders as the specification words them: three
    identical risk strings and three identical strength strings. *)
Definition threePlaceholders (item : WatchlistItem.t) : Prop :=
  (exists p, WatchlistItem.risks item = [ p; p; p ])
  /\ (exists p, WatchlistItem.strengths item = [ p; p; p ]).

(** The degraded analysis as the specification words it. *)
Definition degradedWithThreePlaceholders : Prop :=
  forall (fetchTickerData : string -> string + FMPTickerData.t)
         (analyzeWithClaude : string -> FMPTickerData.t -> option AIAnalysis.t)
         (ticker : string) (w : World) (fmpData : FMPTickerData.t),
    servedFromCache ticker w = false ->
    fetchTickerData ticker = inr fmpData ->
    analyzeWithClaude ticker fmpData = None ->
    exists item w',
      analyzeTicker fetchTickerData analyzeWithClaude ticker w = (inr item, w')
      /\ threePlaceholders item.

Definition sampleQuote : FMPTickerData.t :=
  FMPTickerData.mk "Acme Corporation" "Maker of anvils." "Industrials"
    "Machinery" 5000000000 (125 # 2) 800000000 90000000 (9 # 2) 14 (5 # 2)
    (3 # 20) 9 (7 # 2) 12.

Definition sampleProvider (ticker : string) : string + FMPTickerData.t :=
  if String.eqb ticker "ACME" then inr sampleQuote
  else inl "Ticker not found".

Definition failingAI (ticker : string) (data : FMPTickerData.t)
  : option AIAnalysis.t := None.

(** An item analysed at instant [analyzed]. *)
Definition cachedItem (analyzed : Z) : WatchlistItem.t :=
  buildItem 7 analyzed "ACME" sampleQuote fallbackAnalysis.

(** A world whose cache holds one item analysed [age] milliseconds ago. *)
Definition worldWithAge (age : Z) : World :=
  mkWorld [ cachedItem (1700000000000 - age) ] 1700000000000 8 [].

Definition emptyWorld : World := mkWorld [] 1700000000000 0 [].

(* ===================================================================== *)
(** * Price refresh job  (lib/yahoo-bdc.ts, api/cron/refresh-prices) *)
(* ===================================================================== *)

(** The parts of the provider's quote summary that [fetchBDCData] reads. *)
Record QuoteSummary : Type := mkQuoteSummary {
  regularMarketPrice : option Q;
  dividendYield : option Q;
  trailingAnnualDividendYield : option Q;
  bookValue : option Q;
  debtToEquity : option Q
}.

(** Interface [BDCYahooData]. *)
Record BDCYahooData : Type := mkBDCYahooData {
  price : option Q;
  dividend_yield : option Q;
  nav_per_share : option Q;
  debt_to_equity : option Q
}.

(** [Math.round]: the nearest integer, halves rounded up. *)
Definition jsRound (x : Q) : Z := Qfloor (x + (1 # 2))%Q.

(** Status reported for one ticker. *)
Inductive RefreshStatus : Type := updated | skippedNoData | error.

Record RefreshResult : Type := mkRefreshResult {
  r_ticker : string;
  r_status : RefreshStatus;
  r_message : option string
}.

Section Refresh.

(** [yf.quoteSummary]: [inl m] when it rejects with [Error(m)]. *)
Variable quoteSummary : string -> string + QuoteSummary.

(** The store's answer to an update of the entity [cik]: [Some m] is
    [updateError] with that message. *)
Variable updateError : string -> option string.

(** [new Date()] while the n-th entity of the snapshot is processed. *)
Variable now : nat -> Z.

Definition fetchBDCData (ticker : string) : string + BDCYahooData :=
  match quoteSummary (JsString.toUpperCase ticker) with
  | inl message => inl message
  | inr result =>
      inr {| price := regularMarketPrice result;
             dividend_yield :=
               match dividendYield result with
               | Some d => Some (d * 100)%Q
               | None =>
                   match trailingAnnualDividendYield result with
                   | Some d => Some (d * 100)%Q
                   | None => None
                   end
               end;
             nav_per_share := bookValue result;
             debt_to_equity :=
               match debtToEquity result with
               | Some d => Some (d / 100)%Q
               | None => None
               end |}
  end.

(** [if (x != null) updateFields[column] = x] *)
Definition setIfPresent (column : string) (x : option Q)
    (updateFields : Row) : Row :=
  match x with
  | Some q => <[ column := VNum q ]> updateFields
  | None => updateFields
  end.

(** The [price_to_nav] assignment. *)
Definition setPriceToNav (finalPrice finalNav : option Q)
    (updateFields : Row) : Row :=
  match finalPrice, finalNav with
  | Some p, Some n =>
      if Qgtb n 0
      then <[ "price_to_nav" :=
                VNum (inject_Z (jsRound (p / n * 100)) / 100)%Q ]> updateFields
      else updateFields
  | _, _ => updateFields
  end.

Definition buildUpdateFields (time : Z) (yahooData : BDCYahooData) : Row :=
  setPriceToNav (price yahooData) (nav_per_share yahooData)
    (setIfPresent "debt_to_equity" (debt_to_equity yahooData)
       (setIfPresent "nav_per_share" (nav_per_share yahooData)
          (setIfPresent "dividend_yield" (dividend_yield yahooData)
             (setIfPresent "price" (price yahooData)
                {[ "updated_at" := VTime time ]})))).

(** [from('bdcs').update(updateFields).eq('cik', cik)]: the given columns
    are overwritten in every row of that entity, all else is kept. *)
Definition updateWhereCik (updateFields : Row) (cik : string)
    (table : list Row) : list Row :=
  List.map
    (fun row =>
       if bool_decide (textField row "cik" = Some cik)
       then updateFields ∪ row
       else row)
    table.

(** One turn of the loop for an entity with a non-empty ticker. *)
Definition refreshEntity (n : nat) (cik ticker : string) (table : list Row)
  : RefreshResult * list Row :=
  match fetchBDCData ticker with
  | inl message => (mkRefreshResult ticker error (Some message), table)
  | inr yahooData =>
      let updateFields := buildUpdateFields (now n) yahooData in
      if (size updateFields <=? 1)%nat then
        (mkRefreshResult ticker skippedNoData (Some "No data from Yahoo"), table)
      else
        match updateError cik with
        | Some message => (mkRefreshResult ticker error (Some message), table)
        | None =>
            (mkRefreshResult ticker updated None,
             updateWhereCik updateFields cik table)
        end
  end.

(** [select('cik, ticker').not('ticker', 'is', null)] *)
Definition selectWithTicker (table : list Row) : list (string * string) :=
  omap (fun row =>
          match textField row "cik", textField row "ticker" with
          | Some cik, Some ticker => Some (cik, ticker)
          | _, _ => None
          end) table.

(** The loop over the snapshot [bdcs]. *)
Fixpoint refreshLoop (n : nat) (bdcs : list (string * string))
    (results : list RefreshResult) (table : list Row)
  : list RefreshResult * list Row :=
  match bdcs with
  | [] => (results, table)
  | (cik, ticker) :: rest =>
      if negb (JsString.truthy ticker) then
        refreshLoop (S n) rest results table
      else
        let '(r, table') := refreshEntity n cik ticker table in
        refreshLoop (S n) rest (results ++ [r]) table'
  end.

(** The handler: the per-ticker results and the table it leaves behind. *)
Definition GET (table : list Row) : list RefreshResult * list Row :=
  refreshLoop 0 (selectWithTicker table) [] table.

End Refresh.

(** The columns the refresh job may write. *)
Definition refreshedColumns : list string :=
  [ "price"; "dividend_yield"; "nav_per_share"; "debt_to_equity";
    "price_to_nav"; "updated_at" ].

(** Two versions of a row agree on every column outside [columns]. *)
Definition sameOutside (columns : list string) (row row' : Row) : Prop :=
  forall column, ~ In column columns -> row' !! column = row !! column.

(** The fresh value the provider data holds for a directly copied column. *)
Definition yahooField (yahooData : BDCYahooData) (column : string)
  : option Q :=
  if String.eqb column "price" then price yahooData
  else if String.eqb column "dividend_yield" then dividend_yield yahooData
  else if String.eqb column "nav_per_share" then nav_per_share yahooData
  else if String.eqb column "debt_to_equity" then debt_to_equity yahooData
  else None.

Definition copiedColumns : list string :=
  [ "price"; "dividend_yield"; "nav_per_share"; "debt_to_equity" ].

(** The relation between a stored row and the same row after the entity
    step for [ticker]: nothing outside the refreshed columns changes, and a
    refreshed metric changes only to a non-null fresh value. *)
Definition refreshedFrom (quoteSummary : string -> string + QuoteSummary)
    (ticker : string) (row row' : Row) : Prop :=
  sameOutside refreshedColumns row row'
  /\ (forall column, In column copiedColumns ->
        row' !! column = row !! column
        \/ exists yahooData q,
             fetchBDCData quoteSummary ticker = inr yahooData
             /\ yahooField yahooData column = Some q
             /\ row' !! column = Some (VNum q))
  /\ (row' !! "price_to_nav" = row !! "price_to_nav"
      \/ exists yahooData p n,
           fetchBDCData quoteSummary ticker = inr yahooData
           /\ price yahooData = Some p
           /\ nav_per_share yahooData = Some n
           /\ (0 < n)%Q
           /\ row' !! "price_to_nav"
              = Some (VNum (inject_Z (jsRound (p / n * 100)) / 100)%Q)).

(** A stored entity with every metric populated, and a provider that knows
    only its price. *)
Definition storedEntity : Row :=
  {[ "cik" := VText "0001287750"; "name" := VText "Ares Capital Corporation";
     "ticker" := VText "ARCC";
     "price" := VNum 20; "dividend_yield" := VNum (46 # 5);
     "nav_per_share" := VNum (39 # 2); "price_to_nav" := VNum (103 # 100);
     "non_accrual_pct" := VNum (9 # 5); "dividend_growth_3yr" := VNum (21 # 5);
     "total_assets" := VNum 22000000000;
     "net_investment_income_yield" := VNum (51 # 5);
     "debt_to_equity" := VNum (21 # 20); "updated_at" := VTime 1000 ]}.

Definition priceOnlyProvider (ticker : string) : string + QuoteSummary :=
  inr (mkQuoteSummary (Some 21%Q) None None None None).

(* ===================================================================== *)
(** * Watchlist routes and dashboard
      (api/watchlist/route.ts, components/watchlist-dashboard.tsx) *)
(* ===================================================================== *)

(** What the handlers of [api/watchlist] answer. *)
Inductive WatchlistReply : Type :=
| ItemsReply (items : list WatchlistItem.t)
| SuccessReply
| TickerRequired.

Module WatchlistRoute.

(** [GET]: the stored items. *)
Definition GET (w : World) : WatchlistReply := ItemsReply (loadWatchlist w).

(** [DELETE]: [ticker] is the field of the request body, [None] when it is
    absent or null; the empty string is falsy. *)
Definition DELETE (ticker : option string) (w : World)
  : WatchlistReply * World :=
  match ticker with
  | Some t =>
      if JsString.truthy t then (SuccessReply, deleteItem t w)
      else (TickerRequired, w)
  | None => (TickerRequired, w)
  end.

End WatchlistRoute.

Module WatchlistDashboard.

(** The separators of [/[\s,;\n/]+/]. *)
Definition isSeparator (c : ascii) : bool :=
  JsString.isWhiteSpace c
  || Ascii.eqb c "," || Ascii.eqb c ";" || Ascii.eqb c "/".

Definition startsWithSeparator (s : string) : bool :=
  match s with
  | EmptyString => false
  | String c _ => isSeparator c
  end.

(** [text.split(/[\s,;\n/]+/)]: the pieces between maximal runs of
    separators; a leading or trailing run leaves an empty piece. *)
Fixpoint split (text : string) : list string :=
  match text with
  | EmptyString => [ EmptyString ]
  | String c r =>
      if isSeparator c then
        if startsWithSeparator r then split r else EmptyString :: split r
      else
        match split r with
        | piece :: pieces => String c piece :: pieces
        | [] => [ String c EmptyString ]
        end
  end.

(** The code units kept by [replace(/[^A-Z.]/g, '')]. *)
Definition isTickerChar (c : ascii) : bool :=
  let n := N_of_ascii c in
  ((65 <=? n) && (n <=? 90) || (n =? 46))%N.

Fixpoint keepChars (keep : ascii -> bool) (s : string) : string :=
  match s with
  | EmptyString => EmptyString
  | String c r => if keep c then String c (keepChars keep r) else keepChars keep r
  end.

(** [arr.indexOf(t)] *)
Fixpoint indexOf (arr : list string) (t : string) : option nat :=
  match arr with
  | [] => None
  | x :: rest =>
      if String.eqb x t then Some 0%nat
      else match indexOf rest t with
           | Some i => Some (S i)
           | None => None
           end
  end.

(** [filter((t, i, arr) => arr.indexOf(t) === i)], from index [i] on. *)
Fixpoint keepFirstFrom (arr : list string) (i : nat) (rest : list string)
  : list string :=
  match rest with
  | [] => []
  | t :: r =>
      if bool_decide (indexOf arr t = Some i)
      then t :: keepFirstFrom arr (S i) r
      else keepFirstFrom arr (S i) r
  end.

Definition deduplicate (arr : list string) : list string :=
  keepFirstFrom arr 0 arr.

Definition parseTickers (text : string) : list string :=
  deduplicate
    (List.filter
       (fun t => (0 <? String.length t)%nat && (String.length t <=? 10)%nat)
       (List.map
          (fun t => keepChars isTickerChar (JsString.toUpperCase (JsString.trim t)))
          (split text))).

End WatchlistDashboard.

(** ** Vocabulary for the watchlist's further properties *)

Definition isQuoteCall (c : Call) : bool :=
  match c with QuoteCall _ => true | _ => false end.

Definition isAICall (c : Call) : bool :=
  match c with AICall _ => true | _ => false end.

Definition isCacheWrite (c : Call) : bool :=
  match c with CacheWrite _ => true | _ => false end.

(** Number of calls of one kind in a trace. *)
Definition countCalls (kind : Call -> bool) (calls : list Call) : nat :=
  length (List.filter kind calls).

(** The tickers held by the cache, in file order. *)
Definition cachedTickers (w : World) : list string :=
  List.map WatchlistItem.ticker (file w).

(** A string all of whose code units are ticker characters. *)
Fixpoint allTickerChars (s : string) : bool :=
  match s with
  | EmptyString => true
  | String c r => WatchlistDashboard.isTickerChar c && allTickerChars r
  end.

(** The calls one ticker can add to the trace. *)
Definition tickerCalls (new : list Call) : Prop :=
  new = []
  \/ (exists t, new = [ QuoteCall t ])
  \/ (exists t items, new = [ QuoteCall t; AICall t; CacheWrite items ]).

(** A string that is empty or starts with a code unit [trim] keeps. *)
Definition noLeadingWhite (s : string) : Prop :=
  match s with
  | EmptyString => True
  | String c _ => JsString.isWhiteSpace c = false
  end.

(** A text whose code units all lie in the ASCII range, where the case
    tables of the embedding are those of JavaScript. *)
Fixpoint asciiOnly (s : string) : bool :=
  match s with
  | EmptyString => true
  | String c r => (N_of_ascii c <? 128)%N && asciiOnly r
  end.

(* ===================================================================== *)
(** * Sorting *)
(* ===================================================================== *)

(** [Array.prototype.sort(compare)] for a comparator that orders
    consistently: the stable sort.  An element is placed before the first
    element it does not come after. *)
Fixpoint sortInsert {A : Type} (compare : A -> A -> Q) (x : A)
    (sorted : list A) : list A :=
  match sorted with
  | [] => [ x ]
  | y :: rest =>
      if Qle_bool (compare x y) 0 then x :: sorted
      else y :: sortInsert compare x rest
  end.

Definition jsSort {A : Type} (compare : A -> A -> Q) (l : list A) : list A :=
  fold_right (sortInsert compare) [] l.

(* ===================================================================== *)
(** * The refresh job's summary  (api/cron/refresh-prices) *)
(* ===================================================================== *)

Definition hasStatus (st : RefreshStatus) (r : RefreshResult) : bool :=
  match st, r_status r with
  | updated, updated => true
  | skippedNoData, skippedNoData => true
  | error, error => true
  | _, _ => false
  end.

(** [results.filter(r => r.status === st).length] *)
Definition countStatus (st : RefreshStatus) (results : list RefreshResult)
  : nat :=
  length (List.filter (hasStatus st) results).

(** The [summary] object of the response. *)
Record RefreshSummary : Type := mkRefreshSummary {
  s_total : nat;
  s_updated : nat;
  s_errors : nat;
  s_skipped : Z
}.

Definition summaryOf (bdcs : list (string * string))
    (results : list RefreshResult) : RefreshSummary :=
  let n_updated := countStatus updated results in
  let n_errors := countStatus error results in
  mkRefreshSummary (length bdcs) n_updated n_errors
    (Z.of_nat (length results) - Z.of_nat n_updated - Z.of_nat n_errors).

(** The snapshot entries the loop does not pass over. *)
Definition withTicker (bdcs : list (string * string)) : list (string * string) :=
  List.filter (fun b => JsString.truthy (snd b)) bdcs.

(* ===================================================================== *)
(** * Entity detail page  (app/bdc/[cik]/page.tsx, getBDCDetails) *)
(* ===================================================================== *)

(** One entry of [sectorSummary]. *)
Record SectorSummary : Type := mkSectorSummary {
  ss_sector : Sector;
  ss_value : Q;
  ss_percentage : Q;
  ss_count : nat
}.

(** One turn of the loop filling [sectorTotals] with value and count. *)
Definition addToSummary (sectorTotals : gmap string (Q * nat)) (h : Holding)
  : gmap string (Q * nat) :=
  let sector := sectorName (resolveSector h) in
  let current :=
    match sectorTotals !! sector with
    | Some entry => entry
    | None => (0%Q, 0%nat)
    end in
  <[ sector := ((fst current + fairValueOrZero h)%Q, S (snd current)) ]>
    sectorTotals.

(** The object built for one sector by [SECTORS.map]. *)
Definition summaryEntry (sectorTotals : gmap string (Q * nat))
    (totalValue : Q) (sector : Sector) : SectorSummary :=
  let value := orZero (fst <$> sectorTotals !! sectorName sector) in
  mkSectorSummary sector value
    (if Qgtb totalValue 0 then (value / totalValue * 100)%Q else 0%Q)
    (match sectorTotals !! sectorName sector with
     | Some entry => snd entry
     | None => 0%nat
     end).

(** [(a, b) => b.value - a.value] *)
Definition byValueDesc (a b : SectorSummary) : Q := (ss_value b - ss_value a)%Q.

Definition sectorSummaryOf (latestHoldings : list Holding) : list SectorSummary :=
  let sectorTotals := fold_left addToSummary latestHoldings ∅ in
  let totalValue := sumFairValue latestHoldings in
  jsSort byValueDesc
    (List.filter (fun s => Qgtb (ss_value s) 0)
       (List.map (summaryEntry sectorTotals totalValue) SECTORS)).

Record BDCDetails : Type := mkBDCDetails {
  d_bdc : Row;
  d_holdings : list Holding;
  d_sectorSummary : list SectorSummary;
  d_totalValue : option Q;
  d_periodDate : option string
}.

(** [holdings.filter((h) => h.period_date === latestPeriod)], where
    [latestPeriod] is [holdings[0]?.period_date]. *)
Definition latestHoldingsOf (holdings : list Holding) : list Holding :=
  match holdings with
  | [] => []
  | first :: _ =>
      List.filter (fun h => String.eqb (period_date h) (period_date first))
        holdings
  end.

(** [getBDCDetails]: [bdc] is [None] when the entity query fails or finds
    no row, [holdings] is [None] when the holdings query fails. *)
Definition getBDCDetails (bdc : option Row) (holdings : option (list Holding))
  : option BDCDetails :=
  match bdc with
  | None => None
  | Some b =>
      match holdings with
      | None => Some (mkBDCDetails b [] [] None None)
      | Some rows =>
          let latestHoldings := latestHoldingsOf rows in
          Some (mkBDCDetails b latestHoldings (sectorSummaryOf latestHoldings)
                  (Some (sumFairValue latestHoldings))
                  (period_date <$> head rows))
      end
  end.

(** [(a, b) => (b.fair_value || 0) - (a.fair_value || 0)] *)
Definition byFairValueDesc (a b : Holding) : Q :=
  (fairValueOrZero b - fairValueOrZero a)%Q.

(** The rows of the "Top Holdings" table: [holdings.sort(...).slice(0, 50)]
    with the share of each in the total. *)
Definition topHoldings (d : BDCDetails) : list (Holding * Q) :=
  List.map
    (fun h =>
       (h,
        match d_totalValue d with
        | Some total =>
            if Qgtb total 0 then (fairValueOrZero h / total * 100)%Q else 0%Q
        | None => 0%Q
        end))
    (take 50 (jsSort byFairValueDesc (d_holdings d))).

(** Number of holdings behind a sector summary. *)
Definition listedCount (summary : list SectorSummary) : nat :=
  list_sum (List.map ss_count summary).

(** Number of holdings of sector [s] among [hs]. *)
Definition sectorCount (hs : list Holding) (s : Sector) : nat :=
  length (List.filter (fun h => bool_decide (resolveSector h = s)) hs).

(** The order of the sector summary: larger values first. *)
Definition valueDesc (a b : SectorSummary) : Prop :=
  (ss_value b <= ss_value a)%Q.

(** The order of the "Top Holdings" table: larger fair values first. *)
Definition fairValueDesc (a b : Holding) : Prop :=
  (fairValueOrZero b <= fairValueOrZero a)%Q.

(* ===================================================================== *)
(** * The screener table  (components/bdc-table.tsx) *)
(* ===================================================================== *)

Inductive SortKey : Type :=
| ByName
| ByTotalFairValue
| ByDividendYield
| ByDividendGrowth3yr
| ByPriceToNav
| ByNonAccrualPct
| ByDebtToEquity
| BySector (s : Sector).

Inductive SortDirection : Type := asc | desc.

(** [aVal] and [bVal]: [number | string]. *)
Inductive SortValue : Type :=
| TextValue (s : string)
| NumberValue (q : Q).

(** The value a row is compared by.  A row of the store always has a name
    (the column is NOT NULL); without one the source raises, the model
    orders the row as the empty name. *)
Definition sortValue (sortKey : SortKey) (bdc : BDCSectorExposure)
  : SortValue :=
  match sortKey with
  | ByName =>
      TextValue (JsString.toLowerCase
                   (match x_name bdc with Some n => n | None => EmptyString end))
  | ByTotalFairValue => NumberValue (x_total_fair_value bdc)
  | ByDividendYield => NumberValue (orZero (x_dividend_yield bdc))
  | ByDividendGrowth3yr => NumberValue (orZero (x_dividend_growth_3yr bdc))
  | ByPriceToNav => NumberValue (orZero (x_price_to_nav bdc))
  | ByNonAccrualPct => NumberValue (orZero (x_non_accrual_pct bdc))
  | ByDebtToEquity => NumberValue (orZero (x_debt_to_equity bdc))
  | BySector s => NumberValue (orZero (x_sector_exposures bdc !! sectorName s))
  end.

(** [aVal < bVal] *)
Definition lessThan (a b : SortValue) : bool :=
  match a, b with
  | TextValue x, TextValue y => String.ltb x y
  | NumberValue x, NumberValue y => Qgtb y x
  | _, _ => false
  end.

(** The comparator handed to [sort]. *)
Definition compareRows (sortKey : SortKey) (sortDirection : SortDirection)
    (a b : BDCSectorExposure) : Q :=
  let aVal := sortValue sortKey a in
  let bVal := sortValue sortKey b in
  if lessThan aVal bVal then
    match sortDirection with asc => (-1)%Q | desc => 1%Q end
  else if lessThan bVal aVal then
    match sortDirection with asc => 1%Q | desc => (-1)%Q end
  else 0%Q.

(** The sector filter; [None] is ['all']. *)
Definition filterBySector (filterSector : option Sector)
    (data : list BDCSectorExposure) : list BDCSectorExposure :=
  match filterSector with
  | None => data
  | Some s =>
      List.filter
        (fun bdc => Qgtb (orZero (x_sector_exposures bdc !! sectorName s)) 0)
        data
  end.

Definition sortedData (data : list BDCSectorExposure) (sortKey : SortKey)
    (sortDirection : SortDirection) (filterSector : option Sector)
  : list BDCSectorExposure :=
  jsSort (compareRows sortKey sortDirection) (filterBySector filterSector data).

(** The order the table shows: a row never comes before a row that beats it
    in the chosen direction. *)
Definition inOrder (sortKey : SortKey) (sortDirection : SortDirection)
    (a b : BDCSectorExposure) : Prop :=
  match sortDirection with
  | asc => lessThan (sortValue sortKey b) (sortValue sortKey a) = false
  | desc => lessThan (sortValue sortKey a) (sortValue sortKey b) = false
  end.

(* ===================================================================== *)
(** * More of the screener page  (app/page.tsx) *)
(* ===================================================================== *)

(** [bdc.updated_at], a time stamp or null. *)
Definition timeField (row : Row) (column : string) : option Z :=
  match row !! column with
  | Some (VTime t) => Some t
  | _ => None
  end.

(** The reducer of [lastUpdated]: time stamps of one format compare as the
    instants they denote. *)
Definition laterStamp (latest : option Z) (bdc : Row) : option Z :=
  match timeField bdc "updated_at" with
  | None => latest
  | Some updatedAt =>
      match latest with
      | None => Some updatedAt
      | Some l => Some (if updatedAt >? l then updatedAt else l)
      end
  end.

(** The [lastUpdated] component of [getBDCData]. *)
Definition lastUpdated (bdcs : option (list Row)) : option Z :=
  match bdcs with
  | None => None
  | Some rows => fold_left laterStamp rows None
  end.

(** The variant of the page in [src/app/page.tsx]: entities without
    holdings or with a zero total are passed over, and the percentages are
    computed for every other total. *)
Module AppPage.

Definition exposureOf (holdings : option (list Holding)) : option Exposure :=
  match holdings with
  | Some ((first :: _) as rows) =>
      let latest := period_date first in
      let latestHoldings :=
        List.filter (fun h => String.eqb (period_date h) latest) rows in
      let total := sumFairValue latestHoldings in
      if Qeq_bool total 0 then None
      else Some (mkExposure total latest
                   (percentagesOf (sectorTotalsOf latestHoldings) total))
  | _ => None
  end.

(** The record pushed to [results]; the fields this variant does not set are
    absent. *)
Definition mergeView (bdc : Row) (e : Exposure) : BDCSectorExposure :=
  {| x_cik := textField bdc "cik";
     x_name := textField bdc "name";
     x_ticker := textField bdc "ticker";
     x_total_fair_value := totalFairValue e;
     x_period_date := latestPeriod e;
     x_sector_exposures := sectorExposures e;
     x_dividend_yield := numField bdc "dividend_yield";
     x_dividend_growth_3yr := numField bdc "dividend_growth_3yr";
     x_nav_per_share := numField bdc "nav_per_share";
     x_price := numField bdc "price";
     x_price_to_nav := numField bdc "price_to_nav";
     x_non_accrual_pct := numField bdc "non_accrual_pct";
     x_debt_to_equity := numField bdc "debt_to_equity";
     x_net_investment_income_yield := numField bdc "net_investment_income_yield";
     x_market_cap := None;
     x_payout_ratio := None;
     x_beta := None;
     x_fifty_two_week_high := None;
     x_fifty_two_week_low := None;
     x_analyst_target_price := None;
     x_analyst_rating := None;
     x_institutional_ownership := None;
     x_five_yr_avg_dividend_yield := None;
     x_ex_dividend_date := None |}.

Definition getBDCData (bdcs : option (list Row)) (table : list Holding)
  : list BDCSectorExposure :=
  match bdcs with
  | None => []
  | Some rows =>
      fold_left
        (fun results bdc =>
           match exposureOf (holdingsOf table bdc) with
           | Some e => results ++ [ mergeView bdc e ]
           | None => results
           end)
        rows []
  end.

End AppPage.

(* ===================================================================== *)
(** * The import script  (scripts/import-sec-data.ts) *)
(* ===================================================================== *)

Module ImportScript.

(** The script's own keyword table: the library's, with more keywords and
    without the entry for 'Other'. *)
Definition SECTOR_KEYWORDS : list (Sector * list string) :=
  [ (SoftwareTechnology,
      [ "software"; "saas"; "technology"; "tech"; "it services"; "data";
        "cloud"; "cyber"; "digital"; "internet"; "computer"; "electronics";
        "semiconductor"; "application"; "platform"; "analytics";
        "information technology" ]);
    (Healthcare,
      [ "health"; "medical"; "pharma"; "biotech"; "hospital"; "clinical";
        "dental"; "physician"; "drug"; "therapeutic"; "diagnostic";
        "life science"; "veterinary"; "healthcare"; "life sciences" ]);
    (BusinessServices,
      [ "business services"; "professional services"; "staffing";
        "consulting"; "outsourcing"; "human resources"; "hr services";
        "marketing services"; "advertising"; "commercial services";
        "diversified services" ]);
    (Industrials,
      [ "industrial"; "manufacturing"; "aerospace"; "defense"; "machinery";
        "construction"; "engineering"; "transportation"; "logistics";
        "distribution"; "building products"; "equipment"; "capital goods" ]);
    (Consumer,
      [ "consumer"; "retail"; "restaurant"; "food"; "beverage"; "apparel";
        "leisure"; "entertainment"; "gaming"; "hotel"; "hospitality";
        "e-commerce"; "education"; "personal services"; "consumer products" ]);
    (FinancialServices,
      [ "financial"; "insurance"; "banking"; "asset management"; "lending";
        "capital markets"; "investment"; "fintech"; "specialty finance" ]);
    (MediaTelecom,
      [ "media"; "telecom"; "telecommunications"; "broadcasting";
        "publishing"; "communications"; "wireless"; "cable" ]);
    (Energy,
      [ "energy"; "oil"; "gas"; "petroleum"; "pipeline"; "power";
        "utilities"; "renewable"; "solar"; "wind"; "midstream" ]);
    (RealEstate, [ "real estate"; "property"; "reit"; "housing" ]) ].

Fixpoint scanSectors (industry : string)
    (entries : list (Sector * list string)) : Sector :=
  match entries with
  | [] => Other
  | (sector, keywords) :: rest =>
      if scanKeywords industry keywords then sector
      else scanSectors industry rest
  end.

Definition classifySector (rawIndustry : option string) : Sector :=
  match rawIndustry with
  | None => Other
  | Some raw =>
      if negb (JsString.truthy raw) then Other
      else scanSectors (normalize raw) SECTOR_KEYWORDS
  end.

(** The keywords of the script that open matches the library does not have;
    the script's other additions contain a keyword the library already has
    for the same sector. *)
Definition newKeywords : list string :=
  [ "diversified services"; "capital goods"; "specialty finance"; "midstream" ].

(** [cik.replace(/^0+/, '')] *)
Fixpoint stripLeadingZeros (cik : string) : string :=
  match cik with
  | String c r => if Ascii.eqb c "0" then stripLeadingZeros r else cik
  | EmptyString => EmptyString
  end.

Fixpoint zeros (n : nat) : string :=
  match n with
  | O => EmptyString
  | S m => String "0" (zeros m)
  end.

(** [s.padStart(10, '0')] *)
Definition padStart10 (s : string) : string :=
  String.append (zeros (10 - String.length s)) s.

(** [paddedCik] of [getLatestFiling]. *)
Definition paddedCik (cik : string) : string :=
  padStart10 (stripLeadingZeros cik).

(** Interface [PortfolioHolding]. *)
Record PortfolioHolding : Type := mkPortfolioHolding {
  p_company_name : string;
  p_industry_raw : option string;
  p_fair_value : Q
}.

(** One element of [holdingsToInsert]. *)
Definition holdingToInsert (cik filingDate : string) (h : PortfolioHolding)
  : Holding :=
  mkHolding cik filingDate (p_company_name h) (p_industry_raw h)
    (Some (classifySector (p_industry_raw h))) (Some (p_fair_value h)).

(** [from('holdings').delete().eq('bdc_cik', cik)] *)
Definition deleteHoldings (cik : string) (table : list Holding) : list Holding :=
  List.filter (fun h => negb (String.eqb (bdc_cik h) cik)) table.

(** The replacement of one entity's holdings in [importHoldingsFromSEC]:
    nothing happens when the filing gave no holdings; otherwise the old
    holdings are deleted and the new ones inserted.  The outcome of the
    delete is not looked at ([deleteError]: it was refused and the old
    holdings stay); a refused insert ([insertError]) is only logged. *)
Definition replaceHoldings (deleteError insertError : bool)
    (cik filingDate : string) (holdings : list PortfolioHolding)
    (table : list Holding) : list Holding :=
  match holdings with
  | [] => table
  | _ =>
      let cleared := if deleteError then table else deleteHoldings cik table in
      if insertError then cleared
      else cleared ++ List.map (holdingToInsert cik filingDate) holdings
  end.

(** Sum of the fair values read from a filing. *)
Definition filedValue (holdings : list PortfolioHolding) : Q :=
  sumQ (List.map p_fair_value holdings).

End ImportScript.

(* ===================================================================== *)
(** * The aggregator on doubles  (app/page.tsx, getBDCData) *)
(* ===================================================================== *)

(** The arithmetic of the aggregator once more, on the IEEE 754 binary64
    numbers JavaScript computes with: the same statements in the same order,
    with [float] for [Q]. *)
Module Double.
Import PrimFloat.

(** Truthiness of a number: [0], [-0] and [NaN] are falsy. *)
Definition truthy (x : float) : bool :=
  negb (is_zero x || is_nan x).

(** [x || 0] on a nullable number. *)
Definition orZero (x : option float) : float :=
  match x with
  | Some v => if truthy v then v else 0%float
  | None => 0%float
  end.

(** A row of [holdings] as the client returns it: [fair_value] is a
    double. *)
Record Holding : Type := mkHolding {
  bdc_cik : string;
  period_date : string;
  company_name : string;
  industry_raw : option string;
  industry_sector : option Sector;
  fair_value : option float
}.

Definition fairValueOrZero (h : Holding) : float :=
  orZero (fair_value h).

(** [holding.industry_sector || classifySector(holding.industry_raw)] *)
Definition resolveSector (h : Holding) : Sector :=
  match industry_sector h with
  | Some s => s
  | None => classifySector (industry_raw h)
  end.

(** [latestHoldings.reduce((sum, h) => sum + (h.fair_value || 0), 0)] *)
Definition sumFairValue (hs : list Holding) : float :=
  fold_left (fun sum h => (sum + fairValueOrZero h)%float) hs 0%float.

(** [sectorTotals[sector] = (sectorTotals[sector] || 0) + (holding.fair_value || 0)] *)
Definition addToSector (sectorTotals : gmap string float)
    (h : Holding) : gmap string float :=
  let sector := sectorName (resolveSector h) in
  <[ sector := (orZero (sectorTotals !! sector) + fairValueOrZero h)%float ]>
    sectorTotals.

Definition sectorTotalsOf (latestHoldings : list Holding)
  : gmap string float :=
  fold_left addToSector latestHoldings ∅.

(** [sectorExposures[sector] = ((sectorTotals[sector] || 0) / totalFairValue) * 100] *)
Definition percentagesOf (sectorTotals : gmap string float)
    (totalFairValue : float) : gmap string float :=
  fold_left
    (fun exposures sector =>
       <[ sectorName sector :=
            (orZero (sectorTotals !! sectorName sector) / totalFairValue
             * 100)%float ]>
         exposures)
    SECTORS ∅.

(** [if (sectorExposures[sector] == null) sectorExposures[sector] = 0] *)
Definition fillMissing (sectorExposures : gmap string float)
  : gmap string float :=
  fold_left
    (fun exposures sector =>
       match exposures !! sectorName sector with
       | None => <[ sectorName sector := 0%float ]> exposures
       | Some _ => exposures
       end)
    SECTORS sectorExposures.

Record Exposure : Type := mkExposure {
  totalFairValue : float;
  latestPeriod : string;
  sectorExposures : gmap string float
}.

(** The holdings of the period of the first row. *)
Definition latestHoldingsOf (holdings : list Holding) : list Holding :=
  match holdings with
  | [] => []
  | first :: _ =>
      List.filter (fun h => String.eqb (period_date h) (period_date first))
        holdings
  end.

(** The aggregation of one entity's query result; the percentages are
    computed only when [totalFairValue > 0]. *)
Definition aggregate (holdings : option (list Holding)) : Exposure :=
  match holdings with
  | Some ((first :: _) as rows) =>
      let latest := period_date first in
      let latestHoldings :=
        List.filter (fun h => String.eqb (period_date h) latest) rows in
      let total := sumFairValue latestHoldings in
      let exposures :=
        if (0 <? total)%float
        then percentagesOf (sectorTotalsOf latestHoldings) total
        else ∅ in
      mkExposure total latest (fillMissing exposures)
  | _ => mkExposure 0%float "" (fillMissing ∅)
  end.

(** The percentage reported for a sector. *)
Definition percentage (e : Exposure) (s : Sector) : option float :=
  sectorExposures e !! sectorName s.

(** The reported percentages added up in the order of the taxonomy. *)
Definition percentageSum (e : Exposure) : float :=
  fold_left (fun sum s => (sum + orZero (percentage e s))%float) SECTORS 0%float.





(** Two holdings whose fair values cancel out exactly. *)
Definition zeroHoldings : list Holding :=
  [ mkHolding "0001" "2024-09-30" "Alpha Clinic" None (Some Healthcare)
      (Some (1 / 2)%float);
    mkHolding "0001" "2024-09-30" "Gamma Swap" None (Some Energy)
      (Some (- (1 / 2))%float) ].

End Double.

(* ===================================================================== *)
(** * Proofs *)
(* ===================================================================== *)

Example classify_examples :
  classifySector (Some "  Health Care Software ") = SoftwareTechnology
  /\ classifySector (Some "Hospital Staffing") = Healthcare
  /\ classifySector (Some "Oil & Gas") = Energy
  /\ classifySector (Some "Widgets") = Other
  /\ classifySector (Some "   ") = Other
  /\ classifySector None = Other.
Proof. repeat split; vm_compute; reflexivity. Qed.

(** ** Facts about the string primitives *)

Module JsStringFacts.
Import JsString.

Lemma lowerChar_whiteSpace c : isWhiteSpace c = true -> lowerChar c = c.
Proof.
  destruct c as [[] [] [] [] [] [] [] []]; vm_compute; intros H;
    first [ reflexivity | discriminate H ].
Qed.

Lemma toLowerCase_allWhiteSpace s :
  allWhiteSpace s = true -> toLowerCase s = s.
Proof.
  induction s as [|c r IH]; simpl; [ reflexivity | ].
  intros [Hc Hr]%andb_prop.
  unfold toLowerCase in *. simpl.
  rewrite (lowerChar_whiteSpace c Hc), (IH Hr). reflexivity.
Qed.

Lemma trimStart_allWhiteSpace s :
  allWhiteSpace s = true -> trimStart s = EmptyString.
Proof.
  induction s as [|c r IH]; simpl; [ reflexivity | ].
  intros [Hc Hr]%andb_prop. rewrite Hc. exact (IH Hr).
Qed.

Lemma trim_allWhiteSpace s : allWhiteSpace s = true -> trim s = EmptyString.
Proof.
  intros H. unfold trim. rewrite (trimStart_allWhiteSpace s H). reflexivity.
Qed.

Lemma includes_cons c r k :
  includes (String c r) k = String.prefix k (String c r) || includes r k.
Proof.
  simpl. destruct k as [|a k]; [ reflexivity | ].
  destruct (ascii_dec a c); [ | reflexivity ].
  destruct (String.prefix k r); reflexivity.
Qed.

Lemma includes_nil k : includes EmptyString k = String.prefix k EmptyString.
Proof. simpl. destruct k; reflexivity. Qed.

Lemma prefix_includes k s : String.prefix k s = true -> includes s k = true.
Proof.
  destruct s; [ rewrite includes_nil; auto | ].
  rewrite includes_cons. intros ->. reflexivity.
Qed.

Lemma includes_trimStart_intro s k :
  startsNonWhite k = true -> includes s k = true ->
  includes (trimStart s) k = true.
Proof.
  destruct k as [|a k]; [ discriminate | ]. simpl startsNonWhite. intros Ha.
  induction s as [|c r IH]; [ auto | ].
  rewrite includes_cons. intros [Hp|Hi]%orb_prop.
  - assert (a = c) as <-.
    { simpl in Hp. destruct (ascii_dec a c); [ assumption | discriminate ]. }
    simpl trimStart. apply negb_true_iff in Ha. rewrite Ha.
    apply prefix_includes. exact Hp.
  - simpl trimStart. destruct (isWhiteSpace c).
    + apply IH. exact Hi.
    + rewrite includes_cons, Hi. apply orb_true_r.
Qed.

Lemma includes_trimStart_elim s k :
  includes (trimStart s) k = true -> includes s k = true.
Proof.
  induction s as [|c r IH]; [ auto | ].
  simpl trimStart. destruct (isWhiteSpace c); [ | auto ].
  intros H. rewrite includes_cons, (IH H). apply orb_true_r.
Qed.

Lemma prefix_trimEnd_intro s : forall k,
  endsNonWhite k = true -> String.prefix k s = true ->
  String.prefix k (trimEnd s) = true.
Proof.
  induction s as [|c r IH]; intros k Hk Hp; [ exact Hp | ].
  destruct k as [|a k]; [ discriminate | ].
  simpl in Hp. destruct (ascii_dec a c) as [->|]; [ | discriminate ].
  destruct k as [|b k].
  - simpl in Hk. apply negb_true_iff in Hk.
    simpl trimEnd. destruct (trimEnd r); [ rewrite Hk | ];
      simpl; destruct (ascii_dec c c); congruence.
  - assert (Hk' : endsNonWhite (String b k) = true) by exact Hk.
    specialize (IH _ Hk' Hp).
    simpl trimEnd. destruct (trimEnd r) as [|d r'] eqn:Hr; [ discriminate | ].
    simpl. destruct (ascii_dec c c); [ | congruence ].
    simpl in IH. exact IH.
Qed.

Lemma includes_trimEnd_intro s k :
  endsNonWhite k = true -> includes s k = true ->
  includes (trimEnd s) k = true.
Proof.
  intros Hk. induction s as [|c r IH]; [ auto | ].
  rewrite includes_cons. intros [Hp|Hi]%orb_prop.
  - apply prefix_includes, prefix_trimEnd_intro; assumption.
  - specialize (IH Hi). simpl trimEnd.
    destruct (trimEnd r) as [|d r'] eqn:Hr.
    + destruct k; [ discriminate Hk | discriminate IH ].
    + rewrite includes_cons, IH. apply orb_true_r.
Qed.

Lemma prefix_trimEnd_elim s : forall k,
  String.prefix k (trimEnd s) = true -> String.prefix k s = true.
Proof.
  induction s as [|c r IH]; intros k Hp; [ exact Hp | ].
  destruct k as [|a k]; [ reflexivity | ].
  simpl trimEnd in Hp. simpl.
  destruct (trimEnd r) as [|d r'] eqn:Hr.
  - destruct (isWhiteSpace c); [ discriminate Hp | ].
    simpl in Hp. destruct (ascii_dec a c); [ | discriminate ].
    destruct k; [ destruct r; reflexivity | discriminate ].
  - simpl in Hp. destruct (ascii_dec a c); [ | discriminate ].
    apply IH. exact Hp.
Qed.

Lemma includes_trimEnd_elim s k :
  includes (trimEnd s) k = true -> includes s k = true.
Proof.
  induction s as [|c r IH]; [ auto | ].
  intros H. rewrite includes_cons.
  destruct (trimEnd (String c r)) as [|e t] eqn:Ht.
  - rewrite includes_nil in H. destruct k; [ reflexivity | discriminate ].
  - rewrite includes_cons in H. apply orb_prop in H as [Hp|Hi].
    + rewrite <- Ht in Hp. apply prefix_trimEnd_elim in Hp.
      rewrite Hp. reflexivity.
    + simpl trimEnd in Ht.
      destruct (trimEnd r) as [|d r'] eqn:Hr.
      * destruct (isWhiteSpace c); [ discriminate | ].
        injection Ht as _ <-. rewrite includes_nil in Hi.
        destruct k; [ reflexivity | discriminate ].
      * injection Ht as _ <-. rewrite (IH Hi). apply orb_true_r.
Qed.

(** [trim] neither hides nor creates an occurrence of a key that starts
    and ends with a kept code unit. *)
Lemma includes_trim s k :
  startsNonWhite k = true -> endsNonWhite k = true ->
  includes (trim s) k = includes s k.
Proof.
  intros Hs He. unfold trim.
  destruct (includes s k) eqn:H.
  - apply includes_trimEnd_intro, includes_trimStart_intro; assumption.
  - destruct (includes (trimEnd (trimStart s)) k) eqn:H'; [ | reflexivity ].
    apply includes_trimEnd_elim, includes_trimStart_elim in H'. congruence.
Qed.

End JsStringFacts.

(** ** The classifier *)

Lemma scanKeywords_existsb industry keywords :
  scanKeywords industry keywords
  = existsb (JsString.includes industry) keywords.
Proof.
  induction keywords as [|k rest IH]; simpl; [ reflexivity | ].
  rewrite IH. destruct (JsString.includes industry k); reflexivity.
Qed.

(** The two nested loops over the table, spelled out as a cascade of tests
    in declaration order. *)
Lemma scanSectors_cascade industry :
  scanSectors industry SECTOR_KEYWORDS =
    if matchesSector industry SoftwareTechnology then SoftwareTechnology
    else if matchesSector industry Healthcare then Healthcare
    else if matchesSector industry BusinessServices then BusinessServices
    else if matchesSector industry Industrials then Industrials
    else if matchesSector industry Consumer then Consumer
    else if matchesSector industry FinancialServices then FinancialServices
    else if matchesSector industry MediaTelecom then MediaTelecom
    else if matchesSector industry Energy then Energy
    else if matchesSector industry RealEstate then RealEstate
    else Other.
Proof.
  unfold matchesSector, SECTOR_KEYWORDS.
  cbn [scanSectors sectorName].
  rewrite !scanKeywords_existsb.
  reflexivity.
Qed.

(** The keyword table is declared in the order of the taxonomy. *)
Lemma SECTOR_KEYWORDS_order : List.map fst SECTOR_KEYWORDS = SECTORS.
Proof. reflexivity. Qed.

Lemma sectorIndex_lookup s : SECTORS !! sectorIndex s = Some s.
Proof. destruct s; reflexivity. Qed.

Lemma sectorIndex_inj a b : sectorIndex a = sectorIndex b -> a = b.
Proof.
  intros H. pose proof (sectorIndex_lookup a) as Ha.
  rewrite H, sectorIndex_lookup in Ha. congruence.
Qed.

Lemma matchesSector_Other industry : matchesSector industry Other = false.
Proof. reflexivity. Qed.

(** Closes the branch of the cascade in which the sector of hypothesis [H]
    is the first to match. *)
Ltac first_match_here H :=
  right; split;
  [ exact H
  | intros [] Hlt;
    first [ assumption
          | exfalso; unfold declaredBefore in Hlt; simpl in Hlt; lia ] ].

(** What the scan returns: the fallback when nothing matches, otherwise a
    matching sector before which no declared sector matches. *)
Lemma scanSectors_first_match industry :
  let r := scanSectors industry SECTOR_KEYWORDS in
  (r = Other /\ forall s, matchesSector industry s = false)
  \/ (matchesSector industry r = true
      /\ forall s, declaredBefore s r -> matchesSector industry s = false).
Proof.
  cbv zeta. rewrite scanSectors_cascade.
  destruct (matchesSector industry SoftwareTechnology) eqn:H0; [ first_match_here H0 | ].
  destruct (matchesSector industry Healthcare) eqn:H1; [ first_match_here H1 | ].
  destruct (matchesSector industry BusinessServices) eqn:H2; [ first_match_here H2 | ].
  destruct (matchesSector industry Industrials) eqn:H3; [ first_match_here H3 | ].
  destruct (matchesSector industry Consumer) eqn:H4; [ first_match_here H4 | ].
  destruct (matchesSector industry FinancialServices) eqn:H5; [ first_match_here H5 | ].
  destruct (matchesSector industry MediaTelecom) eqn:H6; [ first_match_here H6 | ].
  destruct (matchesSector industry Energy) eqn:H7; [ first_match_here H7 | ].
  destruct (matchesSector industry RealEstate) eqn:H8; [ first_match_here H8 | ].
  left. split; [ reflexivity | intros []; first [ assumption | reflexivity ] ].
Qed.

Lemma classifySector_scan raw :
  classifySector (Some raw) = scanSectors (normalize raw) SECTOR_KEYWORDS.
Proof. destruct raw; reflexivity. Qed.

Lemma keywords_survive_trim s :
  forallb (fun k => JsString.startsNonWhite k && JsString.endsNonWhite k)
          (keywordsOf s) = true.
Proof. destruct s; vm_compute; reflexivity. Qed.

Lemma existsb_includes_trim text keywords :
  forallb (fun k => JsString.startsNonWhite k && JsString.endsNonWhite k)
          keywords = true ->
  existsb (JsString.includes (JsString.trim text)) keywords
  = existsb (JsString.includes text) keywords.
Proof.
  induction keywords as [|k rest IH]; simpl; [ reflexivity | ].
  intros [[Hs He]%andb_prop Hrest]%andb_prop.
  rewrite (JsStringFacts.includes_trim text k Hs He), (IH Hrest). reflexivity.
Qed.

(** Matching on the normalised text is case-insensitive containment in the
    raw text. *)
Lemma matchesSector_normalize raw s :
  matchesSector (normalize raw) s = containsKeywordOf raw s.
Proof.
  unfold containsKeywordOf, matchesSector, normalize.
  apply existsb_includes_trim, keywords_survive_trim.
Qed.

(** C1.  First match wins: when the text contains keywords of a sector [A]
    and of a sector [B] declared after [A], the classifier never answers
    [B]; its answer is a sector the text matches, declared no later than
    [A]; and it is [A] itself as soon as no sector declared before [A]
    matches (in particular when [A] and [B] are the only sectors
    matched). *)
Theorem classifySector_first_match_wins (raw : string) (A B : Sector) :
  containsKeywordOf raw A = true ->
  containsKeywordOf raw B = true ->
  declaredBefore A B ->
  classifySector (Some raw) <> B
  /\ (sectorIndex (classifySector (Some raw)) <= sectorIndex A)%nat
  /\ containsKeywordOf raw (classifySector (Some raw)) = true
  /\ ((forall S, declaredBefore S A -> containsKeywordOf raw S = false) ->
      classifySector (Some raw) = A).
Proof.
  intros HA HB HAB. rewrite classifySector_scan.
  destruct (scanSectors_first_match (normalize raw)) as [[_ Hnone]|[Hr Hfirst]].
  { specialize (Hnone A). rewrite matchesSector_normalize in Hnone. congruence. }
  set (r := scanSectors (normalize raw) SECTOR_KEYWORDS) in *.
  assert (Hle : (sectorIndex r <= sectorIndex A)%nat).
  { destruct (le_lt_dec (sectorIndex r) (sectorIndex A)) as [|Hlt]; [ assumption | ].
    specialize (Hfirst A Hlt). rewrite matchesSector_normalize in Hfirst.
    congruence. }
  rewrite matchesSector_normalize in Hr.
  repeat split.
  - intros ->. unfold declaredBefore in HAB. lia.
  - exact Hle.
  - exact Hr.
  - intros Hearliest. apply sectorIndex_inj.
    destruct (le_lt_eq_dec _ _ Hle) as [Hlt|Heq]; [ | exact Heq ].
    specialize (Hearliest r Hlt). congruence.
Qed.

Lemma classifySector_first_match_wins_witness :
  classifySector (Some "Hospital Staffing") = Healthcare.
Proof.
  assert (HA : containsKeywordOf "Hospital Staffing" Healthcare = true)
    by reflexivity.
  assert (HB : containsKeywordOf "Hospital Staffing" BusinessServices = true)
    by reflexivity.
  assert (HAB : declaredBefore Healthcare BusinessServices)
    by (unfold declaredBefore; simpl; lia).
  destruct (classifySector_first_match_wins
              "Hospital Staffing" Healthcare BusinessServices HA HB HAB)
    as (_ & _ & _ & H).
  apply H. intros S HS. unfold declaredBefore in HS.
  destruct S; first [ reflexivity | simpl in HS; lia ].
Defined.

(** C2.  The fallback and totality: a null, empty or white-space-only input,
    and any text that contains no keyword of any sector, is classified as
    [Other]; every input is classified as one of the ten sectors of the
    taxonomy. *)
Theorem classifySector_fallback_total :
  classifySector None = Other
  /\ classifySector (Some "") = Other
  /\ (forall raw, JsString.allWhiteSpace raw = true ->
      classifySector (Some raw) = Other)
  /\ (forall raw, (forall S, containsKeywordOf raw S = false) ->
      classifySector (Some raw) = Other)
  /\ (forall raw, In (classifySector raw) SECTORS)
  /\ length SECTORS = 10%nat.
Proof.
  split; [ reflexivity | ].
  split; [ reflexivity | ].
  split.
  { intros raw Hws. rewrite classifySector_scan. unfold normalize.
    rewrite (JsStringFacts.toLowerCase_allWhiteSpace raw Hws),
            (JsStringFacts.trim_allWhiteSpace raw Hws).
    reflexivity. }
  split.
  { intros raw Hnone. rewrite classifySector_scan.
    destruct (scanSectors_first_match (normalize raw)) as [[Hr _]|[Hr _]];
      [ exact Hr | ].
    rewrite matchesSector_normalize, Hnone in Hr. discriminate. }
  split; [ | reflexivity ].
  intros raw. destruct (classifySector raw); simpl; tauto.
Qed.

Lemma classifySector_fallback_total_witness :
  classifySector (Some "  ") = Other
  /\ classifySector (Some "Widgets & Gadgets") = Other.
Proof.
  destruct classifySector_fallback_total as (_ & _ & Hws & Hnone & _).
  split.
  - apply Hws. reflexivity.
  - apply Hnone. intros S. destruct S; reflexivity.
Defined.

(** ** The aggregator *)

Lemma sectorName_inj a b : sectorName a = sectorName b -> a = b.
Proof. destruct a, b; intros H; first [ reflexivity | discriminate H ]. Qed.

Lemma fold_left_sum {A} (f : A -> Q) (l : list A) (a : Q) :
  (fold_left (fun sum x => sum + f x) l a == a + sumQ (List.map f l))%Q.
Proof.
  revert a. induction l as [|x l IH]; intros a; simpl.
  - ring.
  - rewrite IH. ring.
Qed.

Lemma sumFairValue_total hs : (sumFairValue hs == totalValue hs)%Q.
Proof. unfold sumFairValue, totalValue. rewrite fold_left_sum. ring. Qed.

Lemma sumQ_Permutation l l' : Permutation l l' -> (sumQ l == sumQ l')%Q.
Proof.
  induction 1 as [|x l l' _ IH|x y l|l l' l'' _ IH1 _ IH2]; simpl.
  - reflexivity.
  - rewrite IH. reflexivity.
  - ring.
  - rewrite IH1. exact IH2.
Qed.

Lemma filter_Permutation' {A} (f : A -> bool) l l' :
  Permutation l l' -> Permutation (List.filter f l) (List.filter f l').
Proof.
  induction 1 as [|x l l' _ IH|x y l|l l' l'' _ IH1 _ IH2]; simpl.
  - constructor.
  - destruct (f x); [ constructor | ]; exact IH.
  - destruct (f x), (f y); try reflexivity. constructor.
  - etransitivity; eassumption.
Qed.

Lemma totalValue_Permutation hs hs' :
  Permutation hs hs' -> (totalValue hs == totalValue hs')%Q.
Proof.
  intros H. apply sumQ_Permutation, Permutation_map. exact H.
Qed.

Lemma sectorValue_Permutation hs hs' s :
  Permutation hs hs' -> (sectorValue hs s == sectorValue hs' s)%Q.
Proof.
  intros H. apply sumQ_Permutation, Permutation_map, filter_Permutation'.
  exact H.
Qed.

(** The loop filling [sectorTotals] leaves, under each sector's name, the
    fair value held in that sector. *)
Lemma fold_addToSector hs : forall (m : gmap string Q) s,
  (orZero (fold_left addToSector hs m !! sectorName s)
   == orZero (m !! sectorName s) + sectorValue hs s)%Q.
Proof.
  induction hs as [|h hs IH]; intros m s.
  - unfold sectorValue. simpl. ring.
  - simpl fold_left. rewrite IH. unfold sectorValue. simpl List.filter.
    unfold addToSector at 1.
    destruct (decide (resolveSector h = s)) as [->|Hne].
    + rewrite lookup_insert_eq, bool_decide_eq_true_2 by reflexivity.
      simpl. ring.
    + rewrite lookup_insert_ne, bool_decide_eq_false_2 by
        (first [ assumption | intros E; apply Hne, sectorName_inj, E ]).
      reflexivity.
Qed.

Lemma sectorTotalsOf_value hs s :
  (orZero (sectorTotalsOf hs !! sectorName s) == sectorValue hs s)%Q.
Proof.
  unfold sectorTotalsOf. rewrite fold_addToSector, lookup_empty. simpl. ring.
Qed.


Lemma in_SECTORS s : s ∈ SECTORS.
Proof. apply list_elem_of_In. destruct s; simpl; tauto. Qed.

Lemma fold_insert_lookup (g : Sector -> Q) l : forall (m : gmap string Q) s,
  fold_left (fun e x => <[ sectorName x := g x ]> e) l m !! sectorName s
  = if bool_decide (s ∈ l) then Some (g s) else m !! sectorName s.
Proof.
  induction l as [|a l IH]; intros m s; simpl fold_left.
  - rewrite bool_decide_eq_false_2 by apply not_elem_of_nil. reflexivity.
  - rewrite IH. destruct (decide (s ∈ l)) as [Hin|Hout].
    + rewrite !bool_decide_eq_true_2
        by (first [ exact Hin | apply elem_of_cons; right; exact Hin ]).
      reflexivity.
    + rewrite (bool_decide_eq_false_2 _ Hout).
      destruct (decide (s = a)) as [->|Hne].
      * rewrite lookup_insert_eq, bool_decide_eq_true_2
          by (apply elem_of_cons; left; reflexivity).
        reflexivity.
      * rewrite lookup_insert_ne
          by (intros E; apply Hne; symmetry; apply sectorName_inj, E).
        rewrite bool_decide_eq_false_2
          by (intros [E|E]%elem_of_cons; [ exact (Hne E) | exact (Hout E) ]).
        reflexivity.
Qed.

Lemma percentagesOf_lookup totals total s :
  percentagesOf totals total !! sectorName s
  = Some (orZero (totals !! sectorName s) / total * 100)%Q.
Proof.
  unfold percentagesOf.
  rewrite (fold_insert_lookup
             (fun x => (orZero (totals !! sectorName x) / total * 100)%Q)).
  rewrite bool_decide_eq_true_2 by apply in_SECTORS. reflexivity.
Qed.

Lemma fold_fill_lookup l : forall (m : gmap string Q) s,
  fold_left
    (fun e x => match e !! sectorName x with
                | None => <[ sectorName x := 0%Q ]> e
                | Some _ => e
                end) l m !! sectorName s
  = match m !! sectorName s with
    | Some v => Some v
    | None => if bool_decide (s ∈ l) then Some 0%Q else None
    end.
Proof.
  induction l as [|a l IH]; intros m s; simpl fold_left.
  - rewrite bool_decide_eq_false_2 by apply not_elem_of_nil.
    destruct (m !! sectorName s); reflexivity.
  - rewrite IH. destruct (decide (s = a)) as [->|Hne].
    + rewrite (bool_decide_eq_true_2 (a ∈ a :: l))
        by (apply elem_of_cons; left; reflexivity).
      destruct (m !! sectorName a) eqn:Hm.
      * rewrite Hm. reflexivity.
      * rewrite lookup_insert_eq. reflexivity.
    + assert (Hn : sectorName a <> sectorName s)
        by (intros E; apply Hne; symmetry; apply sectorName_inj, E).
      assert (Hmem : bool_decide (s ∈ a :: l) = bool_decide (s ∈ l)).
      { apply bool_decide_ext. rewrite elem_of_cons. tauto. }
      rewrite Hmem.
      destruct (m !! sectorName a);
        [ | rewrite (lookup_insert_ne _ _ _ _ Hn) ]; reflexivity.
Qed.

Lemma fillMissing_lookup m s :
  fillMissing m !! sectorName s
  = Some (match m !! sectorName s with Some v => v | None => 0%Q end).
Proof.
  unfold fillMissing. rewrite fold_fill_lookup.
  destruct (m !! sectorName s); [ reflexivity | ].
  rewrite bool_decide_eq_true_2 by apply in_SECTORS. reflexivity.
Qed.




Lemma Qgtb_true a b : Qgtb a b = true <-> (b < a)%Q.
Proof.
  unfold Qgtb. rewrite negb_true_iff. split.
  - intros H. apply Qnot_le_lt. intros Hle.
    apply Qle_bool_iff in Hle. congruence.
  - intros H. destruct (Qle_bool a b) eqn:E; [ | reflexivity ].
    apply Qle_bool_iff in E. exfalso. exact (Qlt_not_le _ _ H E).
Qed.

Lemma Qgtb_false a b : Qgtb a b = false <-> (a <= b)%Q.
Proof.
  unfold Qgtb. rewrite negb_false_iff. apply Qle_bool_iff.
Qed.

Lemma percentage_positive first rest s :
  let rows := first :: rest in
  let latest :=
    List.filter (fun h => String.eqb (period_date h) (period_date first)) rows in
  Qgtb (sumFairValue latest) 0 = true ->
  percentage (aggregate (Some rows)) s
  = Some (orZero (sectorTotalsOf latest !! sectorName s)
          / sumFairValue latest * 100)%Q.
Proof.
  intros rows latest Hpos. subst rows latest.
  unfold percentage. cbv beta iota zeta delta [aggregate].
  rewrite Hpos. cbn [sectorExposures].
  rewrite fillMissing_lookup, percentagesOf_lookup. reflexivity.
Qed.

Lemma percentage_not_positive first rest s :
  let rows := first :: rest in
  let latest :=
    List.filter (fun h => String.eqb (period_date h) (period_date first)) rows in
  Qgtb (sumFairValue latest) 0 = false ->
  percentage (aggregate (Some rows)) s = Some 0%Q.
Proof.
  intros rows latest Hpos. subst rows latest.
  unfold percentage. cbv beta iota zeta delta [aggregate].
  rewrite Hpos. cbn [sectorExposures].
  rewrite fillMissing_lookup, lookup_empty. reflexivity.
Qed.


Lemma totalFairValue_rows first rest :
  totalFairValue (aggregate (Some (first :: rest)))
  = sumFairValue
      (List.filter (fun h => String.eqb (period_date h) (period_date first))
         (first :: rest)).
Proof. reflexivity. Qed.


(** ** Selection of the latest period *)

Global Instance periodDesc_total : Total periodDesc.
Proof. intros a b. unfold periodDesc. destruct (total String.le (period_date a) (period_date b)); auto. Qed.

Global Instance periodDesc_trans : Transitive periodDesc.
Proof. intros a b c Hab Hbc. unfold periodDesc in *. etrans; eassumption. Qed.

Lemma leb_le a b : String.leb a b = true <-> String.le a b.
Proof. unfold String.le. symmetry. apply Is_true_true. Qed.

Lemma laterPeriod_ge_l a b : String.le a (laterPeriod a b).
Proof.
  unfold laterPeriod. destruct (String.leb a b) eqn:E.
  - apply leb_le, E.
  - reflexivity.
Qed.

Lemma laterPeriod_ge_r a b : String.le b (laterPeriod a b).
Proof.
  unfold laterPeriod. destruct (String.leb a b) eqn:E.
  - reflexivity.
  - destruct (total String.le a b) as [H|H]; [ | exact H ].
    apply leb_le in H. congruence.
Qed.

Lemma maxPeriod_upper hs h :
  In h hs -> String.le (period_date h) (maxPeriod hs).
Proof.
  induction hs as [|h0 hs IH]; simpl; [ tauto | ].
  intros [->|Hin].
  - apply laterPeriod_ge_r.
  - etrans; [ apply IH, Hin | apply laterPeriod_ge_l ].
Qed.

Lemma maxPeriod_attained hs :
  hs <> [] -> exists h, In h hs /\ period_date h = maxPeriod hs.
Proof.
  induction hs as [|h0 hs IH]; [ congruence | ]. intros _.
  destruct hs as [|h1 hs].
  - exists h0. split; [ left; reflexivity | ].
    simpl. unfold laterPeriod. destruct (period_date h0); reflexivity.
  - destruct IH as (h & Hin & Hh); [ discriminate | ].
    change (maxPeriod (h0 :: h1 :: hs))
      with (laterPeriod (maxPeriod (h1 :: hs)) (period_date h0)).
    unfold laterPeriod. destruct (String.leb _ _).
    + exists h0. split; [ left; reflexivity | reflexivity ].
    + exists h. split; [ right; exact Hin | exact Hh ].
Qed.

(** The first row of a descending permutation carries the maximum period. *)
Lemma first_row_maxPeriod own first rest :
  Permutation (first :: rest) own ->
  StronglySorted periodDesc (first :: rest) ->
  period_date first = maxPeriod own.
Proof.
  intros Hperm Hsorted.
  apply (anti_symm String.le).
  - apply maxPeriod_upper. apply (Permutation_in _ Hperm). left. reflexivity.
  - destruct (maxPeriod_attained own) as (h & Hin & <-).
    { intros ->. apply Permutation_sym, Permutation_nil in Hperm. discriminate. }
    apply (Permutation_in _ (Permutation_sym Hperm)) in Hin.
    destruct Hin as [->|Hin]; [ reflexivity | ].
    apply StronglySorted_inv in Hsorted as [_ Hall].
    rewrite Forall_forall in Hall. apply (Hall h).
    apply list_elem_of_In. exact Hin.
Qed.

Global Instance Qgtb_proper : Proper (Qeq ==> Qeq ==> eq) Qgtb.
Proof. intros a a' Ha b b' Hb. unfold Qgtb. rewrite Ha, Hb. reflexivity. Qed.

(** The query result for an entity with holdings, decomposed. *)
Lemma queryHoldings_rows table cik :
  holdingsOfEntity table cik <> [] ->
  exists first rest,
    queryHoldings table cik = first :: rest
    /\ period_date first = maxPeriod (holdingsOfEntity table cik)
    /\ Permutation
         (List.filter (fun h => String.eqb (period_date h) (period_date first))
            (first :: rest))
         (latestOnly (holdingsOfEntity table cik)).
Proof.
  intros Hne. unfold queryHoldings.
  set (own := holdingsOfEntity table cik) in *.
  pose proof (merge_sort_Permutation periodDesc own) as Hperm.
  pose proof (StronglySorted_merge_sort periodDesc own) as Hsorted.
  destruct (merge_sort periodDesc own) as [|first rest].
  { apply Permutation_nil in Hperm. congruence. }
  exists first, rest.
  pose proof (first_row_maxPeriod own first rest Hperm Hsorted) as Hmax.
  split; [ reflexivity | ]. split; [ exact Hmax | ].
  unfold latestOnly. rewrite Hmax. apply filter_Permutation', Hperm.
Qed.

(** C4.  Of the holdings of one entity, aggregation uses those of the
    maximum period string and no others: the reported period is that
    maximum, the total is the fair value of the holdings stamped with it,
    and each sector percentage is that sector's share among them. *)
Theorem aggregate_latest_period_only (table : list Holding) (cik : string) :
  let own := holdingsOfEntity table cik in
  let e := aggregate (Some (queryHoldings table cik)) in
  own <> [] ->
  latestPeriod e = maxPeriod own
  /\ (totalFairValue e == totalValue (latestOnly own))%Q
  /\ (forall s, exists p,
        percentage e s = Some p /\ (p == sectorShare (latestOnly own) s)%Q).
Proof.
  intros own e Hne. subst e.
  destruct (queryHoldings_rows table cik Hne)
    as (first & rest & -> & Hmax & Hperm).
  fold own in Hmax, Hperm.
  set (latest :=
         List.filter (fun h => String.eqb (period_date h) (period_date first))
           (first :: rest)) in *.
  assert (Htotal : (sumFairValue latest == totalValue (latestOnly own))%Q).
  { rewrite sumFairValue_total. apply totalValue_Permutation, Hperm. }
  split; [ exact Hmax | ]. split; [ rewrite totalFairValue_rows; exact Htotal | ].
  intros s. unfold sectorShare.
  assert (Hsame : Qgtb (totalValue (latestOnly own)) 0
                  = Qgtb (sumFairValue latest) 0)
    by (rewrite Htotal; reflexivity).
  rewrite Hsame.
  destruct (Qgtb (sumFairValue latest) 0) eqn:Hpos.
  - eexists. split; [ apply (percentage_positive first rest s Hpos) | ].
    fold latest. rewrite (sectorTotalsOf_value latest s).
    rewrite (sectorValue_Permutation _ _ s Hperm), Htotal. reflexivity.
  - eexists. split; [ apply (percentage_not_positive first rest s Hpos) | ].
    reflexivity.
Qed.

Lemma aggregate_latest_period_only_witness :
  latestPeriod (aggregate (Some (queryHoldings sampleHoldings "0001")))
  = "2024-09-30".
Proof.
  assert (Hne : holdingsOfEntity sampleHoldings "0001" <> []) by discriminate.
  destruct (aggregate_latest_period_only sampleHoldings "0001" Hne) as (H & _).
  rewrite H. reflexivity.
Defined.

(** The sample of the specification, evaluated. *)
Example aggregate_sample :
  let e := aggregate (Some (queryHoldings sampleHoldings "0001")) in
  latestPeriod e = "2024-09-30"
  /\ (totalFairValue e == 50)%Q
  /\ (orZero (percentage e Industrials) == 100)%Q
  /\ (orZero (percentage e Healthcare) == 0)%Q
  /\ (percentageSum e == 100)%Q.
Proof. vm_compute. repeat split. Qed.

(** ** The merge step *)

Lemma fold_left_push {A B} (skip : A -> bool) (f : A -> B) rows : forall acc,
  fold_left (fun results x => if skip x then results else results ++ [f x])
    rows acc
  = acc ++ List.map f (List.filter (fun x => negb (skip x)) rows).
Proof.
  induction rows as [|x rows IH]; intros acc; simpl.
  - rewrite app_nil_r. reflexivity.
  - rewrite IH. destruct (skip x); simpl; [ reflexivity | ].
    rewrite <- app_assoc. reflexivity.
Qed.

(** The result set is the merge of exactly the rows that are not skipped. *)
Lemma getBDCData_kept rows table :
  getBDCData (Some rows) table
  = List.map (fun bdc => mergeView bdc (aggregate (holdingsOf table bdc)))
      (List.filter
         (fun bdc => negb (skipped bdc (aggregate (holdingsOf table bdc))))
         rows).
Proof.
  unfold getBDCData.
  exact (fold_left_push
           (fun bdc => skipped bdc (aggregate (holdingsOf table bdc)))
           (fun bdc => mergeView bdc (aggregate (holdingsOf table bdc)))
           rows []).
Qed.

(** What the code does: an entity is left out exactly when its total fair
    value is zero and both its price and its dividend yield are null. *)
Lemma getBDCData_included rows table bdc :
  In bdc rows ->
  skipped bdc (aggregate (holdingsOf table bdc)) = false ->
  included bdc (getBDCData (Some rows) table).
Proof.
  intros Hin Hkeep. rewrite getBDCData_kept.
  exists (mergeView bdc (aggregate (holdingsOf table bdc))).
  split; [ | reflexivity ].
  apply in_map_iff. exists bdc. split; [ reflexivity | ].
  apply filter_In. split; [ exact Hin | ]. rewrite Hkeep. reflexivity.
Qed.

(** C5.  The merge step drops an entity that has a populated scalar metric:
    with no holdings, a net asset value per share (or a non-accrual
    percentage) and neither price nor dividend yield, the entity is absent
    from the composite result set, although the comment of the skip
    announces that only records without any financial data are skipped. *)
Theorem getBDCData_drops_entity_with_metric :
  hasScalarMetric navOnlyEntity = true
  /\ getBDCData (Some [navOnlyEntity]) [] = []
  /\ ~ included navOnlyEntity (getBDCData (Some [navOnlyEntity]) [])
  /\ hasScalarMetric nonAccrualOnlyEntity = true
  /\ getBDCData (Some [nonAccrualOnlyEntity]) [] = [].
Proof.
  assert (H1 : getBDCData (Some [navOnlyEntity]) [] = [])
    by (vm_compute; reflexivity).
  split; [ vm_compute; reflexivity | ].
  split; [ exact H1 | ].
  split; [ rewrite H1; intros (x & [] & _) | ].
  split; vm_compute; reflexivity.
Qed.

(** ** Summary averages *)

Lemma averageMetric_selected metric data :
  averageMetric metric data
  = let selected := List.filter (fun b => truthyNum (metric b)) data in
    match selected with
    | [] => None
    | _ =>
        Some (fold_left (fun sum b => (sum + orZero (metric b))%Q) selected 0%Q
              / inject_Z (Z.of_nat (length selected)))%Q
    end.
Proof.
  unfold averageMetric. cbv zeta.
  destruct (List.filter _ data); reflexivity.
Qed.

Lemma truthyNum_false m :
  truthyNum m = false <-> m = None \/ exists q, m = Some q /\ (q == 0)%Q.
Proof.
  destruct m as [q|]; simpl.
  - rewrite negb_false_iff, Qeq_bool_iff. split.
    + intros H. right. exists q. auto.
    + intros [H|[q' [H Hq]]]; [ discriminate H | ].
      injection H as <-. exact Hq.
  - split; [ auto | reflexivity ].
Qed.

Lemma truthyNum_true m :
  truthyNum m = true <-> exists q, m = Some q /\ ~ (q == 0)%Q.
Proof.
  destruct m as [q|]; simpl.
  - rewrite negb_true_iff. split.
    + intros H. exists q. split; [ reflexivity | ].
      apply Qeq_bool_neq, H.
    + intros [q' [[= <-] Hq]].
      destruct (Qeq_bool q 0) eqn:E; [ | reflexivity ].
      exfalso. apply Hq, Qeq_bool_iff, E.
  - split; [ discriminate | ]. intros [q [H _]]. discriminate H.
Qed.

Lemma averageMetric_null_dropped metric data :
  averageMetric metric data
  = averageMetric metric
      (List.filter (fun b => bool_decide (metric b <> None)) data).
Proof.
  unfold averageMetric.
  assert (Hf : List.filter (fun b => truthyNum (metric b))
                 (List.filter (fun b => bool_decide (metric b <> None)) data)
               = List.filter (fun b => truthyNum (metric b)) data).
  { induction data as [|b data IH]; simpl; [ reflexivity | ].
    destruct (metric b) as [q|] eqn:Hb.
    - rewrite bool_decide_eq_true_2 by discriminate. simpl.
      rewrite Hb, IH. reflexivity.
    - rewrite bool_decide_eq_false_2 by (intros H; apply H; reflexivity).
      simpl. exact IH. }
  rewrite Hf. reflexivity.
Qed.

(** Numerator and denominator of an average: the sum and the number of the
    metrics that are neither null nor 0. *)
Lemma averageMetric_quotient metric data :
  let counted := List.filter (fun b => truthyNum (metric b)) data in
  (forall b, In b counted
             <-> In b data /\ exists q, metric b = Some q /\ ~ (q == 0)%Q)
  /\ (counted = [] -> averageMetric metric data = None)
  /\ (counted <> [] ->
      exists avg,
        averageMetric metric data = Some avg
        /\ (avg == sumQ (List.map (fun b => orZero (metric b)) counted)
                   / inject_Z (Z.of_nat (length counted)))%Q).
Proof.
  cbv zeta. split; [ | split ].
  - intros b. rewrite filter_In, truthyNum_true. reflexivity.
  - intros H. rewrite averageMetric_selected. cbv zeta. rewrite H. reflexivity.
  - intros H. rewrite averageMetric_selected. cbv zeta.
    destruct (List.filter _ data) as [|c l]; [ contradiction H; reflexivity | ].
    eexists. split; [ reflexivity | ].
    rewrite fold_left_sum, Qplus_0_l. reflexivity.
Qed.

(** C9.  Null metrics are left out of averages.  The average yield over the
    entities with yields 10, null and 20 is 15, not the 10 that counting the
    null as 0 would give.  For every list, the entities counted are exactly
    those whose metric is neither null nor 0; the average is undefined when
    there is none, and otherwise it is the sum of their metrics divided by
    their number.  So a null metric enters neither the numerator nor the
    denominator, and an entity with a null metric can be removed without
    changing the average. *)
Theorem averageMetric_excludes_null :
  (exists q, avgDividendYield sampleEntities = Some q
             /\ (q == 15)%Q /\ ~ (q == 10)%Q)
  /\ (forall metric before b after,
        metric b = None ->
        averageMetric metric (before ++ b :: after)
        = averageMetric metric (before ++ after))
  /\ (forall metric data,
        averageMetric metric data
        = averageMetric metric
            (List.filter (fun b => bool_decide (metric b <> None)) data))
  /\ (forall metric data,
        let counted := List.filter (fun b => truthyNum (metric b)) data in
        (forall b, In b counted
                   <-> In b data
                       /\ exists q, metric b = Some q /\ ~ (q == 0)%Q)
        /\ (counted = [] -> averageMetric metric data = None)
        /\ (counted <> [] ->
            exists avg,
              averageMetric metric data = Some avg
              /\ (avg == sumQ (List.map (fun b => orZero (metric b)) counted)
                         / inject_Z (Z.of_nat (length counted)))%Q)).
Proof.
  split; [ | split; [ | split ] ].
  - eexists. split; [ vm_compute; reflexivity | ].
    split; [ reflexivity | discriminate ].
  - intros metric before b after Hb. unfold averageMetric.
    rewrite !List.filter_app. simpl. rewrite Hb. reflexivity.
  - apply averageMetric_null_dropped.
  - apply averageMetric_quotient.
Qed.

Lemma averageMetric_excludes_null_witness :
  avgDividendYield sampleEntities
  = avgDividendYield
      [ entityOfRow {[ "cik" := VText "1"; "dividend_yield" := VNum 10 ]};
        entityOfRow {[ "cik" := VText "3"; "dividend_yield" := VNum 20 ]} ].
Proof.
  destruct averageMetric_excludes_null as (_ & Hdrop & _).
  apply (Hdrop x_dividend_yield
           [ entityOfRow {[ "cik" := VText "1"; "dividend_yield" := VNum 10 ]} ]
           (entityOfRow {[ "cik" := VText "2" ]})
           [ entityOfRow {[ "cik" := VText "3"; "dividend_yield" := VNum 20 ]} ]).
  vm_compute. reflexivity.
Defined.

(** ** The price refresh job *)

Lemma map_lookup {A B} (f : A -> B) (l : list A) (i : nat) :
  List.map f l !! i = f <$> (l !! i).
Proof.
  revert i. induction l as [|x l IH]; intros [|i]; simpl; auto.
Qed.

Section RefreshFacts.

Variable quoteSummary : string -> string + QuoteSummary.
Variable updateError : string -> option string.
Variable now : nat -> Z.

Lemma setIfPresent_ne column c x (m : Row) :
  c <> column -> setIfPresent c x m !! column = m !! column.
Proof.
  intros H. unfold setIfPresent. destruct x; [ | reflexivity ].
  apply lookup_insert_ne, H.
Qed.

Lemma setIfPresent_eq c x (m : Row) :
  setIfPresent c x m !! c
  = match x with Some q => Some (VNum q) | None => m !! c end.
Proof.
  unfold setIfPresent. destruct x; [ apply lookup_insert_eq | reflexivity ].
Qed.

Lemma setPriceToNav_ne column p n (m : Row) :
  "price_to_nav" <> column -> setPriceToNav p n m !! column = m !! column.
Proof.
  intros H. unfold setPriceToNav. destruct p, n; try reflexivity.
  destruct (Qgtb _ _); [ apply lookup_insert_ne, H | reflexivity ].
Qed.

Lemma buildUpdateFields_outside time yahooData column :
  ~ In column refreshedColumns ->
  buildUpdateFields time yahooData !! column = None.
Proof.
  intros H. unfold buildUpdateFields.
  rewrite setPriceToNav_ne, !setIfPresent_ne, lookup_singleton_ne;
    first [ reflexivity | intros <-; apply H; simpl; tauto ].
Qed.

Lemma buildUpdateFields_copied time yahooData column :
  In column copiedColumns ->
  buildUpdateFields time yahooData !! column
  = VNum <$> yahooField yahooData column.
Proof.
  intros H. unfold buildUpdateFields.
  rewrite setPriceToNav_ne
    by (intros <-; simpl in H; intuition discriminate).
  simpl in H. destruct H as [<-|[<-|[<-|[<-|[]]]]]; unfold yahooField; simpl;
    repeat first
      [ rewrite setIfPresent_eq
      | rewrite setIfPresent_ne by discriminate
      | rewrite lookup_singleton_ne by discriminate ];
    match goal with |- context [match ?x with _ => _ end] => destruct x end;
    reflexivity.
Qed.

Lemma buildUpdateFields_price_to_nav time yahooData v :
  buildUpdateFields time yahooData !! "price_to_nav" = Some v ->
  exists p n,
    price yahooData = Some p /\ nav_per_share yahooData = Some n
    /\ (0 < n)%Q
    /\ v = VNum (inject_Z (jsRound (p / n * 100)) / 100)%Q.
Proof.
  unfold buildUpdateFields, setPriceToNav.
  destruct (price yahooData) as [p|], (nav_per_share yahooData) as [n|];
    try destruct (Qgtb n 0) eqn:Hn;
    try (rewrite !setIfPresent_ne, lookup_singleton_ne by discriminate;
         discriminate).
  rewrite lookup_insert_eq. intros [= <-].
  exists p, n. repeat split; try reflexivity. apply Qgtb_true, Hn.
Qed.

(** The effect of the store update on one row: the columns present in
    [updateFields] are overwritten, the others are kept. *)
Lemma union_lookup (updateFields row : Row) column :
  (updateFields ∪ row) !! column
  = match updateFields !! column with
    | Some v => Some v
    | None => row !! column
    end.
Proof.
  rewrite lookup_union. destruct (updateFields !! column), (row !! column);
    reflexivity.
Qed.

Lemma refreshedFrom_refl ticker row :
  refreshedFrom quoteSummary ticker row row.
Proof.
  split; [ intros column _; reflexivity | ]. split; [ | left; reflexivity ].
  intros column _. left. reflexivity.
Qed.

Lemma refreshEntity_rows n cik ticker table :
  Forall2 (refreshedFrom quoteSummary ticker) table
    (refreshEntity quoteSummary updateError now n cik ticker table).2.
Proof.
  assert (Hrefl : Forall2 (refreshedFrom quoteSummary ticker) table table).
  { induction table; constructor; auto using refreshedFrom_refl. }
  unfold refreshEntity.
  destruct (fetchBDCData quoteSummary ticker) as [message|yahooData] eqn:Hfetch;
    [ exact Hrefl | ].
  destruct (size (buildUpdateFields (now n) yahooData) <=? 1)%nat;
    [ exact Hrefl | ].
  destruct (updateError cik); [ exact Hrefl | ].
  cbn [snd]. unfold updateWhereCik. clear Hrefl.
  induction table as [|row table IH]; simpl; constructor; [ | exact IH ].
  destruct (bool_decide (textField row "cik" = Some cik));
    [ | apply refreshedFrom_refl ].
  split; [ | split ].
  - intros column Hout. rewrite union_lookup.
    rewrite (buildUpdateFields_outside _ _ _ Hout). reflexivity.
  - intros column Hin. rewrite union_lookup.
    rewrite (buildUpdateFields_copied _ _ _ Hin).
    destruct (yahooField yahooData column) as [q|] eqn:Hq; simpl.
    + right. exists yahooData, q. auto.
    + left. reflexivity.
  - rewrite union_lookup.
    destruct (buildUpdateFields (now n) yahooData !! "price_to_nav")
      as [v|] eqn:Hv; [ | left; reflexivity ].
    right. apply buildUpdateFields_price_to_nav in Hv
      as (p & nv & Hp & Hn & Hpos & ->).
    exists yahooData, p, nv. auto.
Qed.

Lemma sameOutside_trans columns r1 r2 r3 :
  sameOutside columns r1 r2 -> sameOutside columns r2 r3 ->
  sameOutside columns r1 r3.
Proof.
  intros H12 H23 column Hout. rewrite (H23 column Hout). apply H12, Hout.
Qed.

Lemma Forall2_sameOutside_trans columns t1 t2 t3 :
  Forall2 (sameOutside columns) t1 t2 ->
  Forall2 (sameOutside columns) t2 t3 ->
  Forall2 (sameOutside columns) t1 t3.
Proof.
  intros H12. revert t3.
  induction H12 as [|r1 r2 t1 t2 Hr _ IH]; intros t3 H23;
    inversion H23; subst; constructor.
  - eapply sameOutside_trans; eassumption.
  - apply IH. assumption.
Qed.

Lemma refreshLoop_frame bdcs : forall n results table,
  Forall2 (sameOutside refreshedColumns) table
    (refreshLoop quoteSummary updateError now n bdcs results table).2.
Proof.
  induction bdcs as [|[cik ticker] bdcs IH]; intros n results table.
  - simpl. induction table; constructor; auto. intros column _. reflexivity.
  - simpl. destruct (negb (JsString.truthy ticker)); [ apply IH | ].
    pose proof (refreshEntity_rows n cik ticker table) as Hstep.
    destruct (refreshEntity quoteSummary updateError now n cik ticker table)
      as [r table'].
    eapply Forall2_sameOutside_trans; [ | apply IH ].
    cbn [snd] in Hstep. eapply Forall2_impl; [ exact Hstep | ].
    intros row row' H. apply H.
Qed.

End RefreshFacts.

(** C10.  The refresh job writes only [price], [dividend_yield],
    [nav_per_share], [debt_to_equity], [price_to_nav] and [updated_at]:
    the step for one entity leaves every other column of every row as it
    was, and changes a metric only to a non-null fresh value; after the
    whole job every row still has its [non_accrual_pct],
    [dividend_growth_3yr], [total_assets] and
    [net_investment_income_yield], and any other column outside the six. *)
Theorem refresh_writes_only_refreshed_columns
    (quoteSummary : string -> string + QuoteSummary)
    (updateError : string -> option string) (now : nat -> Z) :
  (forall n cik ticker table,
      Forall2 (refreshedFrom quoteSummary ticker) table
        (refreshEntity quoteSummary updateError now n cik ticker table).2)
  /\ (forall table,
        length (GET quoteSummary updateError now table).2 = length table)
  /\ (forall table i row row',
        table !! i = Some row ->
        (GET quoteSummary updateError now table).2 !! i = Some row' ->
        sameOutside refreshedColumns row row'
        /\ row' !! "non_accrual_pct" = row !! "non_accrual_pct"
        /\ row' !! "dividend_growth_3yr" = row !! "dividend_growth_3yr"
        /\ row' !! "total_assets" = row !! "total_assets"
        /\ row' !! "net_investment_income_yield"
           = row !! "net_investment_income_yield").
Proof.
  split; [ apply refreshEntity_rows | ].
  assert (Hframe : forall table,
             Forall2 (sameOutside refreshedColumns) table
               (GET quoteSummary updateError now table).2)
    by (intros table; apply refreshLoop_frame).
  split.
  - intros table. symmetry. exact (Forall2_length _ _ _ (Hframe table)).
  - intros table i row row' Hrow Hrow'.
    pose proof (Forall2_lookup_lr _ _ _ _ _ _ (Hframe table) Hrow Hrow') as H.
    split; [ exact H | ].
    repeat split; apply H; simpl; intuition discriminate.
Qed.

Lemma refresh_writes_only_refreshed_columns_witness :
  let table' :=
    (GET priceOnlyProvider (fun _ => None) (fun _ => 2000) [storedEntity]).2 in
  default ∅ (table' !! 0%nat) !! "non_accrual_pct"
  = storedEntity !! "non_accrual_pct".
Proof.
  intros table'.
  destruct (refresh_writes_only_refreshed_columns
              priceOnlyProvider (fun _ => None) (fun _ => 2000))
    as (_ & _ & H).
  apply (H [storedEntity] 0%nat storedEntity (default ∅ (table' !! 0%nat))).
  - reflexivity.
  - vm_compute. reflexivity.
Defined.

(** The sample entity after a refresh by a provider that knows only a price:
    the price and the time stamp are new, the rest is as stored. *)
Example refresh_sample :
  let '(results, table') :=
    GET priceOnlyProvider (fun _ => None) (fun _ => 2000) [storedEntity] in
  List.map r_status results = [ updated ]
  /\ table' = [ <[ "price" := VNum 21 ]> (<[ "updated_at" := VTime 2000 ]> storedEntity) ].
Proof. vm_compute. split; reflexivity. Qed.

(** ** The watchlist cache *)

Section AnalyzeFacts.

Variable fetchTickerData : string -> string + FMPTickerData.t.
Variable analyzeWithClaude : string -> FMPTickerData.t -> option AIAnalysis.t.

Lemma isRecent_spec now analyzed :
  isRecent now analyzed 24 = true <-> now - analyzed < freshnessWindow.
Proof.
  unfold isRecent, freshnessWindow, hour. rewrite Z.gtb_ltb, Z.ltb_lt. lia.
Qed.

Lemma trace_upsertItem item w :
  trace (upsertItem item w)
  = trace w ++ [ CacheWrite (file (upsertItem item w)) ].
Proof.
  unfold upsertItem.
  destruct (list_find _ (loadWatchlist w)) as [[index found]|]; reflexivity.
Qed.

(** A ticker that is not served from the cache: the quote is fetched
    first; a failed fetch ends the attempt, a successful one is followed
    by the AI call and one write of the cache. *)
Lemma analyzeTicker_stale ticker w :
  servedFromCache ticker w = false ->
  analyzeTicker fetchTickerData analyzeWithClaude ticker w
  = refreshTicker fetchTickerData analyzeWithClaude ticker w.
Proof.
  intros H. unfold analyzeTicker, servedFromCache in *.
  destruct (getItem ticker w); [ rewrite H | ]; reflexivity.
Qed.

Lemma analyzeTicker_refresh ticker w :
  servedFromCache ticker w = false ->
  let outcome := analyzeTicker fetchTickerData analyzeWithClaude ticker w in
  match fetchTickerData ticker with
  | inl message =>
      outcome = (inl message, record (QuoteCall ticker) w)
  | inr fmpData =>
      exists item,
        outcome.1 = inr item
        /\ trace outcome.2
           = trace w ++ [ QuoteCall ticker; AICall ticker;
                          CacheWrite (file outcome.2) ]
  end.
Proof.
  intros Hstale. cbv zeta. rewrite (analyzeTicker_stale ticker w Hstale).
  unfold refreshTicker.
  destruct (fetchTickerData ticker) as [message|fmpData]; [ reflexivity | ].
  eexists. split; [ reflexivity | ].
  cbn [snd]. rewrite trace_upsertItem. cbn [trace record].
  rewrite <- !app_assoc. reflexivity.
Qed.

Lemma analyzeTicker_reuse ticker w c :
  getItem ticker w = Some c ->
  reusable (clock w) c = true ->
  analyzeTicker fetchTickerData analyzeWithClaude ticker w = (inr c, w).
Proof.
  intros Hc Hfresh. unfold analyzeTicker. rewrite Hc, Hfresh. reflexivity.
Qed.

Lemma analyzeTicker_trace_grows ticker w :
  servedFromCache ticker w = false ->
  exists rest,
    trace (analyzeTicker fetchTickerData analyzeWithClaude ticker w).2
    = trace w ++ QuoteCall ticker :: rest.
Proof.
  intros Hstale. pose proof (analyzeTicker_refresh ticker w Hstale) as H.
  cbv zeta in H. destruct (fetchTickerData ticker) as [message|fmpData].
  - rewrite H. exists []. reflexivity.
  - destruct H as (item & _ & ->). eexists. reflexivity.
Qed.

(** An item without a usable time stamp is never served from the cache. *)
Lemma analyzeTicker_no_timestamp ticker w c :
  getItem ticker w = Some c ->
  WatchlistItem.analyzed_at c = None ->
  analyzeTicker fetchTickerData analyzeWithClaude ticker w
  = refreshTicker fetchTickerData analyzeWithClaude ticker w.
Proof.
  intros Hc Ha. apply analyzeTicker_stale.
  unfold servedFromCache, reusable. rewrite Hc, Ha. reflexivity.
Qed.

End AnalyzeFacts.

(** C6.  A cached item is reused exactly when it is younger than 24 hours:
    then the item is returned as cached and the world is untouched (no
    quote call, no AI call, no write); otherwise the quote collaborator is
    called first and, when it answers, the AI collaborator next.  An item
    23 hours old is reused, one 25 hours old is refreshed. *)
Theorem cache_reuse_iff_fresh
    (fetchTickerData : string -> string + FMPTickerData.t)
    (analyzeWithClaude : string -> FMPTickerData.t -> option AIAnalysis.t)
    (ticker : string) (w : World) (c : WatchlistItem.t) (analyzed : Z) :
  getItem ticker w = Some c ->
  WatchlistItem.analyzed_at c = Some analyzed ->
  let age := clock w - analyzed in
  let outcome := analyzeTicker fetchTickerData analyzeWithClaude ticker w in
  (age < freshnessWindow <-> outcome = (inr c, w))
  /\ (freshnessWindow <= age ->
      match fetchTickerData ticker with
      | inl message => outcome = (inl message, record (QuoteCall ticker) w)
      | inr fmpData =>
          exists item,
            outcome.1 = inr item
            /\ trace outcome.2
               = trace w ++ [ QuoteCall ticker; AICall ticker;
                              CacheWrite (file outcome.2) ]
      end)
  /\ (age = 23 * hour -> outcome = (inr c, w))
  /\ (age = 25 * hour ->
      exists rest, trace outcome.2 = trace w ++ QuoteCall ticker :: rest).
Proof.
  intros Hc Ha age outcome.
  assert (Hreusable : reusable (clock w) c = isRecent (clock w) analyzed 24)
    by (unfold reusable; rewrite Ha; reflexivity).
  assert (Hfresh : age < freshnessWindow -> outcome = (inr c, w)).
  { intros Hage. apply analyzeTicker_reuse; [ exact Hc | ].
    rewrite Hreusable. apply isRecent_spec, Hage. }
  assert (Hstale : freshnessWindow <= age -> servedFromCache ticker w = false).
  { intros Hage. unfold servedFromCache. rewrite Hc, Hreusable.
    destruct (isRecent (clock w) analyzed 24) eqn:E; [ | reflexivity ].
    apply isRecent_spec in E. subst age. lia. }
  split; [ split; [ exact Hfresh | ] | ].
  - intros Hout. destruct (Z.lt_ge_cases age freshnessWindow) as [|Hge];
      [ assumption | exfalso ].
    destruct (analyzeTicker_trace_grows fetchTickerData analyzeWithClaude
                ticker w (Hstale Hge)) as (rest & Htrace).
    fold outcome in Htrace. rewrite Hout in Htrace. cbn [snd] in Htrace.
    apply (f_equal length) in Htrace. rewrite length_app in Htrace.
    simpl in Htrace. lia.
  - split; [ | split ].
    + intros Hge. apply analyzeTicker_refresh, Hstale, Hge.
    + intros Hage. apply Hfresh. rewrite Hage. unfold freshnessWindow, hour. lia.
    + intros Hage. apply analyzeTicker_trace_grows, Hstale.
      rewrite Hage. unfold freshnessWindow, hour. lia.
Qed.

Lemma cache_reuse_iff_fresh_witness :
  analyzeTicker sampleProvider failingAI "ACME" (worldWithAge (23 * hour))
  = (inr (cachedItem (1700000000000 - 23 * hour)), worldWithAge (23 * hour)).
Proof.
  assert (Hc : getItem "ACME" (worldWithAge (23 * hour))
               = Some (cachedItem (1700000000000 - 23 * hour)))
    by reflexivity.
  assert (Ha : WatchlistItem.analyzed_at (cachedItem (1700000000000 - 23 * hour))
               = Some (1700000000000 - 23 * hour))
    by reflexivity.
  destruct (cache_reuse_iff_fresh sampleProvider failingAI "ACME"
              (worldWithAge (23 * hour)) _ _ Hc Ha) as (_ & _ & H & _).
  apply H. vm_compute. reflexivity.
Defined.

(** The two samples of the specification, evaluated. *)
Example cache_samples :
  trace (analyzeTicker sampleProvider failingAI "ACME"
           (worldWithAge (23 * hour))).2 = []
  /\ (exists items,
        trace (analyzeTicker sampleProvider failingAI "ACME"
                 (worldWithAge (25 * hour))).2
        = [ QuoteCall "ACME"; AICall "ACME"; CacheWrite items ]).
Proof. split; [ reflexivity | eexists; vm_compute; reflexivity ]. Qed.

Section PostFacts.

Variable fetchTickerData : string -> string + FMPTickerData.t.
Variable analyzeWithClaude : string -> FMPTickerData.t -> option AIAnalysis.t.

(** The loop answers every ticker it is given, with a result or with an
    error entry. *)
Lemma analyzeAll_answers tickers : forall results errors w,
  exists results' errors' w',
    analyzeAll fetchTickerData analyzeWithClaude tickers results errors w
    = (AnalyzeResponse results' errors', w')
    /\ (length results' + length errors'
        = length results + length errors + length tickers)%nat.
Proof.
  induction tickers as [|ticker rest IH]; intros results errors w.
  - exists results, errors, w. split; [ reflexivity | simpl; lia ].
  - simpl.
    destruct (analyzeTicker fetchTickerData analyzeWithClaude ticker w)
      as [[message|item] w1].
    + destruct (IH results (errors ++ [(ticker, message)]) w1)
        as (results' & errors' & w' & -> & Hlen).
      exists results', errors', w'. split; [ reflexivity | ].
      rewrite length_app in Hlen. simpl in *. lia.
    + destruct (IH (results ++ [item]) errors w1)
        as (results' & errors' & w' & -> & Hlen).
      exists results', errors', w'. split; [ reflexivity | ].
      rewrite length_app in Hlen. simpl in *. lia.
Qed.

End PostFacts.

(** C7.  The batch limits: more than 25 tickers are refused with status 400
    and the count-exceeded message, an empty batch is refused with status
    400, both leaving the world as it was (no external call, no cache
    write); exactly 25 tickers are accepted, and every ticker that survives
    cleaning is answered with a result or an error entry. *)
Theorem POST_batch_limits
    (fetchTickerData : string -> string + FMPTickerData.t)
    (analyzeWithClaude : string -> FMPTickerData.t -> option AIAnalysis.t)
    (tickers : list string) (w : World) :
  ((25 < length tickers)%nat ->
     POST fetchTickerData analyzeWithClaude (Parsed (Some tickers)) w
     = (mkResponse 400 (ErrorBody "Maximum 25 tickers at a time"), w))
  /\ POST fetchTickerData analyzeWithClaude (Parsed (Some [])) w
     = (mkResponse 400 (ErrorBody "No tickers provided"), w)
  /\ (length tickers = 25%nat ->
      exists results errors w',
        POST fetchTickerData analyzeWithClaude (Parsed (Some tickers)) w
        = (mkResponse 200 (AnalyzeResponse results errors), w')
        /\ (length results + length errors
            = length (cleanTickers tickers))%nat).
Proof.
  split; [ | split ].
  - intros Hlen. unfold POST.
    destruct (Nat.eqb_spec (length tickers) 0) as [E|_]; [ lia | ].
    destruct (Nat.ltb_spec 25 (length tickers)) as [_|E]; [ reflexivity | lia ].
  - reflexivity.
  - intros Hlen. unfold POST. rewrite Hlen. cbn [Nat.eqb Nat.ltb Nat.leb].
    destruct (analyzeAll_answers fetchTickerData analyzeWithClaude
                (cleanTickers tickers) [] [] w)
      as (results & errors & w' & -> & Hn).
    exists results, errors, w'. split; [ reflexivity | exact Hn ].
Qed.

Lemma POST_batch_limits_witness :
  POST sampleProvider failingAI (Parsed (Some (repeat "ACME" 26))) emptyWorld
  = (mkResponse 400 (ErrorBody "Maximum 25 tickers at a time"), emptyWorld)
  /\ exists results errors w',
       POST sampleProvider failingAI (Parsed (Some (repeat "ACME" 25))) emptyWorld
       = (mkResponse 200 (AnalyzeResponse results errors), w').
Proof.
  split.
  - apply (POST_batch_limits sampleProvider failingAI (repeat "ACME" 26)).
    vm_compute. reflexivity.
  - destruct (POST_batch_limits sampleProvider failingAI (repeat "ACME" 25)
                emptyWorld) as (_ & _ & H).
    destruct (H eq_refl) as (results & errors & w' & Hpost & _).
    exists results, errors, w'. exact Hpost.
Defined.

(** C8, as amended.  When the quote is fetched and the AI call fails, the
    ticker is still answered with an item: its risks are one placeholder
    string, its strengths the same single placeholder, its evaluation the
    fixed sentence, and every market-data field holds the value received
    from the quote collaborator. *)
Theorem analyzeTicker_degraded
    (fetchTickerData : string -> string + FMPTickerData.t)
    (analyzeWithClaude : string -> FMPTickerData.t -> option AIAnalysis.t)
    (ticker : string) (w : World) (fmpData : FMPTickerData.t) :
  servedFromCache ticker w = false ->
  fetchTickerData ticker = inr fmpData ->
  analyzeWithClaude ticker fmpData = None ->
  exists item w',
    analyzeTicker fetchTickerData analyzeWithClaude ticker w = (inr item, w')
    /\ WatchlistItem.risks item
       = [ "AI analysis unavailable - check API key credits" ]
    /\ WatchlistItem.strengths item
       = [ "AI analysis unavailable - check API key credits" ]
    /\ WatchlistItem.evaluation item
       = Some "AI analysis could not be generated. Financial data shown above is from live market data."
    /\ WatchlistItem.ticker item = ticker
    /\ WatchlistItem.company_name item = Some (FMPTickerData.companyName fmpData)
    /\ WatchlistItem.description item = Some (FMPTickerData.description fmpData)
    /\ WatchlistItem.sector item = Some (FMPTickerData.sector fmpData)
    /\ WatchlistItem.industry item = Some (FMPTickerData.industry fmpData)
    /\ WatchlistItem.market_cap item = Some (FMPTickerData.mktCap fmpData)
    /\ WatchlistItem.price item = Some (FMPTickerData.price fmpData)
    /\ WatchlistItem.revenue item = Some (FMPTickerData.revenue fmpData)
    /\ WatchlistItem.net_income item = Some (FMPTickerData.netIncome fmpData)
    /\ WatchlistItem.eps item = Some (FMPTickerData.eps fmpData)
    /\ WatchlistItem.pe_ratio item = Some (FMPTickerData.peRatio fmpData)
    /\ WatchlistItem.pb_ratio item = Some (FMPTickerData.pbRatio fmpData)
    /\ WatchlistItem.ev_ebitda item = Some (FMPTickerData.evToEBITDA fmpData)
    /\ WatchlistItem.roe item = Some (FMPTickerData.returnOnEquity fmpData)
    /\ WatchlistItem.ytd_change item = Some (FMPTickerData.ytdChange fmpData)
    /\ WatchlistItem.one_year_change item
       = Some (FMPTickerData.oneYearChange fmpData).
Proof.
  intros Hstale Hfetch Hai.
  rewrite (analyzeTicker_stale _ _ ticker w Hstale).
  unfold refreshTicker. rewrite Hfetch, Hai.
  eexists. eexists. split; [ reflexivity | ].
  repeat split; reflexivity.
Qed.

Lemma analyzeTicker_degraded_witness :
  exists item w',
    analyzeTicker sampleProvider failingAI "ACME" emptyWorld = (inr item, w')
    /\ WatchlistItem.risks item
       = [ "AI analysis unavailable - check API key credits" ]
    /\ WatchlistItem.price item = Some (125 # 2)%Q.
Proof.
  destruct (analyzeTicker_degraded sampleProvider failingAI "ACME" emptyWorld
              sampleQuote eq_refl eq_refl eq_refl)
    as (item & w' & Hrun & Hrisks & _ & _ & _ & _ & _ & _ & _ & _ & Hprice & _).
  exists item, w'. split; [ exact Hrun | ]. split; [ exact Hrisks | exact Hprice ].
Defined.

(** C8, as the specification words it, fails: the item produced for "ACME"
    when the AI call fails carries one risk placeholder, not three. *)
Lemma degraded_placeholders_are_single : ~ degradedWithThreePlaceholders.
Proof.
  intros H.
  destruct (H sampleProvider failingAI "ACME" emptyWorld sampleQuote
              eq_refl eq_refl eq_refl)
    as (item & w' & Hrun & (p & Hp) & _).
  apply (f_equal fst) in Hrun. vm_compute in Hrun.
  injection Hrun as <-. discriminate Hp.
Qed.

(* ===================================================================== *)
(** * Further properties of the code *)
(* ===================================================================== *)

(** ** The watchlist store *)

Lemma upperChar_idem c : JsString.upperChar (JsString.upperChar c) = JsString.upperChar c.
Proof. destruct c as [[] [] [] [] [] [] [] []]; vm_compute; reflexivity. Qed.

Lemma toUpperCase_idem s :
  JsString.toUpperCase (JsString.toUpperCase s) = JsString.toUpperCase s.
Proof.
  unfold JsString.toUpperCase.
  induction s as [|c r IH]; simpl; [ reflexivity | ].
  rewrite upperChar_idem, IH. reflexivity.
Qed.

Lemma find_after_replace (T : string) (item : WatchlistItem.t) items :
  forall i y,
    WatchlistItem.ticker item = T ->
    list_find (fun x => WatchlistItem.ticker x = T) items = Some (i, y) ->
    List.find (fun x => String.eqb (WatchlistItem.ticker x) T) (<[ i := item ]> items)
    = Some item.
Proof.
  induction items as [|x items IH]; intros i y HT Hfind; [ discriminate | ].
  simpl in Hfind. destruct (decide (WatchlistItem.ticker x = T)) as [Hx|Hx].
  - injection Hfind as <- <-. simpl. rewrite HT, String.eqb_refl. reflexivity.
  - destruct (list_find _ items) as [[j z]|] eqn:Hrest; [ | discriminate ].
    injection Hfind as <- <-. simpl.
    apply String.eqb_neq in Hx. rewrite Hx. apply (IH j z HT eq_refl).
Qed.

Lemma find_other_after_replace (T U : string) (item : WatchlistItem.t) items :
  forall i y,
    WatchlistItem.ticker item = T -> U <> T ->
    list_find (fun x => WatchlistItem.ticker x = T) items = Some (i, y) ->
    List.find (fun x => String.eqb (WatchlistItem.ticker x) U) (<[ i := item ]> items)
    = List.find (fun x => String.eqb (WatchlistItem.ticker x) U) items.
Proof.
  induction items as [|x items IH]; intros i y HT HU Hfind; [ discriminate | ].
  simpl in Hfind. destruct (decide (WatchlistItem.ticker x = T)) as [Hx|Hx].
  - injection Hfind as <- <-. simpl. rewrite HT, Hx.
    assert (E : String.eqb T U = false) by (apply String.eqb_neq; congruence).
    rewrite E. reflexivity.
  - destruct (list_find _ items) as [[j z]|] eqn:Hrest; [ | discriminate ].
    injection Hfind as <- <-. simpl.
    rewrite (IH j z HT HU eq_refl). reflexivity.
Qed.

Lemma tickers_after_replace (T : string) (item : WatchlistItem.t) items :
  forall i y,
    WatchlistItem.ticker item = T ->
    list_find (fun x => WatchlistItem.ticker x = T) items = Some (i, y) ->
    List.map WatchlistItem.ticker (<[ i := item ]> items)
    = List.map WatchlistItem.ticker items.
Proof.
  induction items as [|x items IH]; intros i y HT Hfind; [ discriminate | ].
  simpl in Hfind. destruct (decide (WatchlistItem.ticker x = T)) as [Hx|Hx].
  - injection Hfind as <- <-. simpl. congruence.
  - destruct (list_find _ items) as [[j z]|] eqn:Hrest; [ | discriminate ].
    injection Hfind as <- <-. simpl. rewrite (IH j z HT eq_refl). reflexivity.
Qed.

Lemma list_find_ticker_In (T : string) items :
  is_Some (list_find (fun x => WatchlistItem.ticker x = T) items)
  <-> In T (List.map WatchlistItem.ticker items).
Proof.
  induction items as [|x items IH]; simpl.
  - split; [ intros [? H]; discriminate | tauto ].
  - destruct (decide (WatchlistItem.ticker x = T)) as [Hx|Hx].
    + split; [ auto | eauto ].
    + rewrite <- IH. destruct (list_find _ items) as [[j z]|]; simpl.
      * split; [ eauto | eauto ].
      * split; [ intros [? H]; discriminate | intros [H|[? H]]; [ contradiction | discriminate ] ].
Qed.

Lemma file_upsertItem item w :
  file (upsertItem item w)
  = match list_find (fun i => WatchlistItem.ticker i = WatchlistItem.ticker item)
            (file w) with
    | Some (index, _) => <[ index := item ]> (file w)
    | None => item :: file w
    end.
Proof.
  unfold upsertItem, loadWatchlist.
  destruct (list_find _ (file w)) as [[index found]|]; reflexivity.
Qed.

Lemma getItem_upsertItem (item : WatchlistItem.t) (w : World) :
  (JsString.toUpperCase (WatchlistItem.ticker item) = WatchlistItem.ticker item ->
   getItem (WatchlistItem.ticker item) (upsertItem item w) = Some item)
  /\ (forall t,
        JsString.toUpperCase t <> WatchlistItem.ticker item ->
        getItem t (upsertItem item w) = getItem t w).
Proof.
  split.
  - intros Hup. unfold getItem, loadWatchlist. rewrite Hup, file_upsertItem.
    destruct (list_find _ (file w)) as [[index found]|] eqn:Hfind.
    + apply (find_after_replace _ item (file w) index found eq_refl Hfind).
    + simpl. rewrite String.eqb_refl. reflexivity.
  - intros t Ht. unfold getItem, loadWatchlist. rewrite file_upsertItem.
    destruct (list_find _ (file w)) as [[index found]|] eqn:Hfind.
    + apply (find_other_after_replace _ _ item (file w) index found eq_refl Ht Hfind).
    + simpl. assert (E : String.eqb (WatchlistItem.ticker item)
                           (JsString.toUpperCase t) = false)
        by (apply String.eqb_neq; congruence).
      rewrite E. reflexivity.
Qed.

(** X1.  Upsert and lookup: after [upsertItem item] the item is what
    [getItem] returns for its ticker (stored tickers are upper-case), and
    the lookup of every other ticker is as before. *)
Theorem upsertItem_lookup (item : WatchlistItem.t) (w : World) :
  (JsString.toUpperCase (WatchlistItem.ticker item) = WatchlistItem.ticker item ->
   getItem (WatchlistItem.ticker item) (upsertItem item w) = Some item)
  /\ (forall t,
        JsString.toUpperCase t <> WatchlistItem.ticker item ->
        getItem t (upsertItem item w) = getItem t w).
Proof. exact (getItem_upsertItem item w). Qed.

Lemma upsertItem_lookup_witness :
  getItem "ACME" (upsertItem (cachedItem 5) (worldWithAge 0))
  = Some (cachedItem 5)
  /\ getItem "msft" (upsertItem (cachedItem 5) (worldWithAge 0))
     = getItem "msft" (worldWithAge 0).
Proof.
  destruct (upsertItem_lookup (cachedItem 5) (worldWithAge 0)) as [Hself Hother].
  split.
  - apply Hself. reflexivity.
  - apply Hother. discriminate.
Defined.

Lemma cachedTickers_upsertItem (item : WatchlistItem.t) (w : World) :
  (In (WatchlistItem.ticker item) (cachedTickers w) ->
   cachedTickers (upsertItem item w) = cachedTickers w)
  /\ (~ In (WatchlistItem.ticker item) (cachedTickers w) ->
      cachedTickers (upsertItem item w)
      = WatchlistItem.ticker item :: cachedTickers w)
  /\ (NoDup (cachedTickers w) -> NoDup (cachedTickers (upsertItem item w))).
Proof.
  unfold cachedTickers. rewrite file_upsertItem.
  pose proof (list_find_ticker_In (WatchlistItem.ticker item) (file w)) as Hin.
  destruct (list_find _ (file w)) as [[index found]|] eqn:Hfind.
  - rewrite (tickers_after_replace _ item (file w) index found eq_refl Hfind).
    split; [ reflexivity | ]. split; [ | auto ].
    intros Hout. exfalso. apply Hout, Hin. eauto.
  - assert (Hout : ~ In (WatchlistItem.ticker item)
                      (List.map WatchlistItem.ticker (file w))).
    { intros H. apply Hin in H as [? H]. discriminate. }
    split; [ intros H; contradiction | ]. split; [ reflexivity | ].
    intros Hnd. simpl. apply NoDup_cons. split; [ | exact Hnd ].
    rewrite list_elem_of_In. exact Hout.
Qed.

(** X2.  Upsert keeps one entry per ticker: a ticker already in the cache
    keeps its place and the list of tickers is unchanged; a new ticker is
    put in front; a cache without duplicate tickers stays so. *)
Theorem upsertItem_tickers (item : WatchlistItem.t) (w : World) :
  (In (WatchlistItem.ticker item) (cachedTickers w) ->
   cachedTickers (upsertItem item w) = cachedTickers w)
  /\ (~ In (WatchlistItem.ticker item) (cachedTickers w) ->
      cachedTickers (upsertItem item w)
      = WatchlistItem.ticker item :: cachedTickers w)
  /\ (NoDup (cachedTickers w) -> NoDup (cachedTickers (upsertItem item w))).
Proof. exact (cachedTickers_upsertItem item w). Qed.

Lemma upsertItem_tickers_witness :
  cachedTickers (upsertItem (cachedItem 5) (worldWithAge 0)) = [ "ACME" ]
  /\ cachedTickers (upsertItem (cachedItem 5) emptyWorld) = [ "ACME" ].
Proof.
  split.
  - apply (upsertItem_tickers (cachedItem 5) (worldWithAge 0)).
    simpl. left. reflexivity.
  - apply (upsertItem_tickers (cachedItem 5) emptyWorld).
    simpl. tauto.
Defined.

Lemma find_filter_same {A} (p q : A -> bool) l :
  (forall x, q x = true -> p x = true) ->
  List.find q (List.filter p l) = List.find q l.
Proof.
  intros H. induction l as [|x l IH]; simpl; [ reflexivity | ].
  destruct (p x) eqn:Hp; simpl.
  - destruct (q x); [ reflexivity | exact IH ].
  - destruct (q x) eqn:Hq; [ apply H in Hq; congruence | exact IH ].
Qed.

Lemma find_filter_none {A} (p q : A -> bool) l :
  (forall x, q x = true -> p x = false) ->
  List.find q (List.filter p l) = None.
Proof.
  intros H. induction l as [|x l IH]; simpl; [ reflexivity | ].
  destruct (p x) eqn:Hp; simpl; [ | exact IH ].
  destruct (q x) eqn:Hq; [ apply H in Hq; congruence | exact IH ].
Qed.

Lemma filter_all_true {A} (p : A -> bool) l :
  (forall x, In x l -> p x = true) -> List.filter p l = l.
Proof.
  induction l as [|x l IH]; intros H; simpl; [ reflexivity | ].
  rewrite (H x) by (left; reflexivity). rewrite IH; [ reflexivity | ].
  intros y Hy. apply H. right. exact Hy.
Qed.

Lemma getItem_deleteItem (t : string) (w : World) :
  (forall t', JsString.toUpperCase t' = JsString.toUpperCase t ->
              getItem t' (deleteItem t w) = None)
  /\ (forall t', JsString.toUpperCase t' <> JsString.toUpperCase t ->
                 getItem t' (deleteItem t w) = getItem t' w)
  /\ (getItem t w = None -> file (deleteItem t w) = file w).
Proof.
  unfold getItem, deleteItem, loadWatchlist. cbn [file saveWatchlist].
  split; [ | split ].
  - intros t' Ht'. rewrite Ht'. apply find_filter_none.
    intros x Hx. rewrite Hx. reflexivity.
  - intros t' Ht'. apply find_filter_same.
    intros x Hx. apply String.eqb_eq in Hx. apply negb_true_iff, String.eqb_neq.
    congruence.
  - intros Hnone. apply filter_all_true. intros x Hx.
    apply negb_true_iff.
    destruct (String.eqb (WatchlistItem.ticker x) (JsString.toUpperCase t)) eqn:E;
      [ | reflexivity ].
    exfalso. eapply find_none in Hnone; [ | exact Hx ].
    simpl in Hnone. congruence.
Qed.

(** X3.  Deletion: after [deleteItem t] no item is found under any spelling
    of [t], the lookup of every other ticker is as before, and deleting a
    ticker the cache does not hold leaves the stored items as they were. *)
Theorem deleteItem_lookup (t : string) (w : World) :
  (forall t', JsString.toUpperCase t' = JsString.toUpperCase t ->
              getItem t' (deleteItem t w) = None)
  /\ (forall t', JsString.toUpperCase t' <> JsString.toUpperCase t ->
                 getItem t' (deleteItem t w) = getItem t' w)
  /\ (getItem t w = None -> file (deleteItem t w) = file w).
Proof. exact (getItem_deleteItem t w). Qed.

Lemma deleteItem_lookup_witness :
  getItem "Acme" (deleteItem "acme" (worldWithAge 0)) = None
  /\ file (deleteItem "msft" (worldWithAge 0)) = file (worldWithAge 0).
Proof.
  destruct (deleteItem_lookup "acme" (worldWithAge 0)) as (Hgone & _ & _).
  destruct (deleteItem_lookup "msft" (worldWithAge 0)) as (_ & _ & Hkeep).
  split.
  - apply Hgone. reflexivity.
  - apply Hkeep. reflexivity.
Defined.

Lemma filter_filter_same {A} (p : A -> bool) l :
  List.filter p (List.filter p l) = List.filter p l.
Proof.
  induction l as [|x l IH]; simpl; [ reflexivity | ].
  destruct (p x) eqn:Hp; simpl; [ rewrite Hp, IH | ]; auto.
Qed.

(** X4.  The delete route: without a ticker (absent, null or empty) it
    answers "ticker required" and touches nothing; for a ticker the cache
    does not hold it answers success and the stored items are as before;
    deleting twice leaves the same items as deleting once. *)
Theorem DELETE_absent_and_repeated (w : World) :
  WatchlistRoute.DELETE None w = (TickerRequired, w)
  /\ WatchlistRoute.DELETE (Some "") w = (TickerRequired, w)
  /\ (forall t, JsString.truthy t = true -> getItem t w = None ->
        exists w', WatchlistRoute.DELETE (Some t) w = (SuccessReply, w')
                   /\ file w' = file w)
  /\ (forall t, file (deleteItem t (deleteItem t w)) = file (deleteItem t w)).
Proof.
  split; [ reflexivity | ]. split; [ reflexivity | ]. split.
  - intros t Ht Hnone. unfold WatchlistRoute.DELETE. rewrite Ht.
    eexists. split; [ reflexivity | ].
    apply (getItem_deleteItem t w), Hnone.
  - intros t. unfold deleteItem, loadWatchlist. cbn [file saveWatchlist].
    apply filter_filter_same.
Qed.

Lemma DELETE_absent_and_repeated_witness :
  exists w', WatchlistRoute.DELETE (Some "msft") (worldWithAge 0) = (SuccessReply, w')
             /\ file w' = file (worldWithAge 0).
Proof.
  destruct (DELETE_absent_and_repeated (worldWithAge 0)) as (_ & _ & H & _).
  apply (H "msft"); reflexivity.
Defined.

Section WatchlistMore.

Variable fetchTickerData : string -> string + FMPTickerData.t.
Variable analyzeWithClaude : string -> FMPTickerData.t -> option AIAnalysis.t.

Lemma isRecent_now c : isRecent c c 24 = true.
Proof. unfold isRecent. rewrite Z.gtb_ltb. apply Z.ltb_lt. lia. Qed.

Lemma clock_upsertItem item w : clock (upsertItem item w) = clock w.
Proof.
  unfold upsertItem.
  destruct (list_find _ (loadWatchlist w)) as [[index found]|]; reflexivity.
Qed.

(** What a successful refresh leaves behind. *)
Lemma refreshTicker_success t w item w' :
  refreshTicker fetchTickerData analyzeWithClaude t w = (inr item, w') ->
  WatchlistItem.ticker item = t
  /\ WatchlistItem.analyzed_at item = Some (clock w)
  /\ clock w' = clock w
  /\ exists w3, w' = upsertItem item w3 /\ file w3 = file w.
Proof.
  unfold refreshTicker.
  destruct (fetchTickerData t) as [message|fmpData]; [ discriminate | ].
  intros [= <- <-]. split; [ reflexivity | ]. split; [ reflexivity | ].
  split; [ rewrite clock_upsertItem; reflexivity | ].
  eexists. split; [ reflexivity | reflexivity ].
Qed.

Lemma refreshTicker_then_cached t w item w' :
  JsString.toUpperCase t = t ->
  refreshTicker fetchTickerData analyzeWithClaude t w = (inr item, w') ->
  analyzeTicker fetchTickerData analyzeWithClaude t w' = (inr item, w').
Proof.
  intros Hup Hrun.
  destruct (refreshTicker_success t w item w' Hrun)
    as (Ht & Hat & Hclock & w3 & -> & _).
  unfold analyzeTicker.
  assert (Hget : getItem t (upsertItem item w3) = Some item).
  { rewrite <- Ht. apply getItem_upsertItem. rewrite Ht. exact Hup. }
  rewrite Hget. unfold reusable. rewrite Hat, Hclock, isRecent_now. reflexivity.
Qed.

End WatchlistMore.

(** X5.  A ticker that has just been refreshed is served from the cache:
    analysing the same (upper-case) ticker again returns the very item and
    changes nothing, so a ticker repeated in a batch costs no second call. *)
Theorem refreshed_ticker_is_cached
    (fetchTickerData : string -> string + FMPTickerData.t)
    (analyzeWithClaude : string -> FMPTickerData.t -> option AIAnalysis.t)
    (t : string) (w w' : World) (item : WatchlistItem.t) :
  JsString.toUpperCase t = t ->
  refreshTicker fetchTickerData analyzeWithClaude t w = (inr item, w') ->
  analyzeTicker fetchTickerData analyzeWithClaude t w' = (inr item, w').
Proof. apply refreshTicker_then_cached. Qed.

Lemma refreshed_ticker_is_cached_witness :
  let run := refreshTicker sampleProvider failingAI "ACME" emptyWorld in
  exists item, run.1 = inr item
               /\ analyzeTicker sampleProvider failingAI "ACME" run.2
                  = (inr item, run.2).
Proof.
  intros run.
  destruct run as [[message|item] w'] eqn:Hrun; [ discriminate | ].
  exists item. split; [ reflexivity | ].
  apply (refreshed_ticker_is_cached sampleProvider failingAI "ACME" emptyWorld);
    [ reflexivity | exact Hrun ].
Defined.

Section PostMore.

Variable fetchTickerData : string -> string + FMPTickerData.t.
Variable analyzeWithClaude : string -> FMPTickerData.t -> option AIAnalysis.t.

Lemma analyzeTicker_calls t w :
  exists new,
    trace (analyzeTicker fetchTickerData analyzeWithClaude t w).2 = trace w ++ new
    /\ tickerCalls new.
Proof.
  unfold analyzeTicker.
  assert (Hrefresh :
    exists new,
      trace (refreshTicker fetchTickerData analyzeWithClaude t w).2 = trace w ++ new
      /\ tickerCalls new).
  { unfold refreshTicker.
    destruct (fetchTickerData t) as [message|fmpData].
    - exists [ QuoteCall t ]. split; [ reflexivity | right; left; eauto ].
    - eexists. cbn [snd]. rewrite trace_upsertItem. cbn [trace record].
      rewrite <- !app_assoc. split; [ reflexivity | right; right; eauto ]. }
  destruct (getItem t w) as [c|]; [ | exact Hrefresh ].
  destruct (reusable (clock w) c); [ | exact Hrefresh ].
  exists []. split; [ cbn [snd]; rewrite app_nil_r; reflexivity | left; reflexivity ].
Qed.

Lemma countCalls_app kind a b :
  countCalls kind (a ++ b) = (countCalls kind a + countCalls kind b)%nat.
Proof. unfold countCalls. rewrite List.filter_app, length_app. reflexivity. Qed.

Lemma tickerCalls_counts new :
  tickerCalls new ->
  (countCalls isQuoteCall new <= 1)%nat
  /\ (countCalls isAICall new <= countCalls isQuoteCall new)%nat
  /\ countCalls isCacheWrite new = countCalls isAICall new.
Proof.
  intros [->|[[t ->]|(t & items & ->)]]; vm_compute; repeat split; lia.
Qed.

Lemma analyzeAll_calls tickers : forall results errors w,
  exists new,
    trace (analyzeAll fetchTickerData analyzeWithClaude tickers results errors w).2
    = trace w ++ new
    /\ (countCalls isQuoteCall new <= length tickers)%nat
    /\ (countCalls isAICall new <= countCalls isQuoteCall new)%nat
    /\ countCalls isCacheWrite new = countCalls isAICall new.
Proof.
  induction tickers as [|t rest IH]; intros results errors w.
  - exists []. simpl. rewrite app_nil_r. repeat split; vm_compute; lia.
  - simpl.
    destruct (analyzeTicker_calls t w) as (new1 & Htrace1 & Hcalls).
    apply tickerCalls_counts in Hcalls as (Hq & Ha & Hw).
    destruct (analyzeTicker fetchTickerData analyzeWithClaude t w)
      as [[message|item] w1]; cbn [snd] in Htrace1.
    + destruct (IH results (errors ++ [(t, message)]) w1)
        as (new2 & -> & Hq2 & Ha2 & Hw2).
      exists (new1 ++ new2). rewrite Htrace1, <- app_assoc.
      rewrite !countCalls_app. repeat split; lia.
    + destruct (IH (results ++ [item]) errors w1)
        as (new2 & -> & Hq2 & Ha2 & Hw2).
      exists (new1 ++ new2). rewrite Htrace1, <- app_assoc.
      rewrite !countCalls_app. repeat split; lia.
Qed.

Lemma length_cleanTickers tickers :
  (length (cleanTickers tickers) <= length tickers)%nat.
Proof.
  unfold cleanTickers.
  etransitivity; [ apply List.filter_length_le | ].
  rewrite length_map. reflexivity.
Qed.

Lemma analyzeTicker_keeps_cache t w :
  (forall u, In u (cachedTickers w) ->
             In u (cachedTickers (analyzeTicker fetchTickerData analyzeWithClaude t w).2))
  /\ (NoDup (cachedTickers w) ->
      NoDup (cachedTickers (analyzeTicker fetchTickerData analyzeWithClaude t w).2)).
Proof.
  unfold analyzeTicker.
  assert (Hrefresh :
    (forall u, In u (cachedTickers w) ->
               In u (cachedTickers (refreshTicker fetchTickerData analyzeWithClaude t w).2))
    /\ (NoDup (cachedTickers w) ->
        NoDup (cachedTickers (refreshTicker fetchTickerData analyzeWithClaude t w).2))).
  { unfold refreshTicker.
    destruct (fetchTickerData t) as [message|fmpData]; [ split; auto | ].
    cbn [snd].
    match goal with |- context [upsertItem ?i ?w3] =>
      pose proof (cachedTickers_upsertItem i w3) as (Hin & Hout & Hnd);
      change (cachedTickers w3) with (cachedTickers w) in *
    end.
    split; [ | exact Hnd ].
    intros u Hu.
    match goal with |- context [upsertItem ?i ?w3] =>
      destruct (in_dec String.string_dec (WatchlistItem.ticker i) (cachedTickers w))
        as [Hi|Hi]
    end.
    - rewrite (Hin Hi). exact Hu.
    - rewrite (Hout Hi). right. exact Hu. }
  destruct (getItem t w) as [c|]; [ | exact Hrefresh ].
  destruct (reusable (clock w) c); [ split; auto | exact Hrefresh ].
Qed.

Lemma analyzeAll_keeps_cache tickers : forall results errors w,
  (forall u, In u (cachedTickers w) ->
     In u (cachedTickers
             (analyzeAll fetchTickerData analyzeWithClaude tickers results errors w).2))
  /\ (NoDup (cachedTickers w) ->
      NoDup (cachedTickers
               (analyzeAll fetchTickerData analyzeWithClaude tickers results errors w).2)).
Proof.
  induction tickers as [|t rest IH]; intros results errors w; [ split; auto | ].
  simpl. pose proof (analyzeTicker_keeps_cache t w) as (Hin & Hnd).
  destruct (analyzeTicker fetchTickerData analyzeWithClaude t w)
    as [[message|item] w1]; cbn [snd] in *.
  - destruct (IH results (errors ++ [(t, message)]) w1) as (Hin' & Hnd'). split; auto.
  - destruct (IH (results ++ [item]) errors w1) as (Hin' & Hnd'). split; auto.
Qed.

End PostMore.

(** X6.  The call budget of a batch: whatever the request, the handler adds
    to the trace at most 25 quote calls, never more AI calls than quote
    calls, and exactly one cache write per AI call; nothing already in the
    trace is altered. *)
Theorem POST_call_budget
    (fetchTickerData : string -> string + FMPTickerData.t)
    (analyzeWithClaude : string -> FMPTickerData.t -> option AIAnalysis.t)
    (request : Request) (w : World) :
  exists new,
    trace (POST fetchTickerData analyzeWithClaude request w).2 = trace w ++ new
    /\ (countCalls isQuoteCall new <= 25)%nat
    /\ (countCalls isAICall new <= countCalls isQuoteCall new)%nat
    /\ countCalls isCacheWrite new = countCalls isAICall new.
Proof.
  assert (Hnone : exists new, trace w = trace w ++ new
            /\ (countCalls isQuoteCall new <= 25)%nat
            /\ (countCalls isAICall new <= countCalls isQuoteCall new)%nat
            /\ countCalls isCacheWrite new = countCalls isAICall new).
  { exists []. rewrite app_nil_r. repeat split; vm_compute; lia. }
  unfold POST. destruct request as [message|[tickers|]]; try exact Hnone.
  destruct (length tickers =? 0)%nat; [ exact Hnone | ].
  destruct (Nat.ltb_spec 25 (length tickers)) as [|Hle]; [ exact Hnone | ].
  destruct (analyzeAll_calls fetchTickerData analyzeWithClaude
              (cleanTickers tickers) [] [] w) as (new & Htrace & Hq & Ha & Hw).
  destruct (analyzeAll fetchTickerData analyzeWithClaude (cleanTickers tickers) [] [] w)
    as [response w'].
  exists new. cbn [snd] in *. split; [ exact Htrace | ].
  pose proof (length_cleanTickers tickers). repeat split; lia.
Qed.

(** X7.  A batch never evicts: every ticker the cache held before the
    request is still held after it, and a cache with one entry per ticker
    keeps one entry per ticker. *)
Theorem POST_keeps_cache
    (fetchTickerData : string -> string + FMPTickerData.t)
    (analyzeWithClaude : string -> FMPTickerData.t -> option AIAnalysis.t)
    (request : Request) (w : World) :
  (forall t, In t (cachedTickers w) ->
             In t (cachedTickers (POST fetchTickerData analyzeWithClaude request w).2))
  /\ (NoDup (cachedTickers w) ->
      NoDup (cachedTickers (POST fetchTickerData analyzeWithClaude request w).2)).
Proof.
  unfold POST. destruct request as [message|[tickers|]]; try (split; auto; fail).
  destruct (length tickers =? 0)%nat; [ split; auto | ].
  destruct (25 <? length tickers)%nat; [ split; auto | ].
  pose proof (analyzeAll_keeps_cache fetchTickerData analyzeWithClaude
                (cleanTickers tickers) [] [] w) as H.
  destruct (analyzeAll fetchTickerData analyzeWithClaude (cleanTickers tickers) [] [] w)
    as [response w']. exact H.
Qed.

Lemma POST_keeps_cache_witness :
  In "ACME"
    (cachedTickers
       (POST sampleProvider failingAI (Parsed (Some [ "msft"; "acme" ]))
          (worldWithAge (25 * hour))).2).
Proof.
  apply (POST_keeps_cache sampleProvider failingAI
           (Parsed (Some [ "msft"; "acme" ])) (worldWithAge (25 * hour))).
  simpl. left. reflexivity.
Defined.

(** ** Normalisation of tickers *)

Lemma upperChar_whiteSpace c :
  JsString.isWhiteSpace (JsString.upperChar c) = JsString.isWhiteSpace c.
Proof. destruct c as [[] [] [] [] [] [] [] []]; vm_compute; reflexivity. Qed.

Lemma mapChars_empty f s :
  JsString.mapChars f s = EmptyString -> s = EmptyString.
Proof. destruct s; [ reflexivity | discriminate ]. Qed.

Lemma trimStart_mapChars f s :
  (forall c, JsString.isWhiteSpace (f c) = JsString.isWhiteSpace c) ->
  JsString.trimStart (JsString.mapChars f s)
  = JsString.mapChars f (JsString.trimStart s).
Proof.
  intros Hf. induction s as [|c r IH]; simpl; [ reflexivity | ].
  rewrite Hf. destruct (JsString.isWhiteSpace c); [ exact IH | reflexivity ].
Qed.

Lemma trimEnd_mapChars f s :
  (forall c, JsString.isWhiteSpace (f c) = JsString.isWhiteSpace c) ->
  JsString.trimEnd (JsString.mapChars f s)
  = JsString.mapChars f (JsString.trimEnd s).
Proof.
  intros Hf. induction s as [|c r IH]; simpl; [ reflexivity | ].
  rewrite IH, Hf. destruct (JsString.trimEnd r) as [|d r']; simpl.
  - destruct (JsString.isWhiteSpace c); reflexivity.
  - reflexivity.
Qed.

Lemma trimEnd_idem s : JsString.trimEnd (JsString.trimEnd s) = JsString.trimEnd s.
Proof.
  induction s as [|c r IH]; simpl; [ reflexivity | ].
  destruct (JsString.trimEnd r) as [|d r'] eqn:Hr.
  - destruct (JsString.isWhiteSpace c) eqn:Hc; simpl; [ reflexivity | ].
    rewrite Hc. reflexivity.
  - change (JsString.trimEnd (String c (String d r')))
      with (match JsString.trimEnd (String d r') with
            | EmptyString =>
                if JsString.isWhiteSpace c then EmptyString else String c EmptyString
            | r'' => String c r''
            end).
    rewrite IH. reflexivity.
Qed.

Lemma trimStart_noLeadingWhite s : noLeadingWhite (JsString.trimStart s).
Proof.
  induction s as [|c r IH]; simpl; [ exact I | ].
  destruct (JsString.isWhiteSpace c) eqn:Hc; [ exact IH | exact Hc ].
Qed.

Lemma trimStart_fixed s : noLeadingWhite s -> JsString.trimStart s = s.
Proof. destruct s as [|c r]; simpl; [ reflexivity | intros ->; reflexivity ]. Qed.

Lemma trimEnd_noLeadingWhite s :
  noLeadingWhite s -> noLeadingWhite (JsString.trimEnd s).
Proof.
  destruct s as [|c r]; simpl; [ auto | ]. intros Hc.
  destruct (JsString.trimEnd r); [ rewrite Hc | ]; exact Hc.
Qed.

Lemma trim_idem s : JsString.trim (JsString.trim s) = JsString.trim s.
Proof.
  unfold JsString.trim.
  rewrite (trimStart_fixed (JsString.trimEnd (JsString.trimStart s)))
    by apply trimEnd_noLeadingWhite, trimStart_noLeadingWhite.
  apply trimEnd_idem.
Qed.

Lemma trim_toUpperCase s :
  JsString.trim (JsString.toUpperCase s) = JsString.toUpperCase (JsString.trim s).
Proof.
  unfold JsString.trim, JsString.toUpperCase.
  rewrite trimStart_mapChars, trimEnd_mapChars by apply upperChar_whiteSpace.
  reflexivity.
Qed.

Lemma cleanTickers_spec tickers t :
  In t (cleanTickers tickers) ->
  (1 <= String.length t <= 10)%nat
  /\ JsString.toUpperCase t = t
  /\ JsString.trim t = t
  /\ exists raw, In raw tickers /\ t = JsString.toUpperCase (JsString.trim raw).
Proof.
  unfold cleanTickers. intros [Hin Hlen]%filter_In.
  apply in_map_iff in Hin as (raw & <- & Hraw).
  apply andb_prop in Hlen as [H1 H2].
  apply Nat.ltb_lt in H1. apply Nat.leb_le in H2.
  split; [ lia | ]. split; [ apply toUpperCase_idem | ].
  split; [ rewrite trim_toUpperCase, trim_idem; reflexivity | eauto ].
Qed.

(** X8.  What the server makes of the submitted tickers: every ticker it
    goes on to analyse has between 1 and 10 code units, is in upper case,
    carries no surrounding white space and comes from a submitted string;
    cleaning never adds tickers. *)
Theorem cleanTickers_normalised (tickers : list string) :
  (forall t, In t (cleanTickers tickers) ->
     (1 <= String.length t <= 10)%nat
     /\ JsString.toUpperCase t = t
     /\ JsString.trim t = t
     /\ exists raw, In raw tickers /\ t = JsString.toUpperCase (JsString.trim raw))
  /\ (length (cleanTickers tickers) <= length tickers)%nat.
Proof.
  split; [ apply cleanTickers_spec | ].
  unfold cleanTickers. etransitivity; [ apply List.filter_length_le | ].
  rewrite length_map. reflexivity.
Qed.

Lemma cleanTickers_normalised_witness :
  JsString.toUpperCase "BRK.B" = "BRK.B" /\ JsString.trim "BRK.B" = "BRK.B".
Proof.
  destruct (cleanTickers_normalised [ "  brk.b "; ""; "averyveryverylongname" ])
    as [H _].
  destruct (H "BRK.B") as (_ & Hup & Htrim & _).
  - simpl. left. reflexivity.
  - split; assumption.
Defined.

(** ** The dashboard's ticker parser *)

Module DashboardFacts.
Import WatchlistDashboard.

Lemma keepFirstFrom_index arr rest : forall i t,
  In t (keepFirstFrom arr i rest) ->
  exists j, (i <= j)%nat /\ indexOf arr t = Some j.
Proof.
  induction rest as [|x r IH]; intros i t; simpl; [ tauto | ].
  destruct (bool_decide (indexOf arr x = Some i)) eqn:Hx.
  - intros [<-|Hin].
    + apply bool_decide_eq_true in Hx. eauto.
    + destruct (IH _ _ Hin) as (j & Hj & Hidx). exists j. split; [ lia | exact Hidx ].
  - intros Hin. destruct (IH _ _ Hin) as (j & Hj & Hidx).
    exists j. split; [ lia | exact Hidx ].
Qed.

Lemma keepFirstFrom_NoDup arr rest : forall i, NoDup (keepFirstFrom arr i rest).
Proof.
  induction rest as [|x r IH]; intros i; simpl; [ constructor | ].
  destruct (bool_decide (indexOf arr x = Some i)) eqn:Hx; [ | apply IH ].
  apply bool_decide_eq_true in Hx.
  apply NoDup_cons. split; [ | apply IH ].
  rewrite list_elem_of_In. intros Hin.
  destruct (keepFirstFrom_index _ _ _ _ Hin) as (j & Hj & Hidx).
  rewrite Hx in Hidx. injection Hidx as <-. lia.
Qed.

Lemma keepFirstFrom_subset arr rest : forall i t,
  In t (keepFirstFrom arr i rest) -> In t rest.
Proof.
  induction rest as [|x r IH]; intros i t; simpl; [ tauto | ].
  destruct (bool_decide _); [ intros [H|H]; [ left; exact H | right; eauto ] | eauto ].
Qed.

Lemma indexOf_In arr t : In t arr -> exists i, indexOf arr t = Some i.
Proof.
  induction arr as [|x arr IH]; simpl; [ tauto | ].
  destruct (String.eqb_spec x t) as [->|Hne]; [ eauto | ].
  intros [H|H]; [ contradiction | ].
  destruct (IH H) as (i & ->). eauto.
Qed.

Lemma indexOf_lookup arr : forall t i, indexOf arr t = Some i -> arr !! i = Some t.
Proof.
  induction arr as [|x arr IH]; intros t i; simpl; [ discriminate | ].
  destruct (String.eqb_spec x t) as [->|Hne]; [ intros [= <-]; reflexivity | ].
  destruct (indexOf arr t) as [j|] eqn:Hj; [ | discriminate ].
  intros [= <-]. simpl. apply IH, Hj.
Qed.

Lemma keepFirstFrom_complete arr rest : forall i j t,
  drop i arr = rest -> (i <= j)%nat -> indexOf arr t = Some j ->
  In t (keepFirstFrom arr i rest).
Proof.
  induction rest as [|x r IH]; intros i j t Hdrop Hij Hidx.
  - exfalso. apply indexOf_lookup in Hidx.
    apply lookup_lt_Some in Hidx.
    apply (f_equal length) in Hdrop. rewrite length_drop in Hdrop. simpl in Hdrop. lia.
  - assert (Hx : arr !! i = Some x).
    { rewrite <- (Nat.add_0_r i), <- lookup_drop, Hdrop. reflexivity. }
    assert (Hr : drop (S i) arr = r).
    { replace (S i) with (i + 1)%nat by lia.
      rewrite <- drop_drop, Hdrop. reflexivity. }
    simpl. destruct (decide (j = i)) as [->|Hne].
    + pose proof (indexOf_lookup _ _ _ Hidx) as Ht. rewrite Hx in Ht.
      injection Ht as ->. rewrite bool_decide_eq_true_2 by exact Hidx.
      left. reflexivity.
    + assert (Hin : In t (keepFirstFrom arr (S i) r))
        by (apply (IH (S i) j t Hr); [ lia | exact Hidx ]).
      destruct (bool_decide _); [ right | ]; exact Hin.
Qed.

Lemma deduplicate_spec arr :
  NoDup (deduplicate arr) /\ forall t, In t (deduplicate arr) <-> In t arr.
Proof.
  split; [ apply keepFirstFrom_NoDup | ].
  intros t. split; [ apply keepFirstFrom_subset | ].
  intros Hin. destruct (indexOf_In _ _ Hin) as (j & Hj).
  apply (keepFirstFrom_complete arr arr 0 j t); [ reflexivity | lia | exact Hj ].
Qed.

Lemma allTickerChars_keepChars s :
  allTickerChars (keepChars isTickerChar s) = true.
Proof.
  induction s as [|c r IH]; simpl; [ reflexivity | ].
  destruct (isTickerChar c) eqn:Hc; [ simpl; rewrite Hc, IH; reflexivity | exact IH ].
Qed.

Lemma tickerChar_plain c :
  isTickerChar c = true ->
  JsString.isWhiteSpace c = false /\ JsString.upperChar c = c.
Proof.
  destruct c as [[] [] [] [] [] [] [] []]; vm_compute; intros H;
    first [ discriminate H | split; reflexivity ].
Qed.

Lemma tickerChars_fixed s :
  allTickerChars s = true ->
  JsString.toUpperCase (JsString.trim s) = s.
Proof.
  intros H.
  assert (Hup : JsString.toUpperCase s = s).
  { unfold JsString.toUpperCase. induction s as [|c r IH]; simpl; [ reflexivity | ].
    simpl in H. apply andb_prop in H as [Hc Hr].
    rewrite (proj2 (tickerChar_plain c Hc)), (IH Hr). reflexivity. }
  assert (Hend : JsString.trimEnd s = s).
  { clear Hup. induction s as [|c r IH]; simpl; [ reflexivity | ].
    simpl in H. apply andb_prop in H as [Hc Hr].
    rewrite (IH Hr), (proj1 (tickerChar_plain c Hc)). destruct r; reflexivity. }
  assert (Hstart : JsString.trimStart s = s).
  { destruct s as [|c r]; simpl; [ reflexivity | ].
    simpl in H. apply andb_prop in H as [Hc _].
    rewrite (proj1 (tickerChar_plain c Hc)). reflexivity. }
  unfold JsString.trim. rewrite Hstart, Hend. exact Hup.
Qed.

Lemma map_fixed {A} (f : A -> A) l :
  (forall x, In x l -> f x = x) -> List.map f l = l.
Proof.
  induction l as [|x l IH]; intros H; simpl; [ reflexivity | ].
  rewrite (H x) by (left; reflexivity). rewrite IH; [ reflexivity | ].
  intros y Hy. apply H. right. exact Hy.
Qed.

Lemma parseTickers_elements text t :
  In t (parseTickers text) ->
  (1 <= String.length t <= 10)%nat /\ allTickerChars t = true.
Proof.
  unfold parseTickers. intros Hin.
  apply (proj1 (proj2 (deduplicate_spec _) t)) in Hin.
  apply filter_In in Hin as [Hin Hlen].
  apply in_map_iff in Hin as (raw & <- & _).
  apply andb_prop in Hlen as [H1 H2].
  apply Nat.ltb_lt in H1. apply Nat.leb_le in H2.
  split; [ lia | apply allTickerChars_keepChars ].
Qed.

End DashboardFacts.

(** X9.  The dashboard's parser yields clean, distinct tickers: the list has
    no duplicates, every ticker has 1 to 10 code units, all of them A-Z or
    a dot, and the server's own cleaning leaves the list as it is.
    Deduplication loses no ticker. *)
Theorem parseTickers_clean (text : string) :
  NoDup (WatchlistDashboard.parseTickers text)
  /\ (forall t, In t (WatchlistDashboard.parseTickers text) ->
        (1 <= String.length t <= 10)%nat /\ allTickerChars t = true)
  /\ cleanTickers (WatchlistDashboard.parseTickers text)
     = WatchlistDashboard.parseTickers text
  /\ (forall arr t,
        In t (WatchlistDashboard.deduplicate arr) <-> In t arr).
Proof.
  split; [ apply DashboardFacts.deduplicate_spec | ].
  split; [ apply DashboardFacts.parseTickers_elements | ].
  split; [ | intros arr; apply DashboardFacts.deduplicate_spec ].
  unfold cleanTickers.
  rewrite DashboardFacts.map_fixed.
  - apply filter_all_true. intros t Ht.
    apply DashboardFacts.parseTickers_elements in Ht as [[H1 H2] _].
    apply andb_true_intro. split; [ apply Nat.ltb_lt | apply Nat.leb_le ]; lia.
  - intros t Ht. apply DashboardFacts.tickerChars_fixed.
    apply (DashboardFacts.parseTickers_elements text t Ht).
Qed.

Lemma parseTickers_clean_witness :
  (1 <= String.length "BRK.B" <= 10)%nat /\ allTickerChars "BRK.B" = true.
Proof.
  destruct (parseTickers_clean " aapl, brk.b;aapl/  $msft ") as (_ & H & _).
  apply H. vm_compute. right. left. reflexivity.
Defined.

Lemma length_mapChars f s :
  String.length (JsString.mapChars f s) = String.length s.
Proof. induction s as [|c r IH]; simpl; [ reflexivity | rewrite IH; reflexivity ]. Qed.

Lemma truthy_length s : JsString.truthy s = true -> (0 < String.length s)%nat.
Proof. destruct s; simpl; [ discriminate | lia ]. Qed.

(** X10.  Re-analysis reaches the provider: when the dashboard deletes a
    ticker and then submits it alone, the handler does not serve it from the
    cache; the first call after the delete's write is the quote call for
    that ticker. *)
Theorem reanalyze_reaches_provider
    (fetchTickerData : string -> string + FMPTickerData.t)
    (analyzeWithClaude : string -> FMPTickerData.t -> option AIAnalysis.t)
    (t : string) (w : World) :
  JsString.truthy t = true ->
  JsString.trim t = t ->
  (String.length t <= 10)%nat ->
  let w1 := (WatchlistRoute.DELETE (Some t) w).2 in
  exists rest,
    trace (POST fetchTickerData analyzeWithClaude (Parsed (Some [ t ])) w1).2
    = trace w1 ++ QuoteCall (JsString.toUpperCase t) :: rest.
Proof.
  intros Ht Htrim Hlen w1.
  assert (Hw1 : w1 = deleteItem t w)
    by (subst w1; unfold WatchlistRoute.DELETE; rewrite Ht; reflexivity).
  assert (Hclean : cleanTickers [ t ] = [ JsString.toUpperCase t ]).
  { unfold cleanTickers. simpl. rewrite Htrim.
    unfold JsString.toUpperCase at 1 2. rewrite length_mapChars.
    apply truthy_length in Ht.
    destruct (Nat.ltb_spec 0 (String.length t)); [ | lia ].
    destruct (Nat.leb_spec (String.length t) 10); [ | lia ].
    reflexivity. }
  assert (Hstale : servedFromCache (JsString.toUpperCase t) w1 = false).
  { unfold servedFromCache. rewrite Hw1.
    rewrite (proj1 (getItem_deleteItem t w)) by apply toUpperCase_idem.
    reflexivity. }
  destruct (analyzeTicker_trace_grows fetchTickerData analyzeWithClaude
              (JsString.toUpperCase t) w1 Hstale) as (rest & Htrace).
  exists rest. unfold POST. cbn [length Nat.eqb Nat.ltb Nat.leb].
  rewrite Hclean. cbn [analyzeAll].
  destruct (analyzeTicker fetchTickerData analyzeWithClaude (JsString.toUpperCase t) w1)
    as [[message|item] w2]; exact Htrace.
Qed.

Lemma reanalyze_reaches_provider_witness :
  exists rest,
    trace (POST sampleProvider failingAI (Parsed (Some [ "ACME" ]))
             (WatchlistRoute.DELETE (Some "ACME") (worldWithAge 0)).2).2
    = trace (WatchlistRoute.DELETE (Some "ACME") (worldWithAge 0)).2
      ++ QuoteCall "ACME" :: rest.
Proof.
  apply (reanalyze_reaches_provider sampleProvider failingAI "ACME" (worldWithAge 0));
    [ reflexivity | reflexivity | simpl; lia ].
Defined.

(** ** More on the price refresh job *)

Section RefreshMore.

Variable quoteSummary : string -> string + QuoteSummary.
Variable updateError : string -> option string.
Variable now : nat -> Z.

Lemma refreshEntity_ticker n cik ticker table :
  r_ticker (refreshEntity quoteSummary updateError now n cik ticker table).1 = ticker.
Proof.
  unfold refreshEntity.
  destruct (fetchBDCData quoteSummary ticker); [ reflexivity | ].
  destruct (size _ <=? 1)%nat; [ reflexivity | ].
  destruct (updateError cik); reflexivity.
Qed.

Lemma refreshLoop_tickers bdcs : forall n results table,
  List.map r_ticker (refreshLoop quoteSummary updateError now n bdcs results table).1
  = List.map r_ticker results ++ List.map snd (withTicker bdcs).
Proof.
  induction bdcs as [|[cik ticker] bdcs IH]; intros n results table; simpl.
  - rewrite app_nil_r. reflexivity.
  - destruct (JsString.truthy ticker) eqn:Ht; simpl.
    + pose proof (refreshEntity_ticker n cik ticker table) as Hr.
      destruct (refreshEntity quoteSummary updateError now n cik ticker table)
        as [r table'].
      rewrite IH, map_app. simpl in *. rewrite Hr, <- app_assoc. reflexivity.
    + apply IH.
Qed.

Lemma countStatus_total results :
  (countStatus updated results + countStatus error results
   + countStatus skippedNoData results = length results)%nat.
Proof.
  unfold countStatus in *.
  induction results as [|[t st m] results IH]; simpl; [ reflexivity | ].
  destruct st; simpl; lia.
Qed.

Lemma textField_cik_update time yahooData (row : Row) :
  textField (buildUpdateFields time yahooData ∪ row) "cik" = textField row "cik".
Proof.
  unfold textField. rewrite union_lookup, buildUpdateFields_outside; [ reflexivity | ].
  simpl. intuition discriminate.
Qed.

Lemma updateWhereCik_other updateFields cik table :
  Forall2 (fun row row' => textField row "cik" <> Some cik -> row' = row)
    table (updateWhereCik updateFields cik table).
Proof.
  unfold updateWhereCik. induction table as [|row table IH]; simpl; constructor;
    [ | exact IH ].
  intros Hne. rewrite bool_decide_eq_false_2 by exact Hne. reflexivity.
Qed.

Lemma Forall2_same {A} (P : A -> A -> Prop) l :
  (forall x, P x x) -> Forall2 P l l.
Proof. intros H. induction l; constructor; auto. Qed.

Lemma size_updated_at time : size ({[ "updated_at" := VTime time ]} : Row) = 1%nat.
Proof. apply map_size_singleton. Qed.

Lemma updateWhereCik_idem time yahooData cik table :
  updateWhereCik (buildUpdateFields time yahooData) cik
    (updateWhereCik (buildUpdateFields time yahooData) cik table)
  = updateWhereCik (buildUpdateFields time yahooData) cik table.
Proof.
  unfold updateWhereCik. rewrite List.map_map. apply map_ext. intros row.
  destruct (bool_decide (textField row "cik" = Some cik)) eqn:Hc.
  - rewrite textField_cik_update, Hc.
    rewrite (assoc_L (∪)), (idemp_L (∪)). reflexivity.
  - rewrite Hc. reflexivity.
Qed.

End RefreshMore.

(** X11.  The job answers for every entity with a ticker, in order, whatever
    fails on the way; the summary's counts add up: the skipped count is the
    number of results with status skipped, the three counts sum to the
    number of results, which does not exceed the reported total. *)
Theorem refresh_summary_accounts
    (quoteSummary : string -> string + QuoteSummary)
    (updateError : string -> option string) (now : nat -> Z)
    (table : list Row) :
  let bdcs := selectWithTicker table in
  let results := (GET quoteSummary updateError now table).1 in
  let summary := summaryOf bdcs results in
  List.map r_ticker results = List.map snd (withTicker bdcs)
  /\ s_skipped summary = Z.of_nat (countStatus skippedNoData results)
  /\ Z.of_nat (s_updated summary) + Z.of_nat (s_errors summary)
     + s_skipped summary = Z.of_nat (length results)
  /\ (length results <= s_total summary)%nat.
Proof.
  intros bdcs results summary.
  assert (Htickers : List.map r_ticker results = List.map snd (withTicker bdcs))
    by (subst results bdcs; unfold GET; rewrite refreshLoop_tickers; reflexivity).
  pose proof (countStatus_total results) as Hsum.
  subst summary. unfold summaryOf. cbn [s_skipped s_updated s_errors s_total].
  split; [ exact Htickers | ]. split; [ lia | ]. split; [ lia | ].
  apply (f_equal length) in Htickers. rewrite !length_map in Htickers.
  rewrite Htickers. unfold withTicker. apply List.filter_length_le.
Qed.

(** X12.  A step of the job touches one entity only, and only on success:
    rows of other entities come out as they went in; unless the step
    reports [updated] the whole table is unchanged; a provider failure is
    reported as an error with its message, and a provider without any of
    the four values is reported as skipped. *)
Theorem refreshEntity_isolated
    (quoteSummary : string -> string + QuoteSummary)
    (updateError : string -> option string) (now : nat -> Z)
    (n : nat) (cik ticker : string) (table : list Row) :
  let step := refreshEntity quoteSummary updateError now n cik ticker table in
  Forall2 (fun row row' => textField row "cik" <> Some cik -> row' = row)
    table step.2
  /\ (r_status step.1 <> updated -> step.2 = table)
  /\ (forall message,
        fetchBDCData quoteSummary ticker = inl message ->
        step = (mkRefreshResult ticker error (Some message), table))
  /\ (forall yahooData,
        fetchBDCData quoteSummary ticker = inr yahooData ->
        price yahooData = None -> dividend_yield yahooData = None ->
        nav_per_share yahooData = None -> debt_to_equity yahooData = None ->
        step = (mkRefreshResult ticker skippedNoData (Some "No data from Yahoo"),
                table)).
Proof.
  cbv zeta. unfold refreshEntity.
  assert (Hsame : Forall2 (fun row row' : Row =>
                             textField row "cik" <> Some cik -> row' = row)
                    table table)
    by (apply Forall2_same; reflexivity).
  destruct (fetchBDCData quoteSummary ticker) as [message|yahooData] eqn:Hfetch.
  { split; [ exact Hsame | ]. split; [ reflexivity | ].
    split; [ intros m [= <-]; reflexivity | intros y [=] ]. }
  destruct (size (buildUpdateFields (now n) yahooData) <=? 1)%nat eqn:Hsize.
  { split; [ exact Hsame | ]. split; [ reflexivity | ].
    split; [ intros m [=] | intros y _ _ _ _ _; reflexivity ]. }
  assert (Hdata : forall y : BDCYahooData,
             inr yahooData = inr y (A := string) ->
             price y = None -> dividend_yield y = None ->
             nav_per_share y = None -> debt_to_equity y = None -> False).
  { intros y [= <-] Hp Hd Hn He.
    unfold buildUpdateFields, setPriceToNav, setIfPresent in Hsize.
    rewrite Hp, Hd, Hn, He, size_updated_at in Hsize. discriminate. }
  destruct (updateError cik) as [message|].
  { split; [ exact Hsame | ]. split; [ reflexivity | ].
    split; [ intros m [=] | intros y Hy Hp Hd Hn He; destruct (Hdata y Hy Hp Hd Hn He) ]. }
  cbn [fst snd r_status].
  split; [ apply updateWhereCik_other | ].
  split; [ intros H; contradiction | ].
  split; [ intros m [=] | intros y Hy Hp Hd Hn He; destruct (Hdata y Hy Hp Hd Hn He) ].
Qed.

Lemma refreshEntity_isolated_witness :
  (refreshEntity (fun _ => inl "network down") (fun _ => None) (fun _ => 2000)
     0 "0001287750" "ARCC" [ storedEntity ]).2 = [ storedEntity ].
Proof.
  destruct (refreshEntity_isolated (fun _ => inl "network down") (fun _ => None)
              (fun _ => 2000) 0 "0001287750" "ARCC" [ storedEntity ])
    as (_ & H & _).
  apply H. vm_compute. discriminate.
Defined.

(** X13.  Refreshing is idempotent: running the step for an entity again,
    at the same instant and with the same provider answer, leaves the table
    of the first run and reports the same result. *)
Theorem refreshEntity_idempotent
    (quoteSummary : string -> string + QuoteSummary)
    (updateError : string -> option string) (now : nat -> Z)
    (n : nat) (cik ticker : string) (table : list Row) :
  let step := refreshEntity quoteSummary updateError now n cik ticker table in
  refreshEntity quoteSummary updateError now n cik ticker step.2 = step.
Proof.
  cbv zeta. unfold refreshEntity.
  destruct (fetchBDCData quoteSummary ticker) as [message|yahooData];
    [ reflexivity | ].
  destruct (size (buildUpdateFields (now n) yahooData) <=? 1)%nat; [ reflexivity | ].
  destruct (updateError cik); [ reflexivity | ].
  cbn [snd]. rewrite updateWhereCik_idem. reflexivity.
Qed.

Lemma buildUpdateFields_updated_at time yahooData :
  buildUpdateFields time yahooData !! "updated_at" = Some (VTime time).
Proof.
  unfold buildUpdateFields.
  rewrite setPriceToNav_ne, !setIfPresent_ne by discriminate.
  apply lookup_singleton_eq.
Qed.

(** X14.  A step that reports [updated] has stamped every row of the entity
    with the instant of the step and stored every non-null value the
    provider gave. *)
Theorem refreshEntity_writes_fresh_values
    (quoteSummary : string -> string + QuoteSummary)
    (updateError : string -> option string) (now : nat -> Z)
    (n : nat) (cik ticker : string) (table : list Row) :
  let step := refreshEntity quoteSummary updateError now n cik ticker table in
  r_status step.1 = updated ->
  exists yahooData,
    fetchBDCData quoteSummary ticker = inr yahooData
    /\ Forall
         (fun row' : Row =>
            textField row' "cik" = Some cik ->
            row' !! "updated_at" = Some (VTime (now n))
            /\ forall column q,
                 In column copiedColumns ->
                 yahooField yahooData column = Some q ->
                 row' !! column = Some (VNum q))
         step.2.
Proof.
  cbv zeta. unfold refreshEntity.
  destruct (fetchBDCData quoteSummary ticker) as [message|yahooData];
    [ discriminate | ].
  destruct (size (buildUpdateFields (now n) yahooData) <=? 1)%nat; [ discriminate | ].
  destruct (updateError cik); [ discriminate | ].
  intros _. exists yahooData. split; [ reflexivity | ].
  cbn [snd]. unfold updateWhereCik. apply Forall_forall. intros row' Hin.
  apply list_elem_of_In, in_map_iff in Hin as (row & <- & _).
  destruct (bool_decide (textField row "cik" = Some cik)) eqn:Hc.
  - intros _. split.
    + rewrite union_lookup, buildUpdateFields_updated_at. reflexivity.
    + intros column q Hcol Hq.
      rewrite union_lookup, (buildUpdateFields_copied _ _ _ Hcol), Hq. reflexivity.
  - intros Hcik. apply bool_decide_eq_false in Hc. contradiction.
Qed.

Lemma refreshEntity_writes_fresh_values_witness :
  exists yahooData,
    fetchBDCData priceOnlyProvider "ARCC" = inr yahooData
    /\ Forall
         (fun row' : Row =>
            textField row' "cik" = Some "0001287750" ->
            row' !! "updated_at" = Some (VTime 2000)
            /\ forall column q,
                 In column copiedColumns ->
                 yahooField yahooData column = Some q ->
                 row' !! column = Some (VNum q))
         (refreshEntity priceOnlyProvider (fun _ => None) (fun _ => 2000)
            0 "0001287750" "ARCC" [ storedEntity ]).2.
Proof.
  apply (refreshEntity_writes_fresh_values priceOnlyProvider (fun _ => None)
           (fun _ => 2000) 0 "0001287750" "ARCC" [ storedEntity ]).
  vm_compute. reflexivity.
Defined.

(** ** Sorting *)

Section SortFacts.

Context {A : Type} (compare : A -> A -> Q) (R : A -> A -> Prop).

Hypothesis before : forall x y, Qle_bool (compare x y) 0 = true -> R x y.
Hypothesis after : forall x y, Qle_bool (compare x y) 0 = false -> R y x.

Lemma sortInsert_Permutation x l : Permutation (x :: l) (sortInsert compare x l).
Proof.
  induction l as [|y l IH]; simpl; [ reflexivity | ].
  destruct (Qle_bool (compare x y) 0); [ reflexivity | ].
  rewrite perm_swap. constructor. exact IH.
Qed.

Lemma jsSort_Permutation l : Permutation l (jsSort compare l).
Proof.
  induction l as [|x l IH]; simpl; [ constructor | ].
  etransitivity; [ apply perm_skip, IH | apply sortInsert_Permutation ].
Qed.

Lemma sortInsert_HdRel y x l :
  R y x -> HdRel R y l -> HdRel R y (sortInsert compare x l).
Proof.
  intros Hyx Hl. destruct l as [|z l]; simpl; [ constructor; exact Hyx | ].
  destruct (Qle_bool (compare x z) 0); constructor; [ exact Hyx | ].
  inversion Hl; assumption.
Qed.

Lemma sortInsert_Sorted x l : Sorted R l -> Sorted R (sortInsert compare x l).
Proof.
  induction l as [|y l IH]; intros Hs; simpl; [ repeat constructor | ].
  destruct (Qle_bool (compare x y) 0) eqn:E.
  - constructor; [ exact Hs | constructor; apply before, E ].
  - inversion Hs as [|? ? Hl Hhd]; subst.
    constructor; [ apply IH, Hl | ].
    apply sortInsert_HdRel; [ apply after, E | exact Hhd ].
Qed.

Lemma jsSort_Sorted l : Sorted R (jsSort compare l).
Proof.
  induction l as [|x l IH]; simpl; [ constructor | ].
  apply sortInsert_Sorted, IH.
Qed.

Lemma jsSort_StronglySorted l :
  Transitive R -> StronglySorted R (jsSort compare l).
Proof. intros HT. apply Sorted_StronglySorted; [ exact HT | apply jsSort_Sorted ]. Qed.

End SortFacts.

Lemma Qle_bool_false a b : Qle_bool a b = false -> (b < a)%Q.
Proof.
  intros H. apply Qnot_le_lt. intros Hle. apply Qle_bool_iff in Hle. congruence.
Qed.

(** ** The entity detail page *)

Lemma valueDesc_trans : Transitive valueDesc.
Proof. intros a b c Hab Hbc. unfold valueDesc in *. eapply Qle_trans; eassumption. Qed.

Lemma fairValueDesc_trans : Transitive fairValueDesc.
Proof. intros a b c Hab Hbc. unfold fairValueDesc in *. eapply Qle_trans; eassumption. Qed.

Lemma diff_before {A} (f : A -> Q) x y :
  Qle_bool (f y - f x) 0 = true -> (f y <= f x)%Q.
Proof.
  intros H. apply Qle_bool_iff in H.
  apply (Qplus_le_l _ _ (- f x)). eapply Qle_trans; [ exact H | ].
  apply Qle_lteq. right. ring.
Qed.

Lemma diff_after {A} (f : A -> Q) x y :
  Qle_bool (f y - f x) 0 = false -> (f x <= f y)%Q.
Proof.
  intros H. apply Qle_bool_false in H. apply Qlt_le_weak.
  apply (Qplus_lt_l _ _ (- f x)). eapply Qle_lt_trans; [ | exact H ].
  apply Qle_lteq. right. ring.
Qed.

Lemma sectorSummary_sorted l :
  StronglySorted valueDesc (jsSort byValueDesc l).
Proof.
  apply jsSort_StronglySorted; [ | | apply valueDesc_trans ];
    intros x y H; unfold valueDesc.
  - apply (diff_before ss_value x y H).
  - apply (diff_after ss_value x y H).
Qed.

Lemma holdings_sorted l :
  StronglySorted fairValueDesc (jsSort byFairValueDesc l).
Proof.
  apply jsSort_StronglySorted; [ | | apply fairValueDesc_trans ];
    intros x y H; unfold fairValueDesc.
  - apply (diff_before fairValueOrZero x y H).
  - apply (diff_after fairValueOrZero x y H).
Qed.

Lemma fold_addToSummary hs : forall (m : gmap string (Q * nat)) s,
  (fst (default (0%Q, 0%nat) (fold_left addToSummary hs m !! sectorName s))
   == fst (default (0%Q, 0%nat) (m !! sectorName s)) + sectorValue hs s)%Q
  /\ snd (default (0%Q, 0%nat) (fold_left addToSummary hs m !! sectorName s))
     = (snd (default (0%Q, 0%nat) (m !! sectorName s)) + sectorCount hs s)%nat.
Proof.
  induction hs as [|h hs IH]; intros m s.
  - unfold sectorValue, sectorCount. simpl. split; [ ring | lia ].
  - simpl fold_left. destruct (IH (addToSummary m h) s) as [Hv Hc].
    rewrite Hv, Hc. unfold sectorValue, sectorCount. simpl List.filter.
    unfold addToSummary.
    destruct (decide (resolveSector h = s)) as [->|Hne].
    + rewrite lookup_insert_eq, bool_decide_eq_true_2 by reflexivity.
      destruct (m !! sectorName s) as [[v c]|]; simpl; split; first [ ring | lia ].
    + rewrite lookup_insert_ne, bool_decide_eq_false_2 by
        (first [ assumption | intros E; apply Hne, sectorName_inj, E ]).
      split; reflexivity.
Qed.

Lemma summaryEntry_sector totals total s :
  ss_sector (summaryEntry totals total s) = s.
Proof. reflexivity. Qed.

Lemma summaryEntry_value hs total s :
  (ss_value (summaryEntry (fold_left addToSummary hs ∅) total s)
   == sectorValue hs s)%Q.
Proof.
  destruct (fold_addToSummary hs ∅ s) as [Hv _].
  rewrite lookup_empty in Hv. simpl in Hv.
  unfold summaryEntry. simpl.
  destruct (fold_left addToSummary hs ∅ !! sectorName s) as [[v c]|];
    simpl in *; rewrite Hv; ring.
Qed.

Lemma summaryEntry_count hs total s :
  ss_count (summaryEntry (fold_left addToSummary hs ∅) total s)
  = sectorCount hs s.
Proof.
  destruct (fold_addToSummary hs ∅ s) as [_ Hc].
  rewrite lookup_empty in Hc. simpl in Hc.
  unfold summaryEntry. simpl.
  destruct (fold_left addToSummary hs ∅ !! sectorName s) as [[v c]|];
    simpl in *; exact Hc.
Qed.

Lemma summaryEntry_percentage totals total s :
  ss_percentage (summaryEntry totals total s)
  = if Qgtb total 0
    then (ss_value (summaryEntry totals total s) / total * 100)%Q
    else 0%Q.
Proof. reflexivity. Qed.

Lemma sectorShare_entry hs s :
  (ss_percentage
     (summaryEntry (fold_left addToSummary hs ∅) (sumFairValue hs) s)
   == sectorShare hs s)%Q.
Proof.
  rewrite summaryEntry_percentage. unfold sectorShare.
  rewrite (Qgtb_proper _ _ (sumFairValue_total hs) 0%Q 0%Q (Qeq_refl 0%Q)).
  destruct (Qgtb (totalValue hs) 0) eqn:E; [ | reflexivity ].
  apply Qgtb_true in E.
  rewrite summaryEntry_value, sumFairValue_total. reflexivity.
Qed.

(** The entries of the summary are exactly the entries of the sectors with a
    positive value. *)
Lemma in_sectorSummaryOf hs e :
  In e (sectorSummaryOf hs)
  <-> (e = summaryEntry (fold_left addToSummary hs ∅) (sumFairValue hs)
             (ss_sector e)
       /\ (0 < ss_value e)%Q).
Proof.
  unfold sectorSummaryOf. split.
  - intros Hin.
    apply (Permutation_in _ (Permutation_sym (jsSort_Permutation _ _))) in Hin.
    apply filter_In in Hin. destruct Hin as [Hin Hpos].
    apply in_map_iff in Hin. destruct Hin as [s [<- _]].
    split; [ reflexivity | apply Qgtb_true, Hpos ].
  - intros [He Hpos].
    apply (Permutation_in _ (jsSort_Permutation _ _)).
    apply filter_In. split; [ | apply Qgtb_true, Hpos ].
    rewrite He. apply in_map. apply list_elem_of_In, in_SECTORS.
Qed.

Lemma NoDup_entries (f : Sector -> SectorSummary) (p : SectorSummary -> bool) l :
  (forall s, ss_sector (f s) = s) ->
  List.NoDup l ->
  List.NoDup (List.map ss_sector (List.filter p (List.map f l))).
Proof.
  intros Hf. induction 1 as [|s l Hout _ IH]; simpl; [ constructor | ].
  destruct (p (f s)); [ | exact IH ].
  simpl. constructor; [ | exact IH ].
  rewrite Hf. intros Hin. apply Hout.
  apply in_map_iff in Hin. destruct Hin as [e [He Hin]].
  apply filter_In in Hin. destruct Hin as [Hin _].
  apply in_map_iff in Hin. destruct Hin as [s' [<- Hin]].
  rewrite Hf in He. subst s'. exact Hin.
Qed.

Lemma NoDup_SECTORS : List.NoDup SECTORS.
Proof.
  unfold SECTORS.
  repeat (constructor; [ simpl; intuition discriminate | ]). constructor.
Qed.

Lemma sectorSummaryOf_distinct hs :
  List.NoDup (List.map ss_sector (sectorSummaryOf hs)).
Proof.
  unfold sectorSummaryOf.
  eapply Permutation_NoDup;
    [ apply Permutation_map, jsSort_Permutation | ].
  apply NoDup_entries; [ intros s; reflexivity | apply NoDup_SECTORS ].
Qed.

(** X16. The sector summary of the detail page lists each sector at most
    once, only sectors with a positive value, and the larger values
    first. *)
Theorem sectorSummary_sorted_positive_distinct (hs : list Holding) :
  let summary := sectorSummaryOf hs in
  StronglySorted valueDesc summary
  /\ Forall (fun e => (0 < ss_value e)%Q) summary
  /\ List.NoDup (List.map ss_sector summary).
Proof.
  simpl. split; [ apply sectorSummary_sorted | split ].
  - apply List.Forall_forall. intros e Hin. apply in_sectorSummaryOf in Hin.
    apply Hin.
  - apply sectorSummaryOf_distinct.
Qed.

(** X17. A sector is listed in the summary exactly when the holdings of
    the sector have a positive value; its entry carries that value, the
    number of those holdings and the share of the value in the total. *)
Theorem sectorSummary_entries (hs : list Holding) (s : Sector) :
  ((exists e, In e (sectorSummaryOf hs) /\ ss_sector e = s)
   <-> (0 < sectorValue hs s)%Q)
  /\ (forall e, In e (sectorSummaryOf hs) -> ss_sector e = s ->
        (ss_value e == sectorValue hs s)%Q
        /\ ss_count e = sectorCount hs s
        /\ (ss_percentage e == sectorShare hs s)%Q).
Proof.
  split; [ split | ].
  - intros [e [Hin <-]]. apply in_sectorSummaryOf in Hin.
    destruct Hin as [He Hpos]. rewrite He in Hpos.
    rewrite summaryEntry_value in Hpos. exact Hpos.
  - intros Hpos.
    exists (summaryEntry (fold_left addToSummary hs ∅) (sumFairValue hs) s).
    split; [ | reflexivity ].
    apply in_sectorSummaryOf. split; [ reflexivity | ].
    rewrite summaryEntry_value. exact Hpos.
  - intros e Hin <-. apply in_sectorSummaryOf in Hin.
    destruct Hin as [He _]. rewrite He. simpl ss_sector.
    split; [ apply summaryEntry_value | split ].
    + apply summaryEntry_count.
    + apply sectorShare_entry.
Qed.

Lemma sectorSummary_entries_witness :
  let hs := sampleHoldings in
  let e := mkSectorSummary Healthcare 100 (100 / 150 * 100) 1 in
  In e (sectorSummaryOf hs)
  /\ (ss_value e == sectorValue hs Healthcare)%Q
  /\ ss_count e = sectorCount hs Healthcare
  /\ (ss_percentage e == sectorShare hs Healthcare)%Q.
Proof.
  simpl.
  assert (Hin : In (mkSectorSummary Healthcare 100 (100 / 150 * 100) 1)
                  (sectorSummaryOf sampleHoldings)).
  { vm_compute. tauto. }
  split; [ exact Hin | ].
  exact (proj2 (sectorSummary_entries sampleHoldings Healthcare) _ Hin eq_refl).
Defined.

Lemma percentage_sectorShare first rest s :
  let latest := latestHoldingsOf (first :: rest) in
  exists p,
    percentage (aggregate (Some (first :: rest))) s = Some p
    /\ (p == sectorShare latest s)%Q.
Proof.
  cbv zeta.
  change (latestHoldingsOf (first :: rest))
    with (List.filter
            (fun h => String.eqb (period_date h) (period_date first))
            (first :: rest)).
  set (latest := List.filter _ (first :: rest)).
  unfold sectorShare.
  rewrite <- (Qgtb_proper _ _ (sumFairValue_total latest) 0%Q 0%Q (Qeq_refl 0%Q)).
  destruct (Qgtb (sumFairValue latest) 0) eqn:E.
  - eexists. split; [ apply (percentage_positive first rest s E) | ].
    fold latest. rewrite sectorTotalsOf_value, sumFairValue_total. reflexivity.
  - eexists. split; [ apply (percentage_not_positive first rest s E) | ].
    reflexivity.
Qed.

(** X18. For the same query result the detail page and the screener agree:
    the total, the period and, for every sector the detail page lists, the
    percentage are those of the screener's aggregator. *)
Theorem detail_page_agrees_with_screener (b : Row) (first : Holding)
    (rest : list Holding) (d : BDCDetails) :
  getBDCDetails (Some b) (Some (first :: rest)) = Some d ->
  let e := aggregate (Some (first :: rest)) in
  d_totalValue d = Some (totalFairValue e)
  /\ d_periodDate d = Some (latestPeriod e)
  /\ forall entry, In entry (d_sectorSummary d) ->
       exists p, percentage e (ss_sector entry) = Some p
                 /\ (p == ss_percentage entry)%Q.
Proof.
  intros Hd. injection Hd as <-. cbv zeta.
  split; [ | split ].
  - cbn [d_totalValue]. rewrite totalFairValue_rows. reflexivity.
  - reflexivity.
  - cbn [d_sectorSummary]. intros entry Hin.
    destruct (percentage_sectorShare first rest (ss_sector entry))
      as [p [Hp Hshare]].
    exists p. split; [ exact Hp | ].
    rewrite Hshare. apply in_sectorSummaryOf in Hin.
    destruct Hin as [He _]. rewrite He at 2. symmetry.
    apply sectorShare_entry.
Qed.

Lemma detail_page_agrees_with_screener_witness :
  let rows := rev sampleHoldings in
  exists d, getBDCDetails (Some ∅) (Some rows) = Some d
    /\ d_totalValue d = Some (totalFairValue (aggregate (Some rows)))
    /\ d_periodDate d = Some (latestPeriod (aggregate (Some rows))).
Proof.
  eexists. split; [ reflexivity | ].
  pose proof (detail_page_agrees_with_screener ∅
                (mkHolding "0001" "2024-09-30" "Beta Machining" None
                   (Some Industrials) (Some 50%Q))
                [ mkHolding "0001" "2024-06-30" "Alpha Clinic" None
                    (Some Healthcare) (Some 100%Q) ] _ eq_refl) as H.
  split; apply H.
Defined.

Lemma sumQ_nonneg l : Forall (fun q => 0 <= q)%Q l -> (0 <= sumQ l)%Q.
Proof.
  induction 1 as [|q l Hq _ IH]; simpl; [ apply Qle_refl | ].
  replace 0%Q with (0 + 0)%Q by reflexivity. apply Qplus_le_compat; assumption.
Qed.

Lemma sectorCount_partition hs :
  list_sum (List.map (sectorCount hs) SECTORS) = length hs.
Proof.
  induction hs as [|h hs IH]; [ reflexivity | ].
  simpl length. rewrite <- IH. unfold sectorCount. simpl List.filter.
  destruct (resolveSector h); simpl; lia.
Qed.

Lemma list_sum_filter_le {A} (f : A -> nat) (p : A -> bool) l :
  (list_sum (List.map f (List.filter p l)) <= list_sum (List.map f l))%nat.
Proof.
  induction l as [|x l IH]; simpl; [ lia | ].
  destruct (p x); simpl; lia.
Qed.

Lemma list_sum_filter_zero {A} (f : A -> nat) (p : A -> bool) l :
  (forall x, In x l -> p x = false -> f x = 0%nat) ->
  list_sum (List.map f (List.filter p l)) = list_sum (List.map f l).
Proof.
  induction l as [|x l IH]; intros H; simpl; [ reflexivity | ].
  assert (IH' := IH (fun y Hy => H y (or_intror Hy))).
  destruct (p x) eqn:E; simpl; rewrite IH'; [ reflexivity | ].
  rewrite (H x (or_introl eq_refl) E). reflexivity.
Qed.

Lemma list_sum_Permutation l l' :
  Permutation l l' -> list_sum l = list_sum l'.
Proof.
  induction 1 as [|x l l' _ IH|x y l|l l' l'' _ IH1 _ IH2]; simpl; lia.
Qed.

Lemma listedCount_entries hs :
  listedCount (sectorSummaryOf hs)
  = list_sum
      (List.map ss_count
         (List.filter (fun e => Qgtb (ss_value e) 0)
            (List.map (summaryEntry (fold_left addToSummary hs ∅)
                         (sumFairValue hs)) SECTORS))).
Proof.
  unfold listedCount, sectorSummaryOf. symmetry.
  apply list_sum_Permutation, Permutation_map, jsSort_Permutation.
Qed.

Lemma count_entries hs :
  list_sum
    (List.map ss_count
       (List.map (summaryEntry (fold_left addToSummary hs ∅) (sumFairValue hs))
          SECTORS))
  = length hs.
Proof.
  rewrite List.map_map. rewrite <- sectorCount_partition. f_equal.
  apply List.map_ext. intros s. apply summaryEntry_count.
Qed.

Lemma sumQ_positive q l :
  (0 < q)%Q -> Forall (fun x => 0 <= x)%Q l -> (0 < sumQ (q :: l))%Q.
Proof.
  intros Hq Hl. simpl. replace 0%Q with (0 + 0)%Q by reflexivity.
  apply Qplus_lt_le_compat; [ exact Hq | apply sumQ_nonneg, Hl ].
Qed.

Lemma sectorValue_positive hs s :
  Forall (fun h => 0 < fairValueOrZero h)%Q hs ->
  sectorCount hs s <> 0%nat ->
  (0 < sectorValue hs s)%Q.
Proof.
  intros Hpos Hcount. unfold sectorCount in Hcount. unfold sectorValue.
  assert (Hall : Forall (fun h => 0 < fairValueOrZero h)%Q
                   (List.filter (fun h => bool_decide (resolveSector h = s)) hs)).
  { apply List.Forall_forall. intros h Hh. apply filter_In in Hh.
    rewrite List.Forall_forall in Hpos. apply Hpos, Hh. }
  destruct (List.filter _ hs) as [|h l]; [ contradiction Hcount; reflexivity | ].
  inversion Hall as [|? ? Hh Hl]; subst. simpl List.map.
  apply sumQ_positive; [ exact Hh | ].
  apply List.Forall_forall. intros q Hq. apply in_map_iff in Hq.
  destruct Hq as [h' [<- Hin]]. apply Qlt_le_weak.
  rewrite List.Forall_forall in Hl. apply Hl, Hin.
Qed.

(** X20. The holdings counted in the sector summary never exceed the
    holdings of the period, and are all of them when every holding has a
    positive fair value. *)
Theorem sectorSummary_counts (hs : list Holding) :
  (listedCount (sectorSummaryOf hs) <= length hs)%nat
  /\ (Forall (fun h => 0 < fairValueOrZero h)%Q hs ->
      listedCount (sectorSummaryOf hs) = length hs).
Proof.
  rewrite listedCount_entries. split.
  - rewrite <- (count_entries hs) at 1. apply list_sum_filter_le.
  - intros Hpos. rewrite <- (count_entries hs) at 1.
    apply list_sum_filter_zero. intros e Hin Hdrop.
    apply in_map_iff in Hin. destruct Hin as [s [<- _]].
    apply Qgtb_false in Hdrop. rewrite summaryEntry_value in Hdrop.
    rewrite summaryEntry_count.
    destruct (Nat.eq_dec (sectorCount hs s) 0%nat) as [E|E]; [ exact E | ].
    exfalso. apply (Qlt_not_le _ _ (sectorValue_positive hs s Hpos E)).
    exact Hdrop.
Qed.

Lemma sectorSummary_counts_witness :
  listedCount (sectorSummaryOf sampleHoldings) = length sampleHoldings.
Proof.
  apply (proj2 (sectorSummary_counts sampleHoldings)).
  repeat constructor; vm_compute; reflexivity.
Defined.

Lemma elem_of_sorted_app {A} (R : A -> A -> Prop) l1 l2 x y :
  StronglySorted R (l1 ++ l2) -> In x l1 -> In y l2 -> R x y.
Proof.
  induction l1 as [|a l1 IH]; intros Hs Hx Hy; [ destruct Hx | ].
  simpl in Hs. inversion Hs as [|? ? Hrest Hall]; subst.
  destruct Hx as [->|Hx]; [ | exact (IH Hrest Hx Hy) ].
  rewrite List.Forall_forall in Hall. apply Hall, in_or_app. right. exact Hy.
Qed.

Lemma StronglySorted_take {A} (R : A -> A -> Prop) n l :
  StronglySorted R l -> StronglySorted R (take n l).
Proof.
  revert n. induction l as [|a l IH]; intros n Hs;
    [ destruct n; constructor | ].
  destruct n as [|n]; [ constructor | ].
  inversion Hs as [|? ? Hrest Hall]; subst. simpl. constructor.
  - apply IH, Hrest.
  - rewrite List.Forall_forall in *. intros x Hx. apply Hall.
    apply list_elem_of_In. apply list_elem_of_In in Hx.
    apply elem_of_take in Hx. destruct Hx as [i [Hi _]].
    eapply list_elem_of_lookup_2, Hi.
Qed.

Lemma topHoldings_rows d :
  List.map fst (topHoldings d)
  = take 50 (jsSort byFairValueDesc (d_holdings d)).
Proof.
  unfold topHoldings. rewrite List.map_map. simpl. apply List.map_id.
Qed.

(** X21. The "Top Holdings" table shows at most 50 holdings, the larger
    fair values first, and no holding left out has a larger fair value than
    a holding shown. *)
Theorem topHoldings_largest_first (d : BDCDetails) :
  let shown := List.map fst (topHoldings d) in
  length shown = Nat.min 50 (length (d_holdings d))
  /\ StronglySorted fairValueDesc shown
  /\ exists hidden,
       Permutation (d_holdings d) (shown ++ hidden)
       /\ forall h h', In h shown -> In h' hidden ->
            (fairValueOrZero h' <= fairValueOrZero h)%Q.
Proof.
  cbv zeta. rewrite topHoldings_rows.
  set (sorted := jsSort byFairValueDesc (d_holdings d)).
  assert (Hperm : Permutation (d_holdings d) sorted)
    by apply jsSort_Permutation.
  assert (Hsorted : StronglySorted fairValueDesc sorted)
    by apply holdings_sorted.
  split; [ | split ].
  - rewrite length_take, (Permutation_length Hperm). reflexivity.
  - apply StronglySorted_take, Hsorted.
  - exists (drop 50 sorted). rewrite take_drop. split; [ exact Hperm | ].
    intros h h' Hh Hh'. rewrite <- (take_drop 50 sorted) in Hsorted.
    exact (elem_of_sorted_app _ _ _ _ _ Hsorted Hh Hh').
Qed.

(** ** The screener table *)

Lemma ltb_false_le a b : String.ltb a b = false <-> String.le b a.
Proof.
  unfold String.ltb, String.le, String.leb.
  rewrite (String.compare_antisym a b).
  destruct (String.compare b a); simpl; split; intros H;
    first [ exact I | reflexivity | discriminate H | destruct H ].
Qed.

Lemma ltb_asym a b : String.ltb a b = true -> String.ltb b a = false.
Proof.
  unfold String.ltb. rewrite (String.compare_antisym a b).
  destruct (String.compare b a); simpl; intros H;
    first [ reflexivity | discriminate H ].
Qed.

Lemma lessThan_asym x y : lessThan x y = true -> lessThan y x = false.
Proof.
  destruct x as [a|a], y as [b|b]; simpl; try reflexivity.
  - apply ltb_asym.
  - intros H. apply Qgtb_true in H. apply Qgtb_false, Qlt_le_weak, H.
Qed.

Lemma lessThan_trans_text a b c :
  lessThan (TextValue a) (TextValue b) = false ->
  lessThan (TextValue b) (TextValue c) = false ->
  lessThan (TextValue a) (TextValue c) = false.
Proof.
  simpl. rewrite !ltb_false_le. intros Hab Hbc.
  exact (transitivity (R := String.le) Hbc Hab).
Qed.

Lemma lessThan_trans_number a b c :
  lessThan (NumberValue a) (NumberValue b) = false ->
  lessThan (NumberValue b) (NumberValue c) = false ->
  lessThan (NumberValue a) (NumberValue c) = false.
Proof.
  simpl. rewrite !Qgtb_false. intros Hab Hbc. eapply Qle_trans; eassumption.
Qed.

Lemma lessThan_trans key a b c :
  lessThan (sortValue key a) (sortValue key b) = false ->
  lessThan (sortValue key b) (sortValue key c) = false ->
  lessThan (sortValue key a) (sortValue key c) = false.
Proof.
  destruct key; first [ apply lessThan_trans_text | apply lessThan_trans_number ].
Qed.

Lemma inOrder_trans key dir : Transitive (inOrder key dir).
Proof.
  intros a b c Hab Hbc. destruct dir; unfold inOrder in *.
  - exact (lessThan_trans key c b a Hbc Hab).
  - exact (lessThan_trans key a b c Hab Hbc).
Qed.

Lemma compareRows_before key dir a b :
  Qle_bool (compareRows key dir a b) 0 = true -> inOrder key dir a b.
Proof.
  unfold compareRows, inOrder.
  destruct (lessThan (sortValue key a) (sortValue key b)) eqn:Hab.
  - destruct dir; [ intros _; apply lessThan_asym, Hab | discriminate ].
  - destruct (lessThan (sortValue key b) (sortValue key a)) eqn:Hba;
      destruct dir; first [ discriminate | reflexivity | assumption ].
Qed.

Lemma compareRows_after key dir a b :
  Qle_bool (compareRows key dir a b) 0 = false -> inOrder key dir b a.
Proof.
  unfold compareRows, inOrder.
  destruct (lessThan (sortValue key a) (sortValue key b)) eqn:Hab.
  - destruct dir; [ discriminate | intros _; apply lessThan_asym, Hab ].
  - destruct (lessThan (sortValue key b) (sortValue key a)) eqn:Hba;
      destruct dir; first [ discriminate | reflexivity | assumption | idtac ].
    all: intros _; assumption.
Qed.

Lemma in_filterBySector f data b :
  In b (filterBySector f data)
  <-> In b data
      /\ match f with
         | None => True
         | Some s => (0 < orZero (x_sector_exposures b !! sectorName s))%Q
         end.
Proof.
  destruct f as [s|]; simpl; [ | tauto ].
  rewrite filter_In, Qgtb_true. reflexivity.
Qed.

(** X22. The table shows exactly the rows that pass the sector filter
    (with 'all', every row; with a sector, the rows with a positive
    exposure to it), each as often as it is given, and in the chosen
    order: no row comes before a row that beats it. *)
Theorem sortedData_sorted_filtered (data : list BDCSectorExposure)
    (key : SortKey) (dir : SortDirection) (f : option Sector) :
  let shown := sortedData data key dir f in
  StronglySorted (inOrder key dir) shown
  /\ Permutation (filterBySector f data) shown
  /\ forall b,
       In b shown
       <-> In b data
           /\ match f with
              | None => True
              | Some s => (0 < orZero (x_sector_exposures b !! sectorName s))%Q
              end.
Proof.
  cbv zeta. unfold sortedData. split; [ | split ].
  - apply jsSort_StronglySorted.
    + apply compareRows_before.
    + apply compareRows_after.
    + apply inOrder_trans.
  - apply jsSort_Permutation.
  - intros b. rewrite <- in_filterBySector. split; apply Permutation_in.
    + symmetry. apply jsSort_Permutation.
    + apply jsSort_Permutation.
Qed.

(** ** The earlier variant of the screener page *)

Lemma fold_left_push_some {A B C} (g : A -> option C) (f : A -> C -> B) rows :
  forall acc,
    fold_left
      (fun results a =>
         match g a with
         | Some c => results ++ [ f a c ]
         | None => results
         end) rows acc
    = acc ++ omap (fun a => f a <$> g a) rows.
Proof.
  induction rows as [|a rows IH]; intros acc; simpl.
  - rewrite app_nil_r. reflexivity.
  - rewrite IH. destruct (g a) as [c|]; simpl; [ | reflexivity ].
    rewrite <- app_assoc. reflexivity.
Qed.

Lemma in_AppPage_getBDCData rows table x :
  In x (AppPage.getBDCData (Some rows) table)
  <-> exists bdc e,
        In bdc rows
        /\ AppPage.exposureOf (holdingsOf table bdc) = Some e
        /\ x = AppPage.mergeView bdc e.
Proof.
  unfold AppPage.getBDCData.
  rewrite (fold_left_push_some
             (fun bdc => AppPage.exposureOf (holdingsOf table bdc))
             AppPage.mergeView).
  simpl. rewrite <- list_elem_of_In, list_elem_of_omap. split.
  - intros [bdc [Hbdc Hx]]. apply list_elem_of_In in Hbdc.
    destruct (AppPage.exposureOf (holdingsOf table bdc)) as [e|] eqn:E;
      [ | discriminate Hx ].
    injection Hx as <-. exists bdc, e. auto.
  - intros [bdc [e [Hbdc [He ->]]]]. exists bdc.
    split; [ apply list_elem_of_In, Hbdc | ]. rewrite He. reflexivity.
Qed.

Lemma AppPage_exposureOf_rows hs e :
  AppPage.exposureOf hs = Some e ->
  exists first rest,
    hs = Some (first :: rest)
    /\ let latest := latestHoldingsOf (first :: rest) in
       ~ (sumFairValue latest == 0)%Q
       /\ e = mkExposure (sumFairValue latest) (period_date first)
                (percentagesOf (sectorTotalsOf latest) (sumFairValue latest)).
Proof.
  destruct hs as [[|first rest]|]; try discriminate.
  unfold AppPage.exposureOf. cbv zeta.
  change (List.filter
            (fun h => String.eqb (period_date h) (period_date first))
            (first :: rest))
    with (latestHoldingsOf (first :: rest)).
  destruct (Qeq_bool (sumFairValue (latestHoldingsOf (first :: rest))) 0) eqn:E;
    [ discriminate | ].
  intros H. injection H as <-. exists first, rest.
  split; [ reflexivity | split; [ | reflexivity ] ].
  intros Hz. apply Qeq_bool_iff in Hz. congruence.
Qed.

Lemma fold_fill_noop l : forall (m : gmap string Q),
  (forall s, In s l -> is_Some (m !! sectorName s)) ->
  fold_left
    (fun e x => match e !! sectorName x with
                | None => <[ sectorName x := 0%Q ]> e
                | Some _ => e
                end) l m = m.
Proof.
  induction l as [|a l IH]; intros m H; simpl fold_left; [ reflexivity | ].
  destruct (H a (or_introl eq_refl)) as [v Hv]. rewrite Hv.
  apply IH. intros s Hs. apply H. right. exact Hs.
Qed.

Lemma fillMissing_percentagesOf totals total :
  fillMissing (percentagesOf totals total) = percentagesOf totals total.
Proof.
  unfold fillMissing. apply fold_fill_noop. intros s _.
  rewrite percentagesOf_lookup. eexists. reflexivity.
Qed.

Lemma aggregate_positive first rest :
  let latest := latestHoldingsOf (first :: rest) in
  (0 < sumFairValue latest)%Q ->
  aggregate (Some (first :: rest))
  = mkExposure (sumFairValue latest) (period_date first)
      (percentagesOf (sectorTotalsOf latest) (sumFairValue latest)).
Proof.
  cbv zeta. intros Hpos. unfold aggregate. cbv zeta.
  change (List.filter
            (fun h => String.eqb (period_date h) (period_date first))
            (first :: rest))
    with (latestHoldingsOf (first :: rest)).
  rewrite (proj2 (Qgtb_true _ _) Hpos), fillMissing_percentagesOf.
  reflexivity.
Qed.

(** X23. Every record the earlier variant of the page lists comes from a
    row of the entity table, has a total other than zero and a percentage
    for every sector; when its total is positive, its total, period and
    percentages are those the aggregator of the current page computes for
    the same holdings. *)
Theorem AppPage_records (rows : list Row) (table : list Holding)
    (x : BDCSectorExposure) :
  In x (AppPage.getBDCData (Some rows) table) ->
  ~ (x_total_fair_value x == 0)%Q
  /\ (forall s, is_Some (x_sector_exposures x !! sectorName s))
  /\ exists bdc,
       In bdc rows
       /\ x_cik x = textField bdc "cik"
       /\ ((0 < x_total_fair_value x)%Q ->
           let e := aggregate (holdingsOf table bdc) in
           x_total_fair_value x = totalFairValue e
           /\ x_period_date x = latestPeriod e
           /\ x_sector_exposures x = sectorExposures e).
Proof.
  intros Hin. apply in_AppPage_getBDCData in Hin.
  destruct Hin as [bdc [e [Hbdc [He ->]]]].
  apply AppPage_exposureOf_rows in He.
  destruct He as [first [rest [Hhs [Hnz ->]]]].
  split; [ exact Hnz | split ].
  - intros s. simpl. rewrite percentagesOf_lookup. eexists. reflexivity.
  - exists bdc. split; [ exact Hbdc | split; [ reflexivity | ] ].
    simpl. intros Hpos. rewrite Hhs.
    rewrite (aggregate_positive first rest Hpos). simpl. tauto.
Qed.

Lemma AppPage_records_witness :
  let rows : list Row := [ {[ "cik" := VText "0001" ]} ] in
  let table := sampleHoldings in
  exists x, In x (AppPage.getBDCData (Some rows) table)
    /\ ~ (x_total_fair_value x == 0)%Q.
Proof.
  simpl.
  assert (Hin : In (AppPage.mergeView {[ "cik" := VText "0001" ]}
                      (aggregate
                         (holdingsOf sampleHoldings {[ "cik" := VText "0001" ]})))
                  (AppPage.getBDCData (Some [ {[ "cik" := VText "0001" ]} ])
                     sampleHoldings)).
  { vm_compute. left. reflexivity. }
  eexists. split; [ exact Hin | ].
  exact (proj1 (AppPage_records _ _ _ Hin)).
Defined.

(** ** The time of the last update *)

Lemma fold_laterStamp_none rows : forall acc,
  fold_left laterStamp rows acc = None
  <-> acc = None
      /\ forall row, In row rows -> timeField row "updated_at" = None.
Proof.
  induction rows as [|row rows IH]; intros acc; simpl fold_left.
  - split; [ intros ->; split; [ reflexivity | intros ? [] ] | tauto ].
  - rewrite IH. unfold laterStamp.
    destruct (timeField row "updated_at") as [t|] eqn:E.
    + split.
      * intros [H _]. destruct acc; discriminate H.
      * intros [_ H]. specialize (H row (or_introl eq_refl)). congruence.
    + split; intros [Hacc H]; (split; [ exact Hacc | ]).
      * intros r [<-|Hr]; [ exact E | apply H, Hr ].
      * intros r Hr. apply H. right. exact Hr.
Qed.

Lemma fold_laterStamp_some rows : forall acc t,
  fold_left laterStamp rows acc = Some t ->
  (acc = Some t
   \/ exists row, In row rows /\ timeField row "updated_at" = Some t)
  /\ (forall a, acc = Some a -> a <= t)
  /\ (forall row t', In row rows -> timeField row "updated_at" = Some t' ->
        t' <= t).
Proof.
  induction rows as [|row rows IH]; intros acc t; simpl fold_left.
  - intros ->. split; [ left; reflexivity | split ].
    + intros a Ha. injection Ha as ->. lia.
    + intros ? ? [].
  - intros H. destruct (IH _ _ H) as [Hfrom [Hacc Hrows]]. clear IH H.
    unfold laterStamp in Hfrom, Hacc.
    destruct (timeField row "updated_at") as [u|] eqn:E.
    + assert (Hu : u <= t /\ forall a, acc = Some a -> a <= t).
      { destruct acc as [a|].
        - specialize (Hacc _ eq_refl).
          destruct (u >? a) eqn:Hcmp; split; try lia;
            intros a' Ha'; injection Ha' as <-; lia.
        - specialize (Hacc _ eq_refl). split; [ lia | discriminate ]. }
      destruct Hu as [Hu Ha]. split; [ | split ].
      * destruct Hfrom as [Hfrom|[r [Hr Ht]]].
        -- destruct acc as [a|].
           ++ destruct (u >? a); injection Hfrom as <-.
              ** right. exists row. split; [ left; reflexivity | exact E ].
              ** left. reflexivity.
           ++ injection Hfrom as <-. right. exists row.
              split; [ left; reflexivity | exact E ].
        -- right. exists r. split; [ right; exact Hr | exact Ht ].
      * exact Ha.
      * intros r t' [<-|Hr] Ht'.
        -- rewrite E in Ht'. injection Ht' as <-. exact Hu.
        -- exact (Hrows r t' Hr Ht').
    + split; [ | split ].
      * destruct Hfrom as [Hfrom|[r [Hr Ht]]]; [ left; exact Hfrom | ].
        right. exists r. split; [ right; exact Hr | exact Ht ].
      * exact Hacc.
      * intros r t' [<-|Hr] Ht'; [ congruence | exact (Hrows r t' Hr Ht') ].
Qed.

(** X24. The page's last-update time is the latest time stamp among the
    entities: it is the stamp of some entity and no entity has a later one;
    there is none exactly when the query failed or no entity has a
    stamp. *)
Theorem lastUpdated_latest_stamp (bdcs : option (list Row)) :
  match lastUpdated bdcs with
  | Some t =>
      exists rows,
        bdcs = Some rows
        /\ (exists row, In row rows /\ timeField row "updated_at" = Some t)
        /\ forall row t', In row rows ->
             timeField row "updated_at" = Some t' -> t' <= t
  | None =>
      forall rows, bdcs = Some rows ->
        forall row, In row rows -> timeField row "updated_at" = None
  end.
Proof.
  destruct bdcs as [rows|]; simpl; [ | discriminate ].
  destruct (fold_left laterStamp rows None) as [t|] eqn:E.
  - exists rows. split; [ reflexivity | ].
    destruct (fold_laterStamp_some rows None t E) as [[Hf|Hf] [_ Hmax]];
      [ discriminate Hf | ].
    split; [ exact Hf | exact Hmax ].
  - intros rows' Hrows. injection Hrows as <-.
    apply (fold_laterStamp_none rows None), E.
Qed.

(** ** Summary tiles *)

Lemma filter_nil_iff {A} (p : A -> bool) l :
  List.filter p l = [] <-> forall x, In x l -> p x = false.
Proof.
  induction l as [|a l IH]; simpl.
  - split; [ intros _ ? [] | reflexivity ].
  - destruct (p a) eqn:E.
    + split; [ discriminate | ]. intros H.
      specialize (H a (or_introl eq_refl)). congruence.
    + rewrite IH. split.
      * intros H x [<-|Hx]; [ exact E | apply H, Hx ].
      * intros H x Hx. apply H. right. exact Hx.
Qed.

(** X25. A summary average leaves out the entities whose metric is zero,
    as it leaves out those without the metric; it is undefined exactly
    when no entity has a metric other than zero, and otherwise it is the
    sum of the metrics other than zero divided by their number. *)
Theorem averageMetric_mean (metric : BDCSectorExposure -> option Q)
    (data : list BDCSectorExposure) :
  let counted := List.filter (fun b => truthyNum (metric b)) data in
  (forall before b after, truthyNum (metric b) = false ->
     averageMetric metric (before ++ b :: after)
     = averageMetric metric (before ++ after))
  /\ (averageMetric metric data = None
      <-> forall b, In b data ->
            metric b = None \/ exists q, metric b = Some q /\ (q == 0)%Q)
  /\ (forall avg, averageMetric metric data = Some avg ->
        (avg * inject_Z (Z.of_nat (length counted))
         == sumQ (List.map (fun b => orZero (metric b)) counted))%Q).
Proof.
  cbv zeta. split; [ | split ].
  - intros before b after Hb. unfold averageMetric.
    rewrite !List.filter_app. simpl. rewrite Hb. reflexivity.
  - rewrite averageMetric_selected. cbv zeta.
    destruct (List.filter _ data) as [|c l] eqn:E.
    + split; [ intros _ | reflexivity ]. intros b Hb.
      apply truthyNum_false. exact (proj1 (filter_nil_iff _ _) E b Hb).
    + split; [ discriminate | ]. intros H. exfalso.
      assert (Hc : In c (List.filter (fun b => truthyNum (metric b)) data))
        by (rewrite E; left; reflexivity).
      apply filter_In in Hc. destruct Hc as [Hc Ht].
      apply H, truthyNum_false in Hc. congruence.
  - intros avg. rewrite averageMetric_selected. cbv zeta.
    destruct (List.filter _ data) as [|c l] eqn:E; [ discriminate | ].
    intros H. injection H as <-.
    rewrite fold_left_sum. simpl length. simpl List.map. simpl sumQ.
    assert (Hn : ~ (inject_Z (Z.of_nat (S (length l))) == 0)%Q).
    { intros Hz. unfold Qeq in Hz. simpl in Hz. lia. }
    revert Hn. generalize (inject_Z (Z.of_nat (S (length l)))). intros n Hn.
    field. exact Hn.
Qed.

Lemma averageMetric_mean_witness :
  exists avg,
    avgDividendYield sampleEntities = Some avg
    /\ (avg * 2 == 30)%Q.
Proof.
  eexists. split; [ reflexivity | ].
  exact (proj2 (proj2 (averageMetric_mean x_dividend_yield sampleEntities))
           _ eq_refl).
Defined.

(** ** The classifier and letter case, padding *)

Lemma lowerChar_upperChar c :
  JsString.lowerChar (JsString.upperChar c) = JsString.lowerChar c.
Proof. destruct c as [[] [] [] [] [] [] [] []]; vm_compute; reflexivity. Qed.

Lemma mapChars_app f a b :
  JsString.mapChars f (a ++ b)
  = (JsString.mapChars f a ++ JsString.mapChars f b)%string.
Proof. induction a as [|c a IH]; simpl; [ | rewrite IH ]; reflexivity. Qed.

Lemma toLowerCase_toUpperCase s :
  JsString.toLowerCase (JsString.toUpperCase s) = JsString.toLowerCase s.
Proof.
  unfold JsString.toLowerCase, JsString.toUpperCase.
  induction s as [|c s IH]; cbn [JsString.mapChars]; [ reflexivity | ].
  rewrite lowerChar_upperChar, IH. reflexivity.
Qed.

Lemma trimStart_app_white pre s :
  JsString.allWhiteSpace pre = true ->
  JsString.trimStart (pre ++ s) = JsString.trimStart s.
Proof.
  induction pre as [|c pre IH]; simpl; [ reflexivity | ].
  intros [Hc Hpre]%andb_prop. rewrite Hc. exact (IH Hpre).
Qed.

Lemma trimEnd_allWhiteSpace s :
  JsString.allWhiteSpace s = true -> JsString.trimEnd s = EmptyString.
Proof.
  induction s as [|c s IH]; simpl; [ reflexivity | ].
  intros [Hc Hs]%andb_prop. rewrite (IH Hs), Hc. reflexivity.
Qed.

Lemma trimEnd_app_white s post :
  JsString.allWhiteSpace post = true ->
  JsString.trimEnd (s ++ post) = JsString.trimEnd s.
Proof.
  intros Hpost. induction s as [|c s IH]; simpl.
  - apply trimEnd_allWhiteSpace, Hpost.
  - rewrite IH. reflexivity.
Qed.

Lemma trimStart_app s post :
  JsString.allWhiteSpace post = true ->
  exists post',
    JsString.allWhiteSpace post' = true
    /\ JsString.trimStart (s ++ post) = (JsString.trimStart s ++ post')%string.
Proof.
  intros Hpost. induction s as [|c s IH]; simpl.
  - exists EmptyString. split; [ reflexivity | ].
    apply JsStringFacts.trimStart_allWhiteSpace, Hpost.
  - destruct (JsString.isWhiteSpace c); [ exact IH | ].
    exists post. split; [ exact Hpost | reflexivity ].
Qed.

Lemma trim_padding pre s post :
  JsString.allWhiteSpace pre = true ->
  JsString.allWhiteSpace post = true ->
  JsString.trim (pre ++ s ++ post) = JsString.trim s.
Proof.
  intros Hpre Hpost. unfold JsString.trim.
  rewrite (trimStart_app_white pre _ Hpre).
  destruct (trimStart_app s post Hpost) as [post' [Hpost' ->]].
  apply trimEnd_app_white, Hpost'.
Qed.

Lemma normalize_padding pre raw raw' post :
  JsString.allWhiteSpace pre = true ->
  JsString.allWhiteSpace post = true ->
  JsString.toLowerCase raw' = JsString.toLowerCase raw ->
  normalize (pre ++ raw' ++ post) = normalize raw.
Proof.
  intros Hpre Hpost Hcase. unfold normalize, JsString.toLowerCase.
  rewrite !mapChars_app.
  fold (JsString.toLowerCase pre) (JsString.toLowerCase post)
       (JsString.toLowerCase raw') (JsString.toLowerCase raw).
  rewrite (JsStringFacts.toLowerCase_allWhiteSpace pre Hpre),
          (JsStringFacts.toLowerCase_allWhiteSpace post Hpost), Hcase.
  apply trim_padding; assumption.
Qed.

(** X26. The classifier looks neither at the case of the letters nor at
    white space around the text: a text that differs from another only in
    the case of its ASCII letters, padded with white space on both sides,
    is classified as the other; so is the upper-case form of a text of the
    ASCII range. *)
Theorem classifySector_case_and_padding (pre raw raw' post : string) :
  JsString.allWhiteSpace pre = true ->
  JsString.allWhiteSpace post = true ->
  JsString.toLowerCase raw' = JsString.toLowerCase raw ->
  classifySector (Some (pre ++ raw' ++ post)%string) = classifySector (Some raw)
  /\ (asciiOnly raw = true ->
      classifySector (Some (JsString.toUpperCase raw))
      = classifySector (Some raw)).
Proof.
  intros Hpre Hpost Hcase. rewrite !classifySector_scan. split.
  - rewrite (normalize_padding pre raw raw' post Hpre Hpost Hcase). reflexivity.
  - intros _. unfold normalize. rewrite toLowerCase_toUpperCase. reflexivity.
Qed.

Lemma classifySector_case_and_padding_witness :
  classifySector (Some "  Health Care SERVICES ")
  = classifySector (Some "health care services")
  /\ classifySector (Some (JsString.toUpperCase "health care services"))
     = classifySector (Some "health care services").
Proof.
  destruct (classifySector_case_and_padding "  " "health care services"
              "Health Care SERVICES" " " eq_refl eq_refl eq_refl)
    as [Hpad Hupper].
  split; [ exact Hpad | apply Hupper; reflexivity ].
Defined.

(** ** The import script *)

Lemma string_app_assoc (a b c : string) :
  ((a ++ b) ++ c = a ++ (b ++ c))%string.
Proof.
  induction a as [|x a IH]; [ reflexivity | ].
  change (String x ((a ++ b) ++ c) = String x (a ++ (b ++ c)))%string.
  rewrite IH. reflexivity.
Qed.

Lemma prefix_app k post : String.prefix k (k ++ post) = true.
Proof.
  induction k as [|a k IH]; simpl; [ destruct post; reflexivity | ].
  destruct (ascii_dec a a) as [_|Hne]; [ exact IH | contradiction Hne; reflexivity ].
Qed.

Lemma prefix_split k : forall s,
  String.prefix k s = true -> exists post, s = (k ++ post)%string.
Proof.
  induction k as [|a k IH]; intros s H.
  - exists s. reflexivity.
  - destruct s as [|c s]; [ discriminate H | ]. simpl in H.
    destruct (ascii_dec a c) as [->|_]; [ | discriminate H ].
    destruct (IH s H) as [post ->]. exists post. reflexivity.
Qed.

Lemma includes_intro pre k post :
  JsString.includes (pre ++ k ++ post) k = true.
Proof.
  induction pre as [|c pre IH].
  - change ((EmptyString ++ k ++ post)%string) with ((k ++ post)%string).
    apply JsStringFacts.prefix_includes, prefix_app.
  - change ((String c pre ++ k ++ post)%string)
      with (String c (pre ++ k ++ post)).
    rewrite JsStringFacts.includes_cons, IH. apply orb_true_r.
Qed.

Lemma includes_elim s k :
  JsString.includes s k = true ->
  exists pre post, s = (pre ++ k ++ post)%string.
Proof.
  induction s as [|c s IH].
  - rewrite JsStringFacts.includes_nil. intros H.
    destruct (prefix_split _ _ H) as [post Hpost].
    exists EmptyString, post. exact Hpost.
  - rewrite JsStringFacts.includes_cons. intros [H|H]%orb_prop.
    + destruct (prefix_split _ _ H) as [post Hpost].
      exists EmptyString, post. exact Hpost.
    + destruct (IH H) as [pre [post ->]].
      exists (String c pre), post. reflexivity.
Qed.

(** A text that contains a keyword contains every part of the keyword. *)
Lemma includes_sub s a k b :
  JsString.includes s (a ++ k ++ b) = true -> JsString.includes s k = true.
Proof.
  intros H. destruct (includes_elim _ _ H) as [pre [post ->]].
  replace ((pre ++ (a ++ k ++ b) ++ post)%string)
    with (((pre ++ a) ++ k ++ (b ++ post))%string).
  - apply includes_intro.
  - rewrite !string_app_assoc. reflexivity.
Qed.

Lemma existsb_agree {A} (f : A -> bool) l1 l2 :
  (forall k, In k l1 -> f k = true -> exists k', In k' l2 /\ f k' = true) ->
  (forall k, In k l2 -> f k = true -> exists k', In k' l1 /\ f k' = true) ->
  existsb f l1 = existsb f l2.
Proof.
  intros H12 H21.
  destruct (existsb f l1) eqn:E1; destruct (existsb f l2) eqn:E2;
    try reflexivity; exfalso.
  - apply existsb_exists in E1. destruct E1 as [k [Hin Hk]].
    destruct (H12 k Hin Hk) as [k' Hk'].
    assert (existsb f l2 = true) by (apply existsb_exists; eauto). congruence.
  - apply existsb_exists in E2. destruct E2 as [k [Hin Hk]].
    destruct (H21 k Hin Hk) as [k' Hk'].
    assert (existsb f l1 = true) by (apply existsb_exists; eauto). congruence.
Qed.

Ltac member := simpl; repeat (first [ left; reflexivity | right ]).

Ltac same_keyword :=
  match goal with
  | Hk : JsString.includes _ ?k = true |- _ =>
      exists k; split; [ solve [ member ] | exact Hk ]
  end.

Ltac part_of_keyword pre k post :=
  match goal with
  | Hk : JsString.includes _ _ = true |- _ =>
      exists k; split;
      [ solve [ member ]
      | exact (includes_sub _ pre k post Hk) ]
  end.

Ltac new_keyword Hnew :=
  match goal with
  | Hk : JsString.includes _ _ = true |- _ =>
      exfalso; rewrite Hnew in Hk by member; discriminate Hk
  end.

Ltac keyword_cases Hnew :=
  apply existsb_agree;
  (let k := fresh "k" in
   let Hin := fresh "Hin" in
   let Hk := fresh "Hk" in
   intros k Hin Hk; simpl in Hin;
   repeat (destruct Hin as [<-|Hin]); try contradiction);
  first
    [ same_keyword
    | part_of_keyword "information " "technology" ""
    | part_of_keyword "" "life science" "s"
    | part_of_keyword "" "consumer" " products"
    | new_keyword Hnew ].

Lemma scan_agree industry : forall script lib,
  Forall2
    (fun e1 e2 =>
       fst e1 = fst e2
       /\ String.eqb (sectorName (fst e2)) "Other" = false
       /\ scanKeywords industry (snd e1) = scanKeywords industry (snd e2))
    script lib ->
  ImportScript.scanSectors industry script
  = scanSectors industry (lib ++ [ (Other, []) ]).
Proof.
  induction 1 as [|[s1 k1] [s2 k2] script lib [Hs [Hother Hk]] _ IH]; simpl.
  - reflexivity.
  - simpl in Hs, Hother, Hk. subst s2. rewrite Hother, Hk, IH. reflexivity.
Qed.

Lemma ImportScript_scan_agrees industry :
  (forall k, In k ImportScript.newKeywords ->
     JsString.includes industry k = false) ->
  ImportScript.scanSectors industry ImportScript.SECTOR_KEYWORDS
  = scanSectors industry SECTOR_KEYWORDS.
Proof.
  intros Hnew.
  change SECTOR_KEYWORDS with (firstn 9 SECTOR_KEYWORDS ++ [ (Other, []) ]).
  apply scan_agree.
  unfold ImportScript.SECTOR_KEYWORDS, SECTOR_KEYWORDS. cbn [firstn].
  repeat (apply List.Forall2_cons); try apply List.Forall2_nil;
    cbv beta; cbn [fst snd];
    (split; [ reflexivity | split; [ reflexivity | ] ]);
    cbn [snd]; rewrite !scanKeywords_existsb;
    first [ reflexivity | keyword_cases Hnew ].
Qed.

(** X27. The import script's copy of the classifier gives the library's
    answer for every text that contains none of the four keywords only the
    script knows. *)
Theorem ImportScript_classifier_agrees (raw : string) :
  (forall k, In k ImportScript.newKeywords ->
     JsString.includes (normalize raw) k = false) ->
  ImportScript.classifySector (Some raw) = classifySector (Some raw)
  /\ ImportScript.classifySector None = classifySector None.
Proof.
  intros Hnew. split; [ | reflexivity ].
  unfold ImportScript.classifySector, classifySector.
  destruct (negb (JsString.truthy raw)); [ reflexivity | ].
  apply ImportScript_scan_agrees, Hnew.
Qed.

Lemma ImportScript_classifier_agrees_witness :
  ImportScript.classifySector (Some "Information Technology Services")
  = classifySector (Some "Information Technology Services").
Proof.
  apply (ImportScript_classifier_agrees "Information Technology Services").
  intros k Hin. simpl in Hin.
  repeat (destruct Hin as [<-|Hin]); try contradiction; vm_compute; reflexivity.
Defined.

Lemma filter_filter_implied {A} (p q : A -> bool) l :
  (forall x, p x = true -> q x = true) ->
  List.filter p (List.filter q l) = List.filter p l.
Proof.
  intros H. induction l as [|x l IH]; simpl; [ reflexivity | ].
  destruct (q x) eqn:Hq; simpl.
  - rewrite IH. reflexivity.
  - rewrite IH. destruct (p x) eqn:Hp; [ | reflexivity ].
    rewrite (H x Hp) in Hq. discriminate Hq.
Qed.

Lemma filter_none {A} (p : A -> bool) l :
  (forall x, In x l -> p x = false) -> List.filter p l = [].
Proof.
  intros H. induction l as [|x l IH]; simpl; [ reflexivity | ].
  rewrite (H x (or_introl eq_refl)). apply IH. intros y Hy. apply H.
  right. exact Hy.
Qed.

Lemma filter_all {A} (p : A -> bool) l :
  (forall x, In x l -> p x = true) -> List.filter p l = l.
Proof.
  intros H. induction l as [|x l IH]; simpl; [ reflexivity | ].
  rewrite (H x (or_introl eq_refl)). f_equal. apply IH. intros y Hy. apply H.
  right. exact Hy.
Qed.

Lemma holdingsOfEntity_app t1 t2 cik :
  holdingsOfEntity (t1 ++ t2) cik
  = holdingsOfEntity t1 cik ++ holdingsOfEntity t2 cik.
Proof. apply List.filter_app. Qed.

Lemma holdingsOfEntity_deleted table cik :
  holdingsOfEntity (ImportScript.deleteHoldings cik table) cik = [].
Proof.
  apply filter_none. intros h Hh. apply filter_In in Hh.
  destruct Hh as [_ Hh]. apply negb_true_iff in Hh. exact Hh.
Qed.

Lemma holdingsOfEntity_delete_other table cik other :
  other <> cik ->
  holdingsOfEntity (ImportScript.deleteHoldings cik table) other
  = holdingsOfEntity table other.
Proof.
  intros Hne. apply filter_filter_implied. intros h Hh.
  apply String.eqb_eq in Hh. apply negb_true_iff, String.eqb_neq.
  rewrite Hh. exact Hne.
Qed.

Lemma holdingsOfEntity_inserted cik date holdings :
  holdingsOfEntity (List.map (ImportScript.holdingToInsert cik date) holdings) cik
  = List.map (ImportScript.holdingToInsert cik date) holdings.
Proof.
  apply filter_all. intros h Hh. apply in_map_iff in Hh.
  destruct Hh as [p [<- _]]. apply String.eqb_refl.
Qed.

Lemma holdingsOfEntity_inserted_other cik date holdings other :
  other <> cik ->
  holdingsOfEntity (List.map (ImportScript.holdingToInsert cik date) holdings)
    other = [].
Proof.
  intros Hne. apply filter_none. intros h Hh. apply in_map_iff in Hh.
  destruct Hh as [p [<- _]]. apply String.eqb_neq. simpl.
  intros E. apply Hne. symmetry. exact E.
Qed.

Lemma replaceHoldings_own deleteError insertError cik date holdings table :
  holdings <> [] ->
  holdingsOfEntity
    (ImportScript.replaceHoldings deleteError insertError cik date holdings table)
    cik
  = (if deleteError then holdingsOfEntity table cik else [])
    ++ (if insertError then []
        else List.map (ImportScript.holdingToInsert cik date) holdings).
Proof.
  intros Hne. destruct holdings as [|h hs]; [ contradiction Hne; reflexivity | ].
  unfold ImportScript.replaceHoldings. cbv zeta.
  destruct deleteError, insertError;
    rewrite ?holdingsOfEntity_app, ?holdingsOfEntity_deleted,
            ?holdingsOfEntity_inserted, ?app_nil_r;
    reflexivity.
Qed.

Lemma replaceHoldings_other deleteError insertError cik date holdings table
    other :
  other <> cik ->
  holdingsOfEntity
    (ImportScript.replaceHoldings deleteError insertError cik date holdings table)
    other
  = holdingsOfEntity table other.
Proof.
  intros Hne. destruct holdings as [|h hs]; [ reflexivity | ].
  unfold ImportScript.replaceHoldings. cbv zeta.
  destruct deleteError, insertError;
    rewrite ?holdingsOfEntity_app,
            ?(holdingsOfEntity_delete_other _ _ _ Hne),
            ?(holdingsOfEntity_inserted_other _ _ _ _ Hne), ?app_nil_r;
    reflexivity.
Qed.

(** X28. An import of one entity's filing never touches the holdings of
    another entity, and does nothing when the filing gave no holdings.
    Otherwise the entity's holdings afterwards are the old ones, if the
    delete was refused, followed by the filed ones, unless the insert was
    refused: a refused insert after a delete leaves the entity without
    holdings. *)
Theorem replaceHoldings_effect (deleteError insertError : bool)
    (cik date : string) (holdings : list ImportScript.PortfolioHolding)
    (table : list Holding) :
  let table' :=
    ImportScript.replaceHoldings deleteError insertError cik date holdings table in
  (forall other, other <> cik ->
     holdingsOfEntity table' other = holdingsOfEntity table other)
  /\ (holdings = [] -> table' = table)
  /\ (holdings <> [] ->
      holdingsOfEntity table' cik
      = (if deleteError then holdingsOfEntity table cik else [])
        ++ (if insertError then []
            else List.map (ImportScript.holdingToInsert cik date) holdings)).
Proof.
  cbv zeta. split; [ | split ].
  - intros other Hne. apply replaceHoldings_other, Hne.
  - intros ->. reflexivity.
  - apply replaceHoldings_own.
Qed.

Lemma replaceHoldings_effect_witness :
  let filed := [ ImportScript.mkPortfolioHolding "Gamma Cloud" (Some "Software") 70 ] in
  holdingsOfEntity
    (ImportScript.replaceHoldings false true "0001" "2025-01-31" filed
       sampleHoldings) "0001"
  = [].
Proof.
  simpl.
  refine (proj2 (proj2 (replaceHoldings_effect false true "0001" "2025-01-31"
                          [ ImportScript.mkPortfolioHolding "Gamma Cloud"
                              (Some "Software") 70 ]
                          sampleHoldings)) _).
  discriminate.
Defined.

Lemma leb_refl s : String.leb s s = true.
Proof. destruct (String.leb_total s s) as [H|H]; exact H. Qed.

Lemma maxPeriod_uniform date hs :
  hs <> [] ->
  (forall h, In h hs -> period_date h = date) ->
  maxPeriod hs = date.
Proof.
  induction hs as [|h hs IH]; intros Hne Hall; [ contradiction Hne; reflexivity | ].
  simpl. rewrite (Hall h (or_introl eq_refl)).
  destruct hs as [|h' hs'].
  - simpl. unfold laterPeriod. destruct date; reflexivity.
  - rewrite IH; [ | discriminate | intros x Hx; apply Hall; right; exact Hx ].
    unfold laterPeriod. rewrite leb_refl. reflexivity.
Qed.

Lemma latestOnly_uniform date hs :
  hs <> [] ->
  (forall h, In h hs -> period_date h = date) ->
  latestOnly hs = hs.
Proof.
  intros Hne Hall. unfold latestOnly. rewrite (maxPeriod_uniform date hs Hne Hall).
  apply filter_all. intros h Hh. apply String.eqb_eq, Hall, Hh.
Qed.

Lemma sectorShare_Permutation hs hs' s :
  Permutation hs hs' -> (sectorShare hs s == sectorShare hs' s)%Q.
Proof.
  intros H. unfold sectorShare.
  rewrite (Qgtb_proper _ _ (totalValue_Permutation hs hs' H) 0%Q 0%Q
             (Qeq_refl 0%Q)).
  destruct (Qgtb (totalValue hs') 0); [ | reflexivity ].
  rewrite (sectorValue_Permutation hs hs' s H),
          (totalValue_Permutation hs hs' H).
  reflexivity.
Qed.

Lemma totalValue_inserted cik date holdings :
  totalValue (List.map (ImportScript.holdingToInsert cik date) holdings)
  = ImportScript.filedValue holdings.
Proof.
  unfold totalValue, ImportScript.filedValue. rewrite List.map_map.
  reflexivity.
Qed.

(** X29. After a successful import of a filing, the screener reports for
    the entity the filing's date as period, the sum of the filed fair
    values as total, and for every sector the share of the holdings the
    script classified into it. *)
Theorem imported_holdings_on_screener (cik date : string)
    (holdings : list ImportScript.PortfolioHolding) (table : list Holding) :
  holdings <> [] ->
  let table' :=
    ImportScript.replaceHoldings false false cik date holdings table in
  let filed := List.map (ImportScript.holdingToInsert cik date) holdings in
  let e := aggregate (Some (queryHoldings table' cik)) in
  latestPeriod e = date
  /\ (totalFairValue e == ImportScript.filedValue holdings)%Q
  /\ (forall h, In h filed ->
        exists p, In p holdings
          /\ resolveSector h
             = ImportScript.classifySector (ImportScript.p_industry_raw p))
  /\ forall s, exists pct,
       percentage e s = Some pct /\ (pct == sectorShare filed s)%Q.
Proof.
  intros Hne. cbv zeta.
  set (table' := ImportScript.replaceHoldings false false cik date holdings table).
  set (filed := List.map (ImportScript.holdingToInsert cik date) holdings).
  assert (Hown : holdingsOfEntity table' cik = filed)
    by (unfold table'; rewrite (replaceHoldings_own false false); auto).
  assert (Hfiled : filed <> []).
  { unfold filed. destruct holdings; [ contradiction Hne; reflexivity | discriminate ]. }
  assert (Hdate : forall h, In h filed -> period_date h = date).
  { intros h Hh. apply in_map_iff in Hh. destruct Hh as [p [<- _]]. reflexivity. }
  destruct (queryHoldings_rows table' cik) as [first [rest [Hq [Hperiod Hperm]]]];
    [ rewrite Hown; exact Hfiled | ].
  rewrite Hown in Hperiod, Hperm.
  rewrite (maxPeriod_uniform date filed Hfiled Hdate) in Hperiod.
  rewrite (latestOnly_uniform date filed Hfiled Hdate) in Hperm.
  rewrite Hq. split; [ exact Hperiod | split; [ | split ] ].
  - rewrite totalFairValue_rows, sumFairValue_total.
    rewrite (totalValue_Permutation _ _ Hperm). unfold filed.
    rewrite totalValue_inserted. reflexivity.
  - intros h Hh. apply in_map_iff in Hh. destruct Hh as [p [<- Hp]].
    exists p. split; [ exact Hp | reflexivity ].
  - intros s. destruct (percentage_sectorShare first rest s) as [pct [Hpct Hshare]].
    exists pct. split; [ exact Hpct | ].
    rewrite Hshare. apply sectorShare_Permutation. exact Hperm.
Qed.

Lemma imported_holdings_on_screener_witness :
  let filed :=
    [ ImportScript.mkPortfolioHolding "Gamma Cloud" (Some "Software") 70;
      ImportScript.mkPortfolioHolding "Delta Pipes" (Some "Midstream") 30 ] in
  let table' :=
    ImportScript.replaceHoldings false false "0001" "2025-01-31" filed
      sampleHoldings in
  latestPeriod (aggregate (Some (queryHoldings table' "0001"))) = "2025-01-31"
  /\ (totalFairValue (aggregate (Some (queryHoldings table' "0001"))) == 100)%Q.
Proof.
  cbv zeta.
  assert (Hne : [ ImportScript.mkPortfolioHolding "Gamma Cloud" (Some "Software") 70;
                  ImportScript.mkPortfolioHolding "Delta Pipes" (Some "Midstream") 30 ]
                <> []) by discriminate.
  destruct (imported_holdings_on_screener "0001" "2025-01-31" _ sampleHoldings Hne)
    as [Hperiod [Htotal _]].
  split; [ exact Hperiod | exact Htotal ].
Defined.

Lemma length_append' (a b : string) :
  String.length (a ++ b) = (String.length a + String.length b)%nat.
Proof.
  induction a as [|c a IH]; [ reflexivity | ].
  change (S (String.length (a ++ b)) = S (String.length a + String.length b)).
  rewrite IH. reflexivity.
Qed.

Lemma length_zeros n : String.length (ImportScript.zeros n) = n.
Proof. induction n as [|n IH]; simpl; [ | rewrite IH ]; reflexivity. Qed.

Lemma strip_zeros n s :
  ImportScript.stripLeadingZeros (ImportScript.zeros n ++ s)
  = ImportScript.stripLeadingZeros s.
Proof. induction n as [|n IH]; [ reflexivity | exact IH ]. Qed.

Lemma strip_idem s :
  ImportScript.stripLeadingZeros (ImportScript.stripLeadingZeros s)
  = ImportScript.stripLeadingZeros s.
Proof.
  induction s as [|c s IH]; [ reflexivity | ].
  simpl. destruct (Ascii.eqb c "0") eqn:E; [ exact IH | ].
  simpl. rewrite E. reflexivity.
Qed.

(** X30. The padded form of an entity's key has at least ten characters,
    exactly ten when the key without its leading zeros has at most ten; it
    does not depend on leading zeros of the key, and stripping its leading
    zeros gives back the stripped key. *)
Theorem paddedCik_canonical (cik : string) :
  (10 <= String.length (ImportScript.paddedCik cik))%nat
  /\ ((String.length (ImportScript.stripLeadingZeros cik) <= 10)%nat ->
      String.length (ImportScript.paddedCik cik) = 10%nat)
  /\ ImportScript.paddedCik (String "0" cik) = ImportScript.paddedCik cik
  /\ ImportScript.stripLeadingZeros (ImportScript.paddedCik cik)
     = ImportScript.stripLeadingZeros cik.
Proof.
  unfold ImportScript.paddedCik, ImportScript.padStart10.
  rewrite length_append', length_zeros, strip_zeros, strip_idem.
  split; [ lia | split; [ lia | split; reflexivity ] ].
Qed.

Lemma paddedCik_canonical_witness :
  String.length (ImportScript.paddedCik "0001287750") = 10%nat.
Proof.
  apply (proj1 (proj2 (paddedCik_canonical "0001287750"))).
  vm_compute. lia.
Defined.

(* ===================================================================== *)
(** * The aggregator on doubles: proofs *)
(* ===================================================================== *)

Module DoubleFacts.
Import PrimFloat SpecFloat FloatOps FloatAxioms.










(** ** Facts about doubles the aggregator's arithmetic rests on *)
























End DoubleFacts.
